(** * geo2blender: raster merging and chunk export

    A shallow embedding of [geo2blender/merge_rasters.py] and
    [geo2blender/export_chunks.py], with the properties of the
    extent planner, the blockwise compositor, the global rescaler and
    the chunk splitter.

    Conventions of the embedding.
    - Python [int] is [Z]; Python [float] is [Q] (exact rationals: the
      rounding error of binary floating point is not modelled).
    - An array element is a [num]: a rational or one of the IEEE
      specials (infinities, NaN), with NumPy's rules for them.
    - A raised exception is a value [Raise e] of [result]; statements
      are sequenced with [x <- e ;; k].
    - NumPy arrays are nested lists in C order ([band][row][col]).
    - File and raster I/O runs in the monad [IO], which threads a
      [World]: the files on disk, the next free handle and the trace
      of I/O events so far.  An exception leaves the world as it was
      when it was raised.
    - What the package calls but does not implement (pixel contents,
      the resampling kernel, window arithmetic of rasterio) are the
      members of the class [Runtime].
    - Console output (the [print] calls, the [tqdm] progress bar and
      the block counter that feeds them) is left out; opening a file
      for writing, writing a block and saving a PNG always succeed. *)

From Stdlib Require Import String Ascii ZArith QArith Qround List Bool Lia.
From Stdlib Require Decimal DecimalString DecimalNat.
Import ListNotations.

Local Open Scope Z_scope.

(* ------------------------------------------------------------------ *)
(** ** Python values, exceptions and builtins                          *)
(* ------------------------------------------------------------------ *)

Inductive exn : Type :=
| ValueError (msg : string)
| IndexError (msg : string)
| ZeroDivisionError (msg : string)
| RasterioIOError (msg : string)
| WarpError (msg : string).

Inductive result (A : Type) : Type :=
| Ok (a : A)
| Raise (e : exn).

Arguments Ok {A} a.
Arguments Raise {A} e.

Definition bind {A B : Type} (m : result A) (k : A -> result B) : result B :=
  match m with
  | Ok a => k a
  | Raise e => Raise e
  end.

Declare Scope py_scope.
Delimit Scope py_scope with py.
Notation "x <- m ;; k" := (bind m (fun x => k))
  (at level 61, m at next level, right associativity) : py_scope.
Local Open Scope py_scope.

Module Py.

(** [min(iterable)]: the first least element; [ValueError] when empty. *)
Definition min (l : list Q) : result Q :=
  match l with
  | [] => Raise (ValueError "min() arg is an empty sequence")
  | x :: xs => Ok (fold_left (fun m y => if Qle_bool m y then m else y) xs x)
  end.

(** [max(iterable)]: the first greatest element; [ValueError] when empty. *)
Definition max (l : list Q) : result Q :=
  match l with
  | [] => Raise (ValueError "max() arg is an empty sequence")
  | x :: xs => Ok (fold_left (fun m y => if Qle_bool y m then m else y) xs x)
  end.

(** [l[i]] for a list or tuple and [i >= 0]. *)
Definition getitem {A : Type} (l : list A) (i : nat) : result A :=
  match nth_error l i with
  | Some a => Ok a
  | None => Raise (IndexError "list index out of range")
  end.

(** [a / b] on floats. *)
Definition truediv (a b : Q) : result Q :=
  if Qeq_bool b 0 then Raise (ZeroDivisionError "float division by zero")
  else Ok (a / b)%Q.

(** [a // b] on ints. *)
Definition floordiv (a b : Z) : result Z :=
  if b =? 0 then Raise (ZeroDivisionError "integer division or modulo by zero")
  else Ok (a / b).

(** [range(start, stop, step)], as the list it iterates over. *)
Definition range (start stop step : Z) : result (list Z) :=
  if step =? 0 then Raise (ValueError "range() arg 3 must not be zero")
  else
    let n := if 0 <? step
             then (stop - start + step - 1) / step
             else (start - stop - step - 1) / (- step) in
    Ok (map (fun k => start + Z.of_nat k * step) (seq 0 (Z.to_nat n))).

End Py.

(* ------------------------------------------------------------------ *)
(** ** Raster datasets as rasterio presents them                       *)
(* ------------------------------------------------------------------ *)

Definition CRS := string.
Definition dtype := string.

(** An array element or a Python float that may be special. *)
Inductive num : Type :=
| Fin (q : Q)
| PInf
| NInf
| NaN.

Record BoundingBox : Type := {
  left : Q;
  bottom : Q;
  right : Q;
  top : Q
}.

(** [affine.Affine(a, b, c, d, e, f)]. *)
Record Affine : Type := {
  aff_a : Q; aff_b : Q; aff_c : Q;
  aff_d : Q; aff_e : Q; aff_f : Q
}.

Definition Affine_translation (xoff yoff : Q) : Affine :=
  {| aff_a := 1; aff_b := 0; aff_c := xoff;
     aff_d := 0; aff_e := 1; aff_f := yoff |}.

Definition Affine_scale (sx sy : Q) : Affine :=
  {| aff_a := sx; aff_b := 0; aff_c := 0;
     aff_d := 0; aff_e := sy; aff_f := 0 |}.

(** [m * n] on affine matrices. *)
Definition Affine_mul (m n : Affine) : Affine :=
  {| aff_a := aff_a m * aff_a n + aff_b m * aff_d n;
     aff_b := aff_a m * aff_b n + aff_b m * aff_e n;
     aff_c := aff_a m * aff_c n + aff_b m * aff_f n + aff_c m;
     aff_d := aff_d m * aff_a n + aff_e m * aff_d n;
     aff_e := aff_d m * aff_b n + aff_e m * aff_e n;
     aff_f := aff_d m * aff_c n + aff_e m * aff_f n + aff_f m |}%Q.

(** An open dataset: the attributes the package reads.  [name] is the
    path (or in-memory file) the pixels come from. *)
Record Dataset : Type := {
  name : string;
  crs : CRS;
  bounds : BoundingBox;
  res : Q * Q;
  transform : Affine;
  width : Z;
  height : Z;
  count : Z;
  dtypes : list dtype;
  nodata : option num
}.

(** [rasterio.transform.from_bounds(west, south, east, north, width, height)]:
    [Affine.translation(west, north) * Affine.scale((east - west) / width,
    (south - north) / height)]. *)
Definition from_bounds (west south east north : Q) (width height : Z)
  : result Affine :=
  sx <- Py.truediv (east - west) (inject_Z width) ;;
  sy <- Py.truediv (south - north) (inject_Z height) ;;
  Ok (Affine_mul (Affine_translation west north) (Affine_scale sx sy)).

(* ------------------------------------------------------------------ *)
(** ** merge_rasters.py: the extent planner                            *)
(* ------------------------------------------------------------------ *)

Record MergeMetadata : Type := {
  md_transform : Affine;
  md_crs : CRS;
  md_dtype : dtype;
  md_res : Q;
  md_width : Z;
  md_height : Z;
  md_bounds : Q * Q * Q * Q
}.

Definition compute_merge_metadata (src_datasets : list Dataset) (scale_factor : Q)
  : result MergeMetadata :=
  let bounds_ := map bounds src_datasets in
  minx <- Py.min (map left bounds_) ;;
  miny <- Py.min (map bottom bounds_) ;;
  maxx <- Py.max (map right bounds_) ;;
  maxy <- Py.max (map top bounds_) ;;
  ref <- Py.getitem src_datasets 0 ;;
  target_res <- Py.truediv (fst (res ref)) scale_factor ;;
  let target_crs := crs ref in
  dtype_ <- Py.getitem (dtypes ref) 0 ;;
  wq <- Py.truediv (maxx - minx) target_res ;;
  let width_ := Qceiling wq in
  hq <- Py.truediv (maxy - miny) target_res ;;
  let height_ := Qceiling hq in
  transform_ <- from_bounds minx miny maxx maxy width_ height_ ;;
  Ok {| md_transform := transform_;
        md_crs := target_crs;
        md_dtype := dtype_;
        md_res := target_res;
        md_width := width_;
        md_height := height_;
        md_bounds := (minx, miny, maxx, maxy) |}.

(* ------------------------------------------------------------------ *)
(** ** Vocabulary of the planner's properties                          *)
(* ------------------------------------------------------------------ *)

(** Invariants of an open raster: a non-empty extent, a positive pixel
    size and at least one band. *)
Definition dataset_ok (d : Dataset) : Prop :=
  (left (bounds d) < right (bounds d))%Q /\
  (bottom (bounds d) < top (bounds d))%Q /\
  (0 < fst (res d))%Q /\
  dtypes d <> [].

(** [m] is the least element of [l]. *)
Definition least_of (m : Q) (l : list Q) : Prop :=
  In m l /\ forall x, In x l -> (m <= x)%Q.

(** [m] is the greatest element of [l]. *)
Definition greatest_of (m : Q) (l : list Q) : Prop :=
  In m l /\ forall x, In x l -> (x <= m)%Q.


(* ------------------------------------------------------------------ *)
(** ** Arrays, windows and the services of the runtime                 *)
(* ------------------------------------------------------------------ *)

Definition array2 := list (list num).
Definition array3 := list array2.

(** [rasterio.windows.Window(col_off, row_off, width, height)]. *)
Record Window : Type := {
  col_off : Q;
  row_off : Q;
  win_width : Q;
  win_height : Q
}.

Inductive Resampling : Type :=
| nearest
| bilinear
| cubic.

(** The keyword arguments of one call of [rasterio.warp.reproject]. *)
Record ReprojectArgs : Type := {
  source : Dataset * Z;
  src_transform : Affine;
  src_crs : CRS;
  dst_transform : Affine;
  dst_crs : CRS;
  resampling : Resampling;
  src_nodata : option num;
  dst_nodata : option num
}.

Class Runtime : Type := {
  (** pixel [(row, col)] of a band of a dataset, as [read] returns it *)
  band_px : Dataset -> Z -> nat -> nat -> num;
  (** [dataset.window(left, bottom, right, top)] *)
  window : Dataset -> Q -> Q -> Q -> Q -> result Window;
  (** the array shape [(rows, cols)] a window read returns *)
  window_shape : Window -> nat * nat;
  (** pixel of a boundless window read of a band with a fill value *)
  read_px : Dataset -> Z -> Window -> option num -> nat -> nat -> num;
  (** whether a reprojection fails, and with what *)
  warp_error : ReprojectArgs -> option exn;
  (** destination pixel [(row, col)] a reprojection writes *)
  warp_px : ReprojectArgs -> nat -> nat -> num;
  (** NumPy's conversion of a fill scalar to an array dtype *)
  cast_scalar : dtype -> num -> num;
  (** what a cast of NaN or an infinity to an integer dtype yields *)
  cast_nonfinite : num -> Z
}.

Fixpoint mapi_from {A B : Type} (f : nat -> A -> B) (k : nat) (l : list A) : list B :=
  match l with
  | [] => []
  | x :: xs => f k x :: mapi_from f (S k) xs
  end.

Definition mapi {A B : Type} (f : nat -> A -> B) (l : list A) : list B :=
  mapi_from f 0 l.

Fixpoint map2 {A B C : Type} (f : A -> B -> C) (l : list A) (m : list B) : list C :=
  match l, m with
  | x :: xs, y :: ys => f x y :: map2 f xs ys
  | _, _ => []
  end.

Fixpoint map3 {A B C D : Type} (f : A -> B -> C -> D)
  (l : list A) (m : list B) (n : list C) : list D :=
  match l, m, n with
  | x :: xs, y :: ys, z :: zs => f x y z :: map3 f xs ys zs
  | _, _, _ => []
  end.

(** Element [(i, j)] of a 2-D array, when in range. *)
Definition at2 {A : Type} (a : list (list A)) (i j : nat) : option A :=
  match nth_error a i with
  | Some row => nth_error row j
  | None => None
  end.

(** Element [(b, i, j)] of a 3-D array, when in range. *)
Definition at3 {A : Type} (a : list (list (list A))) (b i j : nat) : option A :=
  match nth_error a b with
  | Some band => at2 band i j
  | None => None
  end.

(** [[f i j for j in range(w)] for i in range(h)]. *)
Definition tabulate {A : Type} (h w : nat) (f : nat -> nat -> A) : list (list A) :=
  map (fun i => map (fun j => f i j) (seq 0 w)) (seq 0 h).

(** [int(x)] on a float: truncation toward zero. *)
Definition py_int (x : Q) : Z := Z.quot (Qnum x) (Zpos (Qden x)).

Module Np.

Definition isnan (x : num) : bool :=
  match x with NaN => true | _ => false end.

(** [x != y] on scalars. *)
Definition ne (x y : num) : bool :=
  match x, y with
  | Fin a, Fin b => negb (Qeq_bool a b)
  | PInf, PInf => false
  | NInf, NInf => false
  | _, _ => true
  end.

(** [x != s] where [s] may be [None]: nothing equals [None]. *)
Definition ne_scalar (x : num) (s : option num) : bool :=
  match s with
  | Some v => ne x v
  | None => true
  end.

(** [x <= y]; false when either side is NaN. *)
Definition le (x y : num) : bool :=
  match x, y with
  | NaN, _ => false
  | _, NaN => false
  | NInf, _ => true
  | _, PInf => true
  | Fin a, Fin b => Qle_bool a b
  | _, _ => false
  end.

(** [x - y]. *)
Definition sub (x y : num) : num :=
  match x, y with
  | NaN, _ => NaN
  | _, NaN => NaN
  | Fin a, Fin b => Fin (a - b)
  | PInf, PInf => NaN
  | NInf, NInf => NaN
  | PInf, _ => PInf
  | NInf, _ => NInf
  | Fin _, PInf => NInf
  | Fin _, NInf => PInf
  end.

(** [x / y] on arrays: a zero divisor gives NaN or an infinity (with
    a warning), never an exception. *)
Definition div (x y : num) : num :=
  match x, y with
  | NaN, _ => NaN
  | _, NaN => NaN
  | Fin a, Fin b =>
      if Qeq_bool b 0
      then (if Qeq_bool a 0 then NaN
            else if Qle_bool 0 a then PInf else NInf)
      else Fin (a / b)
  | Fin _, _ => Fin 0
  | PInf, Fin b => if Qle_bool 0 b then PInf else NInf
  | NInf, Fin b => if Qle_bool 0 b then NInf else PInf
  | _, _ => NaN
  end.

(** [x * y]. *)
Definition mul (x y : num) : num :=
  match x, y with
  | NaN, _ => NaN
  | _, NaN => NaN
  | Fin a, Fin b => Fin (a * b)
  | PInf, Fin b | Fin b, PInf =>
      if Qeq_bool b 0 then NaN else if Qle_bool 0 b then PInf else NInf
  | NInf, Fin b | Fin b, NInf =>
      if Qeq_bool b 0 then NaN else if Qle_bool 0 b then NInf else PInf
  | PInf, PInf => PInf
  | NInf, NInf => PInf
  | PInf, NInf => NInf
  | NInf, PInf => NInf
  end.

(** [np.full((h, w), fill_value, dtype)]. *)
Definition full2 `{Runtime} (h w : Z) (fill_value : num) (dt : dtype)
  : result array2 :=
  if (h <? 0) || (w <? 0)
  then Raise (ValueError "negative dimensions are not allowed")
  else Ok (repeat (repeat (cast_scalar dt fill_value) (Z.to_nat w)) (Z.to_nat h)).

(** [np.full((n, h, w), fill_value, dtype)]. *)
Definition full3 `{Runtime} (n h w : Z) (fill_value : num) (dt : dtype)
  : result array3 :=
  if (n <? 0) || (h <? 0) || (w <? 0)
  then Raise (ValueError "negative dimensions are not allowed")
  else Ok (repeat (repeat (repeat (cast_scalar dt fill_value) (Z.to_nat w))
                          (Z.to_nat h)) (Z.to_nat n)).

(** [a != s], elementwise. *)
Definition not_equal (a : array2) (s : option num) : list (list bool) :=
  map (map (fun x => ne_scalar x s)) a.

(** [np.where(mask, a, v)] with a scalar [v]. *)
Definition where_ {A : Type} (mask : list (list bool)) (a : list (list A)) (v : A)
  : list (list A) :=
  map2 (map2 (fun (m : bool) x => if m then x else v)) mask a.

(** [dest[mask] = values[mask]] for arrays of one shape. *)
Definition assign_mask (dest : array2) (mask : list (list bool)) (values : array2)
  : array2 :=
  map3 (map3 (fun d (m : bool) v => if m then v else d)) dest mask values.

(** [np.fmin] and [np.fmax]: the other operand when one is NaN. *)
Definition fmin (x y : num) : num :=
  if isnan x then y else if isnan y then x else if le x y then x else y.

Definition fmax (x y : num) : num :=
  if isnan x then y else if isnan y then x else if le y x then x else y.

(** [np.nanmin(a)]: NaN when every element is NaN; an empty array has
    no minimum. *)
Definition nanmin (a : array2) : result num :=
  match concat a with
  | [] => Raise (ValueError "zero-size array to reduction operation fmin which has no identity")
  | x :: xs => Ok (fold_left fmin xs x)
  end.

Definition nanmax (a : array2) : result num :=
  match concat a with
  | [] => Raise (ValueError "zero-size array to reduction operation fmax which has no identity")
  | x :: xs => Ok (fold_left fmax xs x)
  end.

(** The largest finite [float32]. *)
Definition float32_max : Q := inject_Z ((2 ^ 24 - 1) * 2 ^ 104).

(** [np.nan_to_num(x, nan=v)]. *)
Definition nan_to_num (x : num) (v : num) : num :=
  match x with
  | NaN => v
  | PInf => Fin float32_max
  | NInf => Fin (- float32_max)
  | Fin q => Fin q
  end.

(** [x.astype(np.float32)]: the value itself (no rounding modelled). *)
Definition astype_float32 (x : num) : num := x.

(** [x.astype(np.uint16)]: the fraction is dropped, the integer
    wraps. *)
Definition astype_uint16 `{Runtime} (x : num) : Z :=
  match x with
  | Fin q => (py_int q) mod 65536
  | _ => cast_nonfinite x
  end.

(** [x.astype(np.uint8)]. *)
Definition astype_uint8 `{Runtime} (x : num) : Z :=
  match x with
  | Fin q => (py_int q) mod 256
  | _ => cast_nonfinite x
  end.

(** [np.moveaxis(a, 0, -1)]: [(band, row, col)] to [(row, col, band)]. *)
Fixpoint moveaxis_0_last {A : Type} (a : list (list (list A)))
  : list (list (list A)) :=
  match a with
  | [] => []
  | [b] => map (map (fun v => [v])) b
  | b :: rest => map2 (map2 cons) b (moveaxis_0_last rest)
  end.

(** [a[start:stop]] on the first axis. *)
Definition slice {A : Type} (a : list A) (start stop : Z) : list A :=
  let n := Z.of_nat (length a) in
  let clip k := if k <? 0 then Z.max 0 (k + n) else Z.min k n in
  let s := clip start in
  let e := clip stop in
  firstn (Z.to_nat (e - s)) (skipn (Z.to_nat s) a).

End Np.

(** [rasterio.warp.reproject] into an array: every element of the
    destination is overwritten in place (a pixel the source does not
    cover receives the destination nodata). *)
Definition reproject `{Runtime} (args : ReprojectArgs) (destination : array2)
  : result array2 :=
  match warp_error args with
  | Some e => Raise e
  | None => Ok (mapi (fun i row => mapi (fun j _ => warp_px args i j) row) destination)
  end.

(** [rasterio.warp.reproject] into a band of a dataset open for
    writing. *)
Definition reproject_to_band `{Runtime} (args : ReprojectArgs) : result unit :=
  match warp_error args with
  | Some e => Raise e
  | None => Ok tt
  end.

(* ------------------------------------------------------------------ *)
(** ** The world of files and handles                                  *)
(* ------------------------------------------------------------------ *)

(** An open dataset object. *)
Record Handle : Type := {
  hid : nat;
  ds : Dataset
}.

(** The creation options of an output raster. *)
Record Profile : Type := {
  pf_driver : string;
  pf_height : Z;
  pf_width : Z;
  pf_count : Z;
  pf_crs : CRS;
  pf_transform : Affine;
  pf_dtype : dtype;
  pf_nodata : option num;
  pf_compress : string
}.

(** An image handed to the PNG encoder. *)
Inductive Image : Type :=
| ImageI16 (pixels : list (list Z))
| ImageRGB (pixels : list (list (list Z))).

Inductive event : Type :=
| Makedirs (path : string)
| Open (h : nat) (path : string)
| Create (h : nat) (path : string) (profile : Profile)
| Close (h : nat)
| Read (h : nat) (indexes : list Z) (w : option Window)
| WriteBlock (h : nat) (w : Window) (data : array3)
| SavePng (path : string) (img : Image).

Record World : Type := {
  fs : string -> option Dataset;
  next_handle : nat;
  trace : list event
}.

Definition IO (A : Type) : Type := World -> result A * World.

Definition ret {A : Type} (a : A) : IO A := fun w => (Ok a, w).

Definition lift {A : Type} (r : result A) : IO A := fun w => (r, w).

Definition iobind {A B : Type} (m : IO A) (k : A -> IO B) : IO B :=
  fun w =>
    match m w with
    | (Ok a, w') => k a w'
    | (Raise e, w') => (Raise e, w')
    end.

Notation "x <~ m ;; k" := (iobind m (fun x => k))
  (at level 61, m at next level, right associativity) : py_scope.

Definition log (e : event) : IO unit :=
  fun w => (Ok tt, {| fs := fs w; next_handle := next_handle w;
                      trace := trace w ++ [e] |}).

Definition fresh_handle : IO nat :=
  fun w => (Ok (next_handle w),
            {| fs := fs w; next_handle := S (next_handle w); trace := trace w |}).

(** [rasterio.open(path)]. *)
Definition rasterio_open (path : string) : IO Handle :=
  fun w =>
    match fs w path with
    | None => (Raise (RasterioIOError path), w)
    | Some d => (h <~ fresh_handle ;;
                 _ <~ log (Open h path) ;;
                 ret {| hid := h; ds := d |}) w
    end.

(** [rasterio.open(path, "w", **profile)]. *)
Definition rasterio_create (path : string) (profile : Profile) : IO nat :=
  h <~ fresh_handle ;;
  _ <~ log (Create h path profile) ;;
  ret h.

(** [dataset.close()]. *)
Definition close (h : nat) : IO unit := log (Close h).

(** The body of [with ... as x:] for an open handle: the handle is
    closed when the body returns and when it raises. *)
Definition with_ {A : Type} (h : nat) (body : IO A) : IO A :=
  fun w =>
    let (r, w') := body w in
    let (_, w'') := close h w' in
    (r, w'').

(** [for x in l: body(x)]. *)
Fixpoint for_ {A : Type} (l : list A) (body : A -> IO unit) : IO unit :=
  match l with
  | [] => ret tt
  | x :: xs => _ <~ body x ;; for_ xs body
  end.

(** [[f(x) for x in l]]. *)
Fixpoint comprehension {A B : Type} (f : A -> IO B) (l : list A) : IO (list B) :=
  match l with
  | [] => ret []
  | x :: xs => y <~ f x ;; ys <~ comprehension f xs ;; ret (y :: ys)
  end.

(** A loop that updates local variables [s] and may raise. *)
Fixpoint fold_for {A S : Type} (l : list A) (body : S -> A -> result S) (s : S)
  : result S :=
  match l with
  | [] => Ok s
  | x :: xs => s' <- body s x ;; fold_for xs body s'
  end.

(** The handles opened and not closed in a trace, in opening order. *)
Fixpoint open_handles_from (tr : list event) (acc : list nat) : list nat :=
  match tr with
  | [] => acc
  | Open h _ :: tr' => open_handles_from tr' (acc ++ [h])
  | Create h _ _ :: tr' => open_handles_from tr' (acc ++ [h])
  | Close h :: tr' => open_handles_from tr' (filter (fun k => negb (Nat.eqb k h)) acc)
  | _ :: tr' => open_handles_from tr' acc
  end.

Definition open_handles (w : World) : list nat := open_handles_from (trace w) [].

(* ------------------------------------------------------------------ *)
(** ** merge_rasters.py: reprojection to a common CRS                  *)
(* ------------------------------------------------------------------ *)

(** The dataset that [memfile.open()] presents after the bands of
    [src] were reprojected into it: the grid of [src] with the target
    CRS, no nodata value declared. *)
Definition memfile_dataset (src : Dataset) (target_crs : CRS) (dt : dtype) : Dataset :=
  {| name := "/vsimem/" ++ name src;
     crs := target_crs;
     bounds := bounds src;
     res := res src;
     transform := transform src;
     width := width src;
     height := height src;
     count := count src;
     dtypes := repeat dt (Z.to_nat (count src));
     nodata := None |}.

Definition memfile_profile (src : Dataset) (target_crs : CRS) (dt : dtype) : Profile :=
  {| pf_driver := "GTiff";
     pf_height := height src;
     pf_width := width src;
     pf_count := count src;
     pf_crs := target_crs;
     pf_transform := transform src;
     pf_dtype := dt;
     pf_nodata := None;
     pf_compress := "" |}.

Definition reproject_rasters_to_crs `{Runtime}
  (src_datasets : list Handle) (target_crs : CRS) : IO (list Handle) :=
  (fix loop (srcs : list Handle) (reprojected : list Handle) : IO (list Handle) :=
     match srcs with
     | [] => ret reprojected
     | src :: srcs' =>
         if negb (String.eqb (crs (ds src)) target_crs) then
           dt <~ lift (Py.getitem (dtypes (ds src)) 0) ;;
           let memfile := ("/vsimem/" ++ name (ds src))%string in
           tmp <~ rasterio_create memfile (memfile_profile (ds src) target_crs dt) ;;
           _ <~ with_ tmp
                  (bands <~ lift (Py.range 1 (count (ds src) + 1) 1) ;;
                   for_ bands (fun band =>
                     lift (reproject_to_band
                             {| source := (ds src, band);
                                src_transform := transform (ds src);
                                src_crs := crs (ds src);
                                dst_transform := transform (ds src);
                                dst_crs := target_crs;
                                resampling := bilinear;
                                src_nodata := None;
                                dst_nodata := None |}))) ;;
           h <~ fresh_handle ;;
           _ <~ log (Open h memfile) ;;
           loop srcs' (reprojected ++ [{| hid := h;
                                          ds := memfile_dataset (ds src) target_crs dt |}])
         else
           loop srcs' (reprojected ++ [src])
     end) src_datasets [].

(* ------------------------------------------------------------------ *)
(** ** merge_rasters.py: the blockwise compositor                      *)
(* ------------------------------------------------------------------ *)

(** [Window(x_off, y_off, w, h)] on ints. *)
Definition Window_of_ints (x_off y_off w h : Z) : Window :=
  {| col_off := inject_Z x_off; row_off := inject_Z y_off;
     win_width := inject_Z w; win_height := inject_Z h |}.

(** The composite nodata value of [write_raster_blocks]. *)
Definition composite_nodata (first : Dataset) (num_bands : Z) : num :=
  match nodata first with
  | Some v => v
  | None => if num_bands =? 1 then Fin (-9999) else Fin 0
  end.

(** The arguments of the [reproject] call for one source, band and
    block of [write_raster_blocks]. *)
Definition block_reproject_args (src : Dataset) (band : Z) (metadata : MergeMetadata)
  (x_off y_off : Z) (resampling_ : Resampling) (nodata_value : num) : ReprojectArgs :=
  {| source := (src, band);
     src_transform := transform src;
     src_crs := crs src;
     dst_transform := Affine_mul (md_transform metadata)
                        (Affine_translation (inject_Z x_off) (inject_Z y_off));
     dst_crs := md_crs metadata;
     resampling := resampling_;
     src_nodata := nodata src;
     dst_nodata := Some nodata_value |}.

(** [block_data[i] = band_data] for [0 <= i]. *)
Fixpoint set_band (block_data : array3) (i : nat) (band_data : array2) : result array3 :=
  match block_data, i with
  | [] , _ => Raise (IndexError "index is out of bounds for axis 0")
  | _ :: bs, O => Ok (band_data :: bs)
  | b :: bs, S i' => bs' <- set_band bs i' band_data ;; Ok (b :: bs')
  end.

(** Lines 103 to 120 of [write_raster_blocks]: the buffer of one block,
    filled with nodata and overwritten by each source in turn wherever
    the reprojected source is not nodata. *)
Definition composite_block `{Runtime} (src_datasets : list Handle)
  (metadata : MergeMetadata) (num_bands : Z) (resampling_ : Resampling)
  (nodata_value : num) (x_off y_off w h : Z) : result array3 :=
  block_data <- Np.full3 num_bands h w nodata_value (md_dtype metadata) ;;
  bands <- Py.range 1 (num_bands + 1) 1 ;;
  fold_for src_datasets (fun block_data src =>
    fold_for bands (fun block_data band =>
      temp <- Np.full2 h w nodata_value (md_dtype metadata) ;;
      temp <- reproject (block_reproject_args (ds src) band metadata x_off y_off
                           resampling_ nodata_value) temp ;;
      let mask := Np.not_equal temp (Some nodata_value) in
      old <- Py.getitem block_data (Z.to_nat (band - 1)) ;;
      set_band block_data (Z.to_nat (band - 1)) (Np.assign_mask old mask temp))
    block_data)
  block_data.

(** [write_raster_blocks]: the output raster is the sequence of
    [WriteBlock] events on its handle. *)
Definition write_raster_blocks `{Runtime} (src_datasets : list Handle)
  (output_path : string) (metadata : MergeMetadata) (num_bands : Z)
  (block_size : Z) (resampling_ : Resampling) : IO string :=
  first <~ lift (Py.getitem src_datasets 0) ;;
  let nodata_value := composite_nodata (ds first) num_bands in
  let output_meta :=
    {| pf_driver := "GTiff";
       pf_height := md_height metadata;
       pf_width := md_width metadata;
       pf_count := num_bands;
       pf_crs := md_crs metadata;
       pf_transform := md_transform metadata;
       pf_dtype := md_dtype metadata;
       pf_nodata := Some nodata_value;
       pf_compress := "lzw" |} in
  rows <~ lift (Py.floordiv (md_height metadata + block_size - 1) block_size) ;;
  cols <~ lift (Py.floordiv (md_width metadata + block_size - 1) block_size) ;;
  let total_blocks := rows * cols in
  dst <~ rasterio_create output_path output_meta ;;
  _ <~ with_ dst
    (y_offs <~ lift (Py.range 0 (md_height metadata) block_size) ;;
     for_ y_offs (fun y_off =>
       x_offs <~ lift (Py.range 0 (md_width metadata) block_size) ;;
       for_ x_offs (fun x_off =>
         let h := Z.min block_size (md_height metadata - y_off) in
         let w := Z.min block_size (md_width metadata - x_off) in
         let window_ := Window_of_ints x_off y_off w h in
         block_data <~ lift (composite_block src_datasets metadata num_bands
                               resampling_ nodata_value x_off y_off w h) ;;
         log (WriteBlock dst window_ block_data)))) ;;
  ret output_path.

(* ------------------------------------------------------------------ *)
(** ** merge_rasters.py: the merge entry point                         *)
(* ------------------------------------------------------------------ *)

Definition merge_rasters `{Runtime} (file_list : list string) (output_path : string)
  (num_bands : Z) (scale_factor : Q) (block_size : Z) (resampling_ : Resampling)
  : IO string :=
  src_paths <~ comprehension rasterio_open file_list ;;
  first <~ lift (Py.getitem src_paths 0) ;;
  src_datasets <~ reproject_rasters_to_crs src_paths (crs (ds first)) ;;
  metadata <~ lift (compute_merge_metadata (map ds src_datasets) scale_factor) ;;
  result_ <~ write_raster_blocks src_datasets output_path metadata num_bands
               block_size resampling_ ;;
  _ <~ for_ src_datasets (fun s => close (hid s)) ;;
  ret result_.

(* ------------------------------------------------------------------ *)
(** ** export_chunks.py: strings and paths                             *)
(* ------------------------------------------------------------------ *)

Fixpoint zeros (n : nat) : string :=
  match n with
  | O => EmptyString
  | S n' => String "0" (zeros n')
  end.

(** [str(n)] for [n >= 0]. *)
Definition digits (n : nat) : string :=
  DecimalString.NilEmpty.string_of_uint (Nat.to_uint n).

(** [s.rjust(width, "0")]. *)
Definition zfill (s : string) (width_ : nat) : string :=
  (zeros (width_ - String.length s) ++ s)%string.

(** [f"{z:03d}"]: the sign counts in the width. *)
Definition format_03d (z : Z) : string :=
  if z <? 0
  then String "-" (zfill (digits (Z.to_nat (- z))) 2)
  else zfill (digits (Z.to_nat z)) 3.

Fixpoint ends_with_slash (s : string) : bool :=
  match s with
  | EmptyString => false
  | String c EmptyString => Ascii.eqb c "/"
  | String _ s' => ends_with_slash s'
  end.

(** [os.path.join(a, b)] on POSIX. *)
Definition os_path_join (a b : string) : string :=
  match b with
  | String "/" _ => b
  | _ =>
      match a with
      | EmptyString => b
      | _ => if ends_with_slash a then (a ++ b)%string else (a ++ "/" ++ b)%string
      end
  end.

(* ------------------------------------------------------------------ *)
(** ** export_chunks.py: raster reads                                  *)
(* ------------------------------------------------------------------ *)

(** [src.read(band)]: the whole band. *)
Definition read_band `{Runtime} (src : Handle) (band : Z) : IO array2 :=
  if (1 <=? band) && (band <=? count (ds src)) then
    _ <~ log (Read (hid src) [band] None) ;;
    ret (tabulate (Z.to_nat (height (ds src))) (Z.to_nat (width (ds src)))
           (band_px (ds src) band))
  else lift (Raise (IndexError "band index out of range")).

(** [src.read(indexes, window=w, boundless=True, fill_value=v)]. *)
Definition read_window `{Runtime} (src : Handle) (indexes : list Z) (w : Window)
  (fill_value : option num) : IO array3 :=
  if forallb (fun band => (1 <=? band) && (band <=? count (ds src))) indexes then
    _ <~ log (Read (hid src) indexes (Some w)) ;;
    ret (map (fun band => tabulate (fst (window_shape w)) (snd (window_shape w))
                            (read_px (ds src) band w fill_value))
             indexes)
  else lift (Raise (IndexError "band index out of range")).

(* ------------------------------------------------------------------ *)
(** ** export_chunks.py: the global rescaler                           *)
(* ------------------------------------------------------------------ *)

(** The value a pixel of the masked array is rescaled to. *)
Definition rescale_px `{Runtime} (global_min global_max : num) (x : num) : Z :=
  Np.astype_uint16
    (Np.mul (Np.div (Np.sub (Np.nan_to_num x global_min) global_min)
                    (Np.sub global_max global_min))
            (Fin 65535)).

Definition rescale_dsm_global `{Runtime} (dsm_path : string)
  : IO (list (list Z) * option num) :=
  src <~ rasterio_open dsm_path ;;
  r <~ with_ (hid src)
         (data <~ read_band src 1 ;;
          let dsm_data := map (map Np.astype_float32) data in
          let nodata_value := nodata (ds src) in
          ret (dsm_data, nodata_value)) ;;
  let dsm_data := fst r in
  let nodata_value := snd r in
  let valid_mask := Np.not_equal dsm_data nodata_value in
  let valid_data := Np.where_ valid_mask dsm_data NaN in
  global_min <~ lift (Np.nanmin valid_data) ;;
  global_max <~ lift (Np.nanmax valid_data) ;;
  let scaled_dsm := map (map (rescale_px global_min global_max)) valid_data in
  ret (scaled_dsm, nodata_value).

(* ------------------------------------------------------------------ *)
(** ** export_chunks.py: the tile encoder                              *)
(* ------------------------------------------------------------------ *)

Definition save_dsm_chunk_png (dsm_chunk : list (list Z)) (nodata_value : option num)
  (output_path : string) : IO unit :=
  let mask := map (map (fun z => Np.ne_scalar (Fin (inject_Z z)) nodata_value)) dsm_chunk in
  let data_to_save := Np.where_ mask dsm_chunk 0 in
  let img := ImageI16 (map (map (fun z => z mod 65536)) data_to_save) in
  log (SavePng output_path img).

Definition save_rgb_chunk_png `{Runtime} (rgb_chunk : array3) (nodata_value : option num)
  (output_path : string) : IO unit :=
  let img_array := map (map (map Np.astype_uint8)) (Np.moveaxis_0_last rgb_chunk) in
  let img := ImageRGB img_array in
  log (SavePng output_path img).

(* ------------------------------------------------------------------ *)
(** ** export_chunks.py: the chunk splitter                            *)
(* ------------------------------------------------------------------ *)

(** [max(a, b)] and [min(a, b)] on floats. *)
Definition max2 (a b : Q) : Q := if Qle_bool b a then a else b.
Definition min2 (a b : Q) : Q := if Qle_bool a b then a else b.

(** The common bounding box of two rasters, as
    [(left, bottom, right, top)]. *)
Definition common_bbox (dsm satellite : Dataset) : Q * Q * Q * Q :=
  let left_ := max2 (left (bounds dsm)) (left (bounds satellite)) in
  let right_ := min2 (right (bounds dsm)) (right (bounds satellite)) in
  let bottom_ := max2 (bottom (bounds dsm)) (bottom (bounds satellite)) in
  let top_ := min2 (top (bounds dsm)) (top (bounds satellite)) in
  (left_, bottom_, right_, top_).

(** The geographic cell of [(row, col)], as
    [(chunk_left, chunk_bottom, chunk_right, chunk_top)]. *)
Definition chunk_bounds (left_ bottom_ chunk_width chunk_height : Q) (row col : Z)
  : Q * Q * Q * Q :=
  let chunk_left := (left_ + inject_Z col * chunk_width)%Q in
  let chunk_right := (chunk_left + chunk_width)%Q in
  let chunk_bottom := (bottom_ + inject_Z row * chunk_height)%Q in
  let chunk_top := (chunk_bottom + chunk_height)%Q in
  (chunk_left, chunk_bottom, chunk_right, chunk_top).

(** [scaled_dsm[int(row_off): int(row_off + height),
               int(col_off): int(col_off + width)]]. *)
Definition crop (scaled_dsm : list (list Z)) (w : Window) : list (list Z) :=
  map (fun r => Np.slice r (py_int (col_off w)) (py_int (col_off w + win_width w)))
      (Np.slice scaled_dsm (py_int (row_off w)) (py_int (row_off w + win_height w))).

Definition dsm_chunk_name (row col : Z) : string :=
  ("dsm_r" ++ format_03d row ++ "_c" ++ format_03d col ++ ".png")%string.

Definition satellite_chunk_name (row col : Z) : string :=
  ("satellite_r" ++ format_03d row ++ "_c" ++ format_03d col ++ ".png")%string.

(** The body of the two loops of [generate_chunks] for one cell. *)
Definition export_chunk `{Runtime} (dsm satellite : Handle)
  (scaled_dsm : list (list Z)) (dsm_nodata : option num) (output_folder : string)
  (left_ bottom_ chunk_width chunk_height : Q) (row col : Z) : IO unit :=
  let '(chunk_left, chunk_bottom, chunk_right, chunk_top) :=
    chunk_bounds left_ bottom_ chunk_width chunk_height row col in
  dsm_window <~ lift (window (ds dsm) chunk_left chunk_bottom chunk_right chunk_top) ;;
  satellite_window <~ lift (window (ds satellite) chunk_left chunk_bottom
                              chunk_right chunk_top) ;;
  let dsm_chunk := crop scaled_dsm dsm_window in
  satellite_chunk <~ read_window satellite [1; 2; 3] satellite_window
                       (nodata (ds satellite)) ;;
  let dsm_chunk_path := os_path_join output_folder (dsm_chunk_name row col) in
  let satellite_chunk_path := os_path_join output_folder (satellite_chunk_name row col) in
  _ <~ save_dsm_chunk_png dsm_chunk dsm_nodata dsm_chunk_path ;;
  save_rgb_chunk_png satellite_chunk (nodata (ds satellite)) satellite_chunk_path.

Definition generate_chunks `{Runtime} (dsm_path satellite_path output_folder : string)
  (n_rows n_cols : Z) : IO string :=
  _ <~ log (Makedirs output_folder) ;;
  r <~ rescale_dsm_global dsm_path ;;
  let scaled_dsm := fst r in
  let dsm_nodata := snd r in
  dsm <~ rasterio_open dsm_path ;;
  _ <~ with_ (hid dsm)
    (satellite <~ rasterio_open satellite_path ;;
     with_ (hid satellite)
       (if negb (String.eqb (crs (ds dsm)) (crs (ds satellite)))
        then lift (Raise (ValueError "CRS mismatch between DSM and Satellite rasters"))
        else
          let '(left_, bottom_, right_, top_) := common_bbox (ds dsm) (ds satellite) in
          chunk_width <~ lift (Py.truediv (right_ - left_) (inject_Z n_cols)) ;;
          chunk_height <~ lift (Py.truediv (top_ - bottom_) (inject_Z n_rows)) ;;
          rows <~ lift (Py.range 0 n_rows 1) ;;
          for_ rows (fun row =>
            cols <~ lift (Py.range 0 n_cols 1) ;;
            for_ cols (fun col =>
              export_chunk dsm satellite scaled_dsm dsm_nodata output_folder
                left_ bottom_ chunk_width chunk_height row col)))) ;;
  ret output_folder.

(* ------------------------------------------------------------------ *)
(** ** Vocabulary of the compositor's properties                       *)
(* ------------------------------------------------------------------ *)

(** The last value of [vals] that is not nodata. *)
Definition last_valid (nodata_value : num) (vals : list num) : option num :=
  find (fun v => Np.ne v nodata_value) (rev vals).

(** The value the sources' reprojections give block pixel [(i, j)] of
    [band], in input order. *)
Definition reprojected_values `{Runtime} (src_datasets : list Handle)
  (metadata : MergeMetadata) (resampling_ : Resampling) (nodata_value : num)
  (band x_off y_off : Z) (i j : nat) : list num :=
  map (fun src => warp_px (block_reproject_args (ds src) band metadata x_off y_off
                             resampling_ nodata_value) i j)
      src_datasets.

(** The composited value: that of the last source that is not nodata
    there, the nodata fill when there is none. *)
Definition composited `{Runtime} (src_datasets : list Handle)
  (metadata : MergeMetadata) (resampling_ : Resampling) (nodata_value : num)
  (band x_off y_off : Z) (i j : nat) : num :=
  match last_valid nodata_value
          (reprojected_values src_datasets metadata resampling_ nodata_value
             band x_off y_off i j) with
  | Some v => v
  | None => cast_scalar (md_dtype metadata) nodata_value
  end.

(** A 3-D array given by its elements. *)
Definition tabulate3 {A : Type} (n h w : nat) (f : nat -> nat -> nat -> A)
  : list (list (list A)) :=
  map (fun b => tabulate h w (f b)) (seq 0 n).

(** One source's overwrite of one band of a block, on the elements. *)
Definition overwrite_band `{Runtime} (metadata : MergeMetadata)
  (resampling_ : Resampling) (nodata_value : num) (x_off y_off : Z)
  (src : Handle) (f : nat -> nat -> nat -> num) (band : Z)
  : nat -> nat -> nat -> num :=
  fun b i j =>
    if Nat.eqb b (Z.to_nat (band - 1)) then
      let t := warp_px (block_reproject_args (ds src) band metadata x_off y_off
                          resampling_ nodata_value) i j in
      if Np.ne t nodata_value then t else f b i j
    else f b i j.

(** The bands [range(1, num_bands + 1)]. *)
Definition band_range (n : nat) : list Z :=
  map (fun k => 1 + Z.of_nat k * 1) (seq 0 n).

(** The world after more I/O events. *)
Definition add_events (w : World) (evs : list event) : World :=
  {| fs := fs w; next_handle := next_handle w; trace := trace w ++ evs |}.

(** The world after a handle was taken. *)
Definition take_handle (w : World) : World :=
  {| fs := fs w; next_handle := S (next_handle w); trace := trace w |}.

(** The buffer [write_raster_blocks] writes for the block at
    [(x_off, y_off)]. *)
Definition block_buffer `{Runtime} (src_datasets : list Handle)
  (metadata : MergeMetadata) (num_bands : Z) (resampling_ : Resampling)
  (nodata_value : num) (block_size : Z) (x_off y_off : Z) : array3 :=
  match composite_block src_datasets metadata num_bands resampling_ nodata_value
          x_off y_off
          (Z.min block_size (md_width metadata - x_off))
          (Z.min block_size (md_height metadata - y_off)) with
  | Ok data => data
  | Raise _ => []
  end.

(** The write of the block at [(x_off, y_off)]. *)
Definition block_write `{Runtime} (dst : nat) (src_datasets : list Handle)
  (metadata : MergeMetadata) (num_bands : Z) (resampling_ : Resampling)
  (nodata_value : num) (block_size : Z) (y_off x_off : Z) : event :=
  WriteBlock dst
    (Window_of_ints x_off y_off
       (Z.min block_size (md_width metadata - x_off))
       (Z.min block_size (md_height metadata - y_off)))
    (block_buffer src_datasets metadata num_bands resampling_ nodata_value
       block_size x_off y_off).

(** The offsets [range(0, stop, step)] for a positive step. *)
Definition offsets (stop step : Z) : list Z :=
  map (fun k => 0 + Z.of_nat k * step) (seq 0 (Z.to_nat ((stop - 0 + step - 1) / step))).

(* ------------------------------------------------------------------ *)
(** ** Vocabulary of the rescaler's properties                         *)
(* ------------------------------------------------------------------ *)

(** Pixel [(i, j)] of the masked elevation array: the band-1 pixel, or
    NaN where it equals the nodata value. *)
Definition masked_px `{Runtime} (d : Dataset) (i j : nat) : num :=
  if Np.ne_scalar (band_px d 1 i j) (nodata d) then band_px d 1 i j else NaN.

(** The masked elevation array ([valid_data] of [rescale_dsm_global]). *)
Definition masked_data `{Runtime} (d : Dataset) : array2 :=
  tabulate (Z.to_nat (height d)) (Z.to_nat (width d)) (masked_px d).

(** The global minimum and maximum [rescale_dsm_global] computes. *)
Definition global_min_of `{Runtime} (d : Dataset) : num :=
  match Np.nanmin (masked_data d) with Ok m => m | Raise _ => NaN end.

Definition global_max_of `{Runtime} (d : Dataset) : num :=
  match Np.nanmax (masked_data d) with Ok m => m | Raise _ => NaN end.

(** The rescaled buffer [rescale_dsm_global] returns. *)
Definition rescaled `{Runtime} (d : Dataset) : list (list Z) :=
  tabulate (Z.to_nat (height d)) (Z.to_nat (width d))
    (fun i j => rescale_px (global_min_of d) (global_max_of d) (masked_px d i j)).

(** A raster with at least one band and one pixel. *)
Definition raster_ok (d : Dataset) : Prop :=
  1 <= count d /\ 0 < height d /\ 0 < width d.

(** Pixel [(i, j)] lies in the grid of [d]. *)
Definition in_grid (d : Dataset) (i j : nat) : Prop :=
  (i < Z.to_nat (height d))%nat /\ (j < Z.to_nat (width d))%nat.

(** Pixel [(i, j)] is valid with the finite value [v]: it is not the
    nodata value. *)
Definition valid_at `{Runtime} (d : Dataset) (i j : nat) (v : Q) : Prop :=
  in_grid d i j /\ masked_px d i j = Fin v.

(** Pixel [(i, j)] is not valid: it is nodata or NaN. *)
Definition masked_at `{Runtime} (d : Dataset) (i j : nat) : Prop :=
  in_grid d i j /\ masked_px d i j = NaN.

(** The valid data of [d] is finite, with minimum [lo] and maximum
    [hi]. *)
Definition valid_range `{Runtime} (d : Dataset) (lo hi : Q) : Prop :=
  (exists i j v, valid_at d i j v /\ (v == lo)%Q) /\
  (exists i j v, valid_at d i j v /\ (v == hi)%Q) /\
  (forall i j, in_grid d i j ->
     masked_px d i j = NaN \/
     exists v, masked_px d i j = Fin v /\ (lo <= v)%Q /\ (v <= hi)%Q).

(** The valid data of [d] is flat or absent: any two pixels that are
    not masked are equal. *)
Definition degenerate_range `{Runtime} (d : Dataset) : Prop :=
  forall i j i' j', in_grid d i j -> in_grid d i' j' ->
    Np.isnan (masked_px d i j) = false ->
    Np.isnan (masked_px d i' j') = false ->
    Np.ne (masked_px d i j) (masked_px d i' j') = false.

(** Rounding to the nearest integer, ties to the even one: [round] of
    Python and NumPy. *)
Definition round_half_even (q : Q) : Z :=
  let f := Qfloor q in
  let r := (q - inject_Z f)%Q in
  match (r ?= 1 # 2)%Q with
  | Lt => f
  | Gt => f + 1
  | Eq => if Z.even f then f else f + 1
  end.

(** The mapping of the rescaler as the specification words it. *)
Definition spec_scaled (v lo hi : Q) : Z :=
  round_half_even ((v - lo) / (hi - lo) * 65535)%Q.

(** The three events of [rescale_dsm_global]. *)
Definition rescale_events (h : nat) (dsm_path : string) : list event :=
  [Open h dsm_path; Read h [1] None; Close h].

(* ------------------------------------------------------------------ *)
(** ** Vocabulary of the splitter's properties                         *)
(* ------------------------------------------------------------------ *)

(** The geographic cell of [(row, col)] in the grid that
    [generate_chunks] lays over two mosaics, as
    [(chunk_left, chunk_bottom, chunk_right, chunk_top)]. *)
Definition geo_cell (dsm satellite : Dataset) (n_rows n_cols : Z) (row col : Z)
  : Q * Q * Q * Q :=
  let '(left_, bottom_, right_, top_) := common_bbox dsm satellite in
  chunk_bounds left_ bottom_
    ((right_ - left_) / inject_Z n_cols)%Q
    ((top_ - bottom_) / inject_Z n_rows)%Q
    row col.

(** The window of a raster for a geographic rectangle. *)
Definition window_of `{Runtime} (d : Dataset) (cell : Q * Q * Q * Q) : result Window :=
  let '(l, b, r, t) := cell in window d l b r t.

(** The pixels of the elevation tile cropped at a window. *)
Definition elevation_tile (scaled_dsm : list (list Z)) (dsm_nodata : option num)
  (w : Window) : list (list Z) :=
  map (map (fun z => z mod 65536))
      (Np.where_
         (map (map (fun z => Np.ne_scalar (Fin (inject_Z z)) dsm_nodata))
              (crop scaled_dsm w))
         (crop scaled_dsm w) 0).

(** The pixels of the color tile read at a window: at every pixel the
    three channels from bands 1, 2 and 3, in this order. *)
Definition color_tile `{Runtime} (satellite : Dataset) (w : Window)
  : list (list (list Z)) :=
  tabulate (fst (window_shape w)) (snd (window_shape w))
    (fun i j =>
       [Np.astype_uint8 (read_px satellite 1 w (nodata satellite) i j);
        Np.astype_uint8 (read_px satellite 2 w (nodata satellite) i j);
        Np.astype_uint8 (read_px satellite 3 w (nodata satellite) i j)]).

(** The I/O events of one cell of [generate_chunks]. *)
Definition cell_events `{Runtime} (dsm satellite : Handle)
  (output_folder : string) (n_rows n_cols : Z) (row col : Z) : list event :=
  let cell := geo_cell (ds dsm) (ds satellite) n_rows n_cols row col in
  match window_of (ds dsm) cell, window_of (ds satellite) cell with
  | Ok dw, Ok sw =>
      [Read (hid satellite) [1; 2; 3] (Some sw);
       SavePng (os_path_join output_folder (dsm_chunk_name row col))
         (ImageI16 (elevation_tile (rescaled (ds dsm)) (nodata (ds dsm)) dw));
       SavePng (os_path_join output_folder (satellite_chunk_name row col))
         (ImageRGB (color_tile (ds satellite) sw))]
  | _, _ => []
  end.

(** The I/O events of all cells, rows outermost. *)
Definition grid_events `{Runtime} (dsm satellite : Handle)
  (output_folder : string) (n_rows n_cols : Z) : list event :=
  flat_map (fun row =>
              flat_map (fun col =>
                          cell_events dsm satellite output_folder n_rows n_cols row col)
                       (offsets n_cols 1))
           (offsets n_rows 1).

(** The files a trace saves, with their images. *)
Fixpoint saved (tr : list event) : list (string * Image) :=
  match tr with
  | [] => []
  | SavePng path img :: tr' => (path, img) :: saved tr'
  | _ :: tr' => saved tr'
  end.

(** The paths of the elevation tiles, and of the color tiles, a trace
    saves. *)
Fixpoint saved_elevation (tr : list event) : list string :=
  match tr with
  | [] => []
  | SavePng path (ImageI16 _) :: tr' => path :: saved_elevation tr'
  | _ :: tr' => saved_elevation tr'
  end.

Fixpoint saved_color (tr : list event) : list string :=
  match tr with
  | [] => []
  | SavePng path (ImageRGB _) :: tr' => path :: saved_color tr'
  | _ :: tr' => saved_color tr'
  end.

(** The index pairs of an [n_rows] by [n_cols] grid, rows outermost. *)
Definition grid_cells (n_rows n_cols : Z) : list (Z * Z) :=
  list_prod (offsets n_rows 1) (offsets n_cols 1).

(** The mosaics at two paths can be split: both exist, the elevation
    raster has a band and a pixel, and rasterio computes a window for
    every rectangle. *)
Definition splittable `{Runtime} (w : World) (dsm_path satellite_path : string)
  (dsm satellite : Dataset) : Prop :=
  fs w dsm_path = Some dsm /\
  fs w satellite_path = Some satellite /\
  raster_ok dsm /\
  (forall d l b r t, exists win, window d l b r t = Ok win).

Fixpoint Qsum (l : list Q) : Q :=
  match l with
  | [] => 0
  | x :: xs => x + Qsum xs
  end.

(** The geographic width of a cell. *)
Definition cell_width (cell : Q * Q * Q * Q) : Q :=
  let '(l, _, r, _) := cell in (r - l)%Q.

(** The events that are raster I/O: opening, reading or writing a
    raster. *)
Definition is_raster_io (e : event) : bool :=
  match e with
  | Open _ _ | Create _ _ _ | Read _ _ _ | WriteBlock _ _ _ => true
  | _ => false
  end.

(** A decimal digit. *)
Definition is_digit (c : ascii) : bool :=
  match c with
  | "0" | "1" | "2" | "3" | "4" | "5" | "6" | "7" | "8" | "9" => true
  | _ => false
  end%char.

Fixpoint all_digits (s : string) : bool :=
  match s with
  | EmptyString => true
  | String c s' => is_digit c && all_digits s'
  end.

(** The number a string of decimal digits denotes. *)
Definition value_of (s : string) : option nat :=
  option_map Nat.of_uint (DecimalString.NilEmpty.uint_of_string s).

(** What [os.path.join] puts before a relative file name. *)
Definition path_prefix (a : string) : string :=
  match a with
  | EmptyString => EmptyString
  | _ => if ends_with_slash a then a else (a ++ "/")%string
  end.

(** The events of a run of [generate_chunks] that opens both mosaics
    and stops before the first tile. *)
Definition aborted_events (h : nat) (dsm_path satellite_path output_folder : string)
  : list event :=
  Makedirs output_folder
  :: rescale_events h dsm_path
  ++ [Open (S h) dsm_path; Open (S (S h)) satellite_path;
      Close (S (S h)); Close (S h)].

(** The lower and the upper edge of a geographic cell. *)
Definition cell_bottom (cell : Q * Q * Q * Q) : Q :=
  let '(_, b, _, _) := cell in b.

Definition cell_top (cell : Q * Q * Q * Q) : Q :=
  let '(_, _, _, t) := cell in t.

(** The lower and the upper edge of the common bounding box. *)
Definition bbox_bottom (dsm satellite : Dataset) : Q :=
  cell_bottom (common_bbox dsm satellite).

Definition bbox_top (dsm satellite : Dataset) : Q :=
  cell_top (common_bbox dsm satellite).

(** [acc] is the least element of [l] that is not NaN, or NaN when [l]
    holds nothing else. *)
Definition nan_least (acc : num) (l : list num) : Prop :=
  (Np.isnan acc = true /\ forall y, In y l -> Np.isnan y = true) \/
  (Np.isnan acc = false /\ In acc l /\
   forall y, In y l -> Np.isnan y = false -> Np.le acc y = true).

Definition nan_greatest (acc : num) (l : list num) : Prop :=
  (Np.isnan acc = true /\ forall y, In y l -> Np.isnan y = true) \/
  (Np.isnan acc = false /\ In acc l /\
   forall y, In y l -> Np.isnan y = false -> Np.le y acc = true).

(* ------------------------------------------------------------------ *)
(** ** Example rasters and an example runtime                          *)
(* ------------------------------------------------------------------ *)

(** A north-up raster of [w] by [h] pixels over the given bounds. *)
Definition north_up (nm : string) (c : CRS) (l b r t : Q) (w h cnt : Z)
  (nd : option num) : Dataset :=
  {| name := nm;
     crs := c;
     bounds := {| left := l; bottom := b; right := r; top := t |};
     res := ((r - l) / inject_Z w, (t - b) / inject_Z h)%Q;
     transform := {| aff_a := (r - l) / inject_Z w; aff_b := 0; aff_c := l;
                     aff_d := 0; aff_e := - ((t - b) / inject_Z h); aff_f := t |}%Q;
     width := w;
     height := h;
     count := cnt;
     dtypes := repeat "float32"%string (Z.to_nat cnt);
     nodata := nd |}.

(** The band-1 pixels of the example rasters, by file name. *)
Definition example_pixels (nm : string) : list (list Q) :=
  if String.eqb nm "dsm.tif" then [[0; 1; 4]]%Q
  else if String.eqb nm "flat.tif" then [[5; 5]]%Q
  else if String.eqb nm "grid.tif" then [[10; 20]; [30; 40]]%Q
  else [].

(** A runtime for the examples: pixels from [example_pixels], rasterio's
    window arithmetic for north-up rasters, a reprojection that gives 1
    for "a.tif" and, for any other source, nodata in column 0 and 2
    elsewhere. *)
Definition example_runtime : Runtime :=
  {| band_px := fun d band i j =>
       Fin (nth j (nth i (example_pixels (name d)) []) 0%Q);
     window := fun d l b r t =>
       Ok {| col_off := (l - left (bounds d)) / fst (res d);
             row_off := (top (bounds d) - t) / snd (res d);
             win_width := (r - l) / fst (res d);
             win_height := (t - b) / snd (res d) |}%Q;
     window_shape := fun w =>
       (Z.to_nat (Qceiling (win_height w)), Z.to_nat (Qceiling (win_width w)));
     read_px := fun d band w fill i j =>
       Fin (inject_Z (100 * band + Z.of_nat (10 * i + j)));
     warp_error := fun _ => None;
     warp_px := fun args i j =>
       if String.eqb (name (fst (source args))) "a.tif" then Fin 1
       else if Nat.eqb j 0 then Fin (-9999) else Fin 2;
     cast_scalar := fun _ v => v;
     cast_nonfinite := fun _ => 0 |}.

Definition example_crs : CRS := "EPSG:25830"%string.

(** An elevation raster of one row with the values 0, 1 and 4. *)
Definition example_dsm : Dataset :=
  north_up "dsm.tif" example_crs 0 0 3 1 3 1 1 (Some (Fin (-9999))).

(** A flat elevation raster: every pixel is 5. *)
Definition example_flat : Dataset :=
  north_up "flat.tif" example_crs 0 0 2 1 2 1 1 (Some (Fin (-9999))).

(** A 2 by 2 elevation raster over the square from (0, 0) to (4, 4);
    its top row holds 10 and 20, its bottom row 30 and 40. *)
Definition example_grid : Dataset :=
  north_up "grid.tif" example_crs 0 0 4 4 2 2 1 (Some (Fin (-9999))).

(** A color raster of 4 by 4 pixels over the same square, 3 bands. *)
Definition example_color : Dataset :=
  north_up "color.tif" example_crs 0 0 4 4 4 4 3 None.

(** The same color raster in another coordinate system. *)
Definition example_color_wgs84 : Dataset :=
  north_up "color84.tif" "EPSG:4326"%string 0 0 4 4 4 4 3 None.

(** Two sources of one grid for a merge, and one in another CRS. *)
Definition example_a : Dataset :=
  north_up "a.tif" example_crs 0 0 3 2 3 2 1 (Some (Fin (-9999))).

Definition example_b : Dataset :=
  north_up "b.tif" example_crs 0 0 3 2 3 2 1 (Some (Fin (-9999))).

Definition example_c : Dataset :=
  north_up "c.tif" "EPSG:4326"%string 0 0 3 2 3 2 1 None.

(** A square raster of 1000 by 1000 pixels at resolution 1, 3 bands. *)
Definition example_1000 : Dataset :=
  north_up "big.tif" example_crs 0 0 1000 1000 1000 1000 3 None.

Definition example_files (path : string) : option Dataset :=
  if String.eqb path "dsm.tif" then Some example_dsm
  else if String.eqb path "flat.tif" then Some example_flat
  else if String.eqb path "grid.tif" then Some example_grid
  else if String.eqb path "color.tif" then Some example_color
  else if String.eqb path "color84.tif" then Some example_color_wgs84
  else if String.eqb path "a.tif" then Some example_a
  else if String.eqb path "b.tif" then Some example_b
  else if String.eqb path "c.tif" then Some example_c
  else None.

Definition example_world : World :=
  {| fs := example_files; next_handle := 0; trace := [] |}.

(** The metadata the planner gives for [example_a] and [example_b] at
    scale factor 1: a grid of 3 by 2 pixels. *)
Definition example_metadata : MergeMetadata :=
  {| md_transform := {| aff_a := 1; aff_b := 0; aff_c := 0;
                        aff_d := 0; aff_e := -1; aff_f := 2 |};
     md_crs := example_crs;
     md_dtype := "float32"%string;
     md_res := 1;
     md_width := 3;
     md_height := 2;
     md_bounds := (0, 0, 3, 2)%Q |}.

Definition example_handle_a : Handle := {| hid := 0; ds := example_a |}.
Definition example_handle_b : Handle := {| hid := 1; ds := example_b |}.

(** The example runtime with a reprojection service that fails. *)
Definition failing_warp_runtime : Runtime :=
  {| band_px := @band_px example_runtime;
     window := @window example_runtime;
     window_shape := @window_shape example_runtime;
     read_px := @read_px example_runtime;
     warp_error := fun _ => Some (WarpError "reprojection failed");
     warp_px := @warp_px example_runtime;
     cast_scalar := @cast_scalar example_runtime;
     cast_nonfinite := @cast_nonfinite example_runtime |}.

(* ------------------------------------------------------------------ *)
(** ** Vocabulary of the merge entry point's properties                *)
(* ------------------------------------------------------------------ *)

(** The world after [k] handles were taken and more events logged. *)
Definition after (w : World) (k : nat) (evs : list event) : World :=
  {| fs := fs w; next_handle := (next_handle w + k)%nat; trace := trace w ++ evs |}.

(** The handles [rasterio.open] gives the datasets [l], from handle [n]
    on. *)
Fixpoint source_handles (n : nat) (l : list Dataset) : list Handle :=
  match l with
  | [] => []
  | d :: l' => {| hid := n; ds := d |} :: source_handles (S n) l'
  end.

(** The events of opening the files [paths], from handle [n] on. *)
Fixpoint open_events (n : nat) (paths : list string) : list event :=
  match paths with
  | [] => []
  | p :: ps => Open n p :: open_events (S n) ps
  end.

(** The test [src.crs != target_crs] of [reproject_rasters_to_crs]. *)
Definition needs_reprojection (target_crs : CRS) (src : Handle) : bool :=
  negb (String.eqb (crs (ds src)) target_crs).

(** The arguments of the [reproject] call of [reproject_rasters_to_crs]
    for one band of a source. *)
Definition band_reproject_args (target_crs : CRS) (src : Dataset) (band : Z)
  : ReprojectArgs :=
  {| source := (src, band);
     src_transform := transform src;
     src_crs := crs src;
     dst_transform := transform src;
     dst_crs := target_crs;
     resampling := bilinear;
     src_nodata := None;
     dst_nodata := None |}.

(** The in-memory copy of [src] that is opened when the temporary
    dataset has handle [n]. *)
Definition memfile_handle (target_crs : CRS) (n : nat) (src : Handle) : Handle :=
  {| hid := S n;
     ds := memfile_dataset (ds src) target_crs (hd ""%string (dtypes (ds src))) |}.

(** The list [reproject_rasters_to_crs] returns when the next free
    handle is [n]. *)
Fixpoint reprojected_from (target_crs : CRS) (n : nat) (srcs : list Handle)
  : list Handle :=
  match srcs with
  | [] => []
  | src :: srcs' =>
      if needs_reprojection target_crs src
      then memfile_handle target_crs n src
           :: reprojected_from target_crs (S (S n)) srcs'
      else src :: reprojected_from target_crs n srcs'
  end.

(** The events it logs: per reprojected source, the temporary dataset
    is created and closed and the in-memory file is opened. *)
Fixpoint reprojection_events (target_crs : CRS) (n : nat) (srcs : list Handle)
  : list event :=
  match srcs with
  | [] => []
  | src :: srcs' =>
      if needs_reprojection target_crs src
      then Create n ("/vsimem/" ++ name (ds src))
             (memfile_profile (ds src) target_crs (hd ""%string (dtypes (ds src))))
           :: Close n
           :: Open (S n) ("/vsimem/" ++ name (ds src))
           :: reprojection_events target_crs (S (S n)) srcs'
      else reprojection_events target_crs n srcs'
  end.

(** The number of handles it takes. *)
Fixpoint reprojection_handles (target_crs : CRS) (srcs : list Handle) : nat :=
  match srcs with
  | [] => 0
  | src :: srcs' =>
      if needs_reprojection target_crs src
      then S (S (reprojection_handles target_crs srcs'))
      else reprojection_handles target_crs srcs'
  end.

(** The [WriteBlock] events of a trace, as [(window, data)]. *)
Fixpoint written (tr : list event) : list (Window * array3) :=
  match tr with
  | [] => []
  | WriteBlock _ w data :: tr' => (w, data) :: written tr'
  | _ :: tr' => written tr'
  end.

(** The rasters a trace creates. *)
Fixpoint created (tr : list event) : list string :=
  match tr with
  | [] => []
  | Create _ path _ :: tr' => path :: created tr'
  | _ :: tr' => created tr'
  end.

(** Pixel [(x, y)] lies in the window [(x_off, y_off, w, h)]. *)
Definition in_window (x y : Z) (win : Z * Z * Z * Z) : Prop :=
  let '(x_off, y_off, w, h) := win in
  x_off <= x < x_off + w /\ y_off <= y < y_off + h.

(** The windows [write_raster_blocks] writes, rows outermost. *)
Definition block_windows (width_ height_ block_size : Z) : list (Z * Z * Z * Z) :=
  flat_map (fun y_off =>
              map (fun x_off =>
                     (x_off, y_off,
                      Z.min block_size (width_ - x_off),
                      Z.min block_size (height_ - y_off)))
                  (offsets width_ block_size))
           (offsets height_ block_size).

(** [transform * (col, row)]: the coordinates of a pixel corner. *)
Definition Affine_apply (m : Affine) (col row : Q) : Q * Q :=
  (aff_a m * col + aff_b m * row + aff_c m,
   aff_d m * col + aff_e m * row + aff_f m)%Q.

(** The in-memory copies among the datasets it returns. *)
Fixpoint memfile_handles (target_crs : CRS) (n : nat) (srcs : list Handle)
  : list Handle :=
  match srcs with
  | [] => []
  | src :: srcs' =>
      if needs_reprojection target_crs src
      then memfile_handle target_crs n src
           :: memfile_handles target_crs (S (S n)) srcs'
      else memfile_handles target_crs n srcs'
  end.

(** The events that neither open nor close a dataset. *)
Definition quiet (e : event) : bool :=
  match e with
  | Open _ _ | Create _ _ _ | Close _ => false
  | _ => true
  end.

(** Whatever its outcome, [m] only adds events that neither open nor
    close a dataset, and takes no handle. *)
Definition quiet_io {A : Type} (m : IO A) : Prop :=
  forall w, exists evs,
    snd (m w) = add_events w evs /\ Forall (fun e => quiet e = true) evs.

(** Whatever its outcome, [m] leaves open no dataset that it opened,
    and closes none that was open before: its events leave any set of
    earlier handles as it was. *)
Definition balanced_io {A : Type} (m : IO A) : Prop :=
  forall w, exists new,
    trace (snd (m w)) = trace w ++ new /\
    (next_handle w <= next_handle (snd (m w)))%nat /\
    (forall acc, Forall (fun k => (k < next_handle w)%nat) acc ->
                 open_handles_from new acc = acc).

(* ------------------------------------------------------------------ *)
(** ** export.py: the texture exporter                                 *)
(* ------------------------------------------------------------------ *)

(** The Pillow modes the exporter uses. *)
Inductive Mode : Type :=
| ModeL
| ModeRGB
| ModeRGBA.

(** The number of channels of a pixel. *)
Definition channels (mode : Mode) : nat :=
  match mode with
  | ModeL => 1
  | ModeRGB => 3
  | ModeRGBA => 4
  end.

(** A Pillow image: its mode, its size [(width, height)] and its rows
    of pixels, a pixel being the list of its channels. *)
Record Picture : Type := {
  pic_mode : Mode;
  pic_size : Z * Z;
  pic_rows : list (list (list Z))
}.

(** [img.save(path, format="PNG", ...)], the PNG encoder of Pillow. *)
Class Pillow : Type := {
  save_png : string -> Picture -> IO unit
}.

(** [Image.new(mode, (width, height))]: every channel is 0. *)
Definition Image_new (mode : Mode) (width_ height_ : Z) : result Picture :=
  if (width_ <? 0) || (height_ <? 0)
  then Raise (ValueError "Width and height must be >= 0")
  else Ok {| pic_mode := mode;
             pic_size := (width_, height_);
             pic_rows := repeat (repeat (repeat 0 (channels mode)) (Z.to_nat width_))
                                (Z.to_nat height_) |}.

(** The pixels of [row], overwritten from its left end by those of
    [block_row]. *)
Definition paste_row (row block_row : list (list Z)) : list (list Z) :=
  mapi (fun x px => match nth_error block_row x with
                    | Some p => p
                    | None => px
                    end) row.

(** [img.paste(img_block, (0, y_off))] for [0 <= y_off]: the part of
    the block that falls outside the image is dropped. *)
Definition paste (img : Picture) (block_rows : list (list (list Z))) (y_off : Z)
  : Picture :=
  {| pic_mode := pic_mode img;
     pic_size := pic_size img;
     pic_rows :=
       mapi (fun y row =>
               if (Z.to_nat y_off <=? y)%nat then
                 match nth_error block_rows (y - Z.to_nat y_off) with
                 | Some block_row => paste_row row block_row
                 | None => row
                 end
               else row)
            (pic_rows img) |}.

(** The band indexes [1 .. count] that [read] uses when none is given. *)
Definition all_bands (d : Dataset) : list Z :=
  map (fun k => 1 + Z.of_nat k) (seq 0 (Z.to_nat (count d))).

(** [src.read(window=Window(0, y_off, width, h))] for a window inside
    the raster: the rows [y_off .. y_off + h - 1] of every band. *)
Definition read_strip `{Runtime} (src : Handle) (y_off h : Z) : IO array3 :=
  _ <~ log (Read (hid src) (all_bands (ds src))
              (Some (Window_of_ints 0 y_off (width (ds src)) h))) ;;
  ret (map (fun band =>
              tabulate (Z.to_nat h) (Z.to_nat (width (ds src)))
                (fun i j => band_px (ds src) band (Z.to_nat y_off + i) j))
           (all_bands (ds src))).

(** The mode for a band count. *)
Definition mode_of (bands : Z) : Mode :=
  if bands =? 3 then ModeRGB
  else if bands =? 4 then ModeRGBA
  else ModeL.

(** Lines 43 to 48 of [export_texture_png]: the pixels of the image
    made from a block of shape [(bands, h, w)]. *)
Definition block_pixels `{Runtime} (bands : Z) (block : array3)
  : result (list (list (list Z))) :=
  if (bands =? 3) || (bands =? 4) then
    Ok (map (map (map Np.astype_uint8)) (Np.moveaxis_0_last block))
  else
    band0 <- Py.getitem block 0 ;;
    Ok (map (map (fun v => [Np.astype_uint8 v])) band0).

(** A loop that updates a local variable [s] and performs I/O. *)
Fixpoint fold_io {A S : Type} (l : list A) (body : S -> A -> IO S) (s : S) : IO S :=
  match l with
  | [] => ret s
  | x :: xs => s' <~ body s x ;; fold_io xs body s'
  end.

Definition export_texture_png `{Runtime} `{Pillow}
  (input_tif output_png : string) (block_size : Z) : IO string :=
  src <~ rasterio_open input_tif ;;
  _ <~ with_ (hid src)
    (let width_ := width (ds src) in
     let height_ := height (ds src) in
     let bands := count (ds src) in
     let mode := mode_of bands in
     img <~ lift (Image_new mode width_ height_) ;;
     total <~ lift (q <- Py.floordiv height_ block_size ;; Ok (q + 1)) ;;
     y_offs <~ lift (Py.range 0 height_ block_size) ;;
     img <~ fold_io y_offs (fun img y_off =>
              let h := Z.min block_size (height_ - y_off) in
              block <~ read_strip src y_off h ;;
              block_px <~ lift (block_pixels bands block) ;;
              ret (paste img block_px y_off))
            img ;;
     save_png output_png img) ;;
  ret output_png.

(* ------------------------------------------------------------------ *)
(** ** Vocabulary of the texture exporter's properties                 *)
(* ------------------------------------------------------------------ *)

(** The channels of pixel [(y, x)] of the texture of a raster: one
    byte per band for 3 or 4 bands, the byte of band 1 otherwise. *)
Definition texture_px `{Runtime} (d : Dataset) (y x : nat) : list Z :=
  if (count d =? 3) || (count d =? 4)
  then map (fun band => Np.astype_uint8 (band_px d band y x)) (all_bands d)
  else [Np.astype_uint8 (band_px d 1 y x)].

(** The texture of a raster of which the first [limit] rows have been
    pasted: the other rows are still black. *)
Definition texture_upto `{Runtime} (d : Dataset) (limit : nat) : Picture :=
  {| pic_mode := mode_of (count d);
     pic_size := (width d, height d);
     pic_rows := tabulate (Z.to_nat (height d)) (Z.to_nat (width d))
                   (fun y x => if (y <? limit)%nat then texture_px d y x
                               else repeat 0 (channels (mode_of (count d)))) |}.

(** An encoder for the examples: it records the path and the pixels. *)
Definition example_pillow : Pillow :=
  {| save_png := fun path pic => log (SavePng path (ImageRGB (pic_rows pic))) |}.

(** The strip reads of the exporter with block size [block_size]. *)
Definition strip_reads (h : nat) (d : Dataset) (block_size : Z) : list event :=
  map (fun y_off =>
         Read h (all_bands d)
           (Some (Window_of_ints 0 y_off (width d)
                    (Z.min block_size (height d - y_off)))))
      (offsets (height d) block_size).

(* ------------------------------------------------------------------ *)
(** ** scripts/import_chunks_blender.py: the tile index                *)
(* ------------------------------------------------------------------ *)

(** The importer lists the chunk folder, sorts the PNG files into
    satellite and elevation tiles, gives every tile the key
    ["rNNN_cNNN"] it reads off the file name, and reads row and column
    back from the key.  Text is ASCII: a [string] lists the characters
    of a [str]. *)

(** [s.startswith(p)]. *)
Definition startswith (s p : string) : bool := String.prefix p s.

(** [s.endswith(p)]. *)
Fixpoint endswith (s p : string) : bool :=
  String.eqb s p ||
  match s with
  | EmptyString => false
  | String _ s' => endswith s' p
  end.

Definition lower_char (c : ascii) : ascii :=
  let n := nat_of_ascii c in
  if ((65 <=? n) && (n <=? 90))%nat then ascii_of_nat (n + 32) else c.

(** [s.lower()]. *)
Fixpoint lower (s : string) : string :=
  match s with
  | EmptyString => EmptyString
  | String c s' => String (lower_char c) (lower s')
  end.

(** The part of [s] before the first [sep], and the parts after it. *)
Fixpoint split_parts (s : string) (sep : ascii) : string * list string :=
  match s with
  | EmptyString => (EmptyString, [])
  | String c s' =>
      let (p, ps) := split_parts s' sep in
      if Ascii.eqb c sep then (EmptyString, p :: ps) else (String c p, ps)
  end.

(** [s.split(sep)] for a separator of one character. *)
Definition str_split (s : string) (sep : ascii) : list string :=
  let (p, ps) := split_parts s sep in p :: ps.

(** [s[1:]]. *)
Definition from_1 (s : string) : string :=
  match s with
  | EmptyString => EmptyString
  | String _ s' => s'
  end.

(** *** [repr] of a string, for the messages of [int] *)

Definition hex_digit (n : nat) : ascii :=
  ascii_of_nat (if (n <? 10)%nat then 48 + n else 87 + n).

Fixpoint contains_char (s : string) (c : ascii) : bool :=
  match s with
  | EmptyString => false
  | String c' s' => Ascii.eqb c' c || contains_char s' c
  end.

Definition double_quote : ascii := ascii_of_nat 34.

Definition repr_char (quote c : ascii) : string :=
  let n := nat_of_ascii c in
  if (n =? 92)%nat then "\\"
  else if Ascii.eqb c quote then String "\" (String c EmptyString)
  else if (n =? 9)%nat then "\t"
  else if (n =? 10)%nat then "\n"
  else if (n =? 13)%nat then "\r"
  else if ((n <? 32) || (n =? 127))%nat
       then String "\" (String "x" (String (hex_digit (n / 16))
                                      (String (hex_digit (n mod 16)) EmptyString)))
  else String c EmptyString.

Fixpoint repr_chars (quote : ascii) (s : string) : string :=
  match s with
  | EmptyString => EmptyString
  | String c s' => (repr_char quote c ++ repr_chars quote s')%string
  end.

(** [repr(s)]: in single quotes, unless [s] holds a single quote and
    no double quote. *)
Definition repr (s : string) : string :=
  let quote := if contains_char s "'" && negb (contains_char s double_quote)
               then double_quote else "'"%char in
  (String quote (repr_chars quote s) ++ String quote EmptyString)%string.

(** *** [int] of a string *)

(** The white space [int] skips in ASCII text. *)
Definition is_space (c : ascii) : bool :=
  let n := nat_of_ascii c in
  (((9 <=? n) && (n <=? 13)) || (n =? 32))%nat.

Fixpoint lstrip (s : string) : string :=
  match s with
  | EmptyString => EmptyString
  | String c s' => if is_space c then lstrip s' else s
  end.

Fixpoint all_space (s : string) : bool :=
  match s with
  | EmptyString => true
  | String c s' => is_space c && all_space s'
  end.

(** The value of a decimal digit. *)
Definition digit_value (c : ascii) : option Z :=
  if is_digit c then Some (Z.of_nat (nat_of_ascii c) - 48) else None.

(** The text up to the first NUL: what the C parser sees. *)
Fixpoint c_str (s : string) : string :=
  match s with
  | EmptyString => EmptyString
  | String c s' => if Ascii.eqb c zero then EmptyString else String c (c_str s')
  end.

(** The digits at the head of [s], with single underscores between
    them: their value after [acc], their number after [n], and the text
    that follows them.  [None] when an underscore is doubled or is not
    followed by a digit. *)
Fixpoint scan_digits (s : string) (after_underscore : bool) (acc : Z) (n : nat)
  : option (Z * nat * string) :=
  match s with
  | EmptyString => if after_underscore then None else Some (acc, n, EmptyString)
  | String c s' =>
      match digit_value c with
      | Some v => scan_digits s' false (10 * acc + v) (S n)
      | None =>
          if Ascii.eqb c "_" then
            if after_underscore then None else scan_digits s' true acc n
          else if after_underscore then None
          else Some (acc, n, s)
      end
  end.

Definition max_str_digits : nat := 4300.

Definition invalid_literal (s : string) : exn :=
  ValueError ("invalid literal for int() with base 10: " ++
              String.substring 0 200 (repr s)).

Definition exceeds_limit (n : nat) : exn :=
  ValueError ("Exceeds the limit (4300 digits) for integer string conversion: value has "
              ++ digits n ++
              " digits; use sys.set_int_max_str_digits() to increase the limit").

(** [int(s)] for a string, in base 10 (CPython 3.11): white space
    around the number, a sign, digits with single underscores between
    them; at most 4300 digits, which are counted before the text after
    them is looked at. *)
Definition int_str (s : string) : result Z :=
  let text := lstrip (c_str s) in
  let (negative, body) :=
    match text with
    | String "+" r => (false, r)
    | String "-" r => (true, r)
    | _ => (false, text)
    end in
  match body with
  | String "_" _ => Raise (invalid_literal s)
  | _ =>
      match scan_digits body false 0 0 with
      | None => Raise (invalid_literal s)
      | Some (v, n, rest) =>
          if (n =? 0)%nat then Raise (invalid_literal s)
          else if (max_str_digits <? n)%nat then Raise (exceeds_limit n)
          else if all_space rest && String.eqb (c_str s) s
               then Ok (if negative then - v else v)
          else Raise (invalid_literal s)
      end
  end.

(** *** The dictionaries *)

(** A [dict] from strings to strings, in insertion order. *)
Definition dict : Type := list (string * string).

(** [d[k] = v]: a key that is present keeps its place. *)
Fixpoint dict_set (d : dict) (k v : string) : dict :=
  match d with
  | [] => [(k, v)]
  | (k', v') :: d' =>
      if String.eqb k' k then (k', v) :: d' else (k', v') :: dict_set d' k v
  end.

(** [d[k]]; [None] stands for [KeyError]. *)
Fixpoint dict_get (d : dict) (k : string) : option string :=
  match d with
  | [] => None
  | (k', v') :: d' => if String.eqb k' k then Some v' else dict_get d' k
  end.

(** [list(d.keys())]. *)
Definition dict_keys (d : dict) : list string := map fst d.

(** Lines 13 and 14: the files whose name starts with [kind] and ends,
    in lower case, with ".png". *)
Definition png_files (kind : string) (all_files : list string) : list string :=
  filter (fun f => startswith f kind && endswith (lower f) ".png") all_files.

(** Lines 21 and 25:
    [f.split("_")[1] + "_" + f.split("_")[2].split(".")[0]]. *)
Definition chunk_key (f : string) : result string :=
  a <- Py.getitem (str_split f "_") 1 ;;
  b <- Py.getitem (str_split f "_") 2 ;;
  c <- Py.getitem (str_split b ".") 0 ;;
  Ok (a ++ "_" ++ c)%string.

(** The loops of lines 20 to 26, from the dictionary [d] on. *)
Fixpoint index_files (chunk_folder : string) (files : list string) (d : dict)
  : result dict :=
  match files with
  | [] => Ok d
  | f :: files' =>
      key <- chunk_key f ;;
      index_files chunk_folder files' (dict_set d key (os_path_join chunk_folder f))
  end.

(** Lines 12 to 26: [(satellite_dict, dsm_dict)] for the listing
    [all_files] of [chunk_folder]. *)
Definition tile_index (chunk_folder : string) (all_files : list string)
  : result (dict * dict) :=
  let dsm_files := png_files "dsm" all_files in
  let satellite_files := png_files "satellite" all_files in
  satellite_dict <- index_files chunk_folder satellite_files [] ;;
  dsm_dict <- index_files chunk_folder dsm_files [] ;;
  Ok (satellite_dict, dsm_dict).

(** Lines 58 to 60: row and column of a key. *)
Definition parse_key (key : string) : result (Z * Z) :=
  match str_split key "_" with
  | [] => Raise (ValueError "not enough values to unpack (expected 2, got 0)")
  | [_] => Raise (ValueError "not enough values to unpack (expected 2, got 1)")
  | [row; col] =>
      row <- int_str (from_1 row) ;;
      col <- int_str (from_1 col) ;;
      Ok (row, col)
  | _ => Raise (ValueError "too many values to unpack (expected 2)")
  end.

(** The key of the tile at [(row, col)]. *)
Definition key_of (row col : Z) : string :=
  ("r" ++ format_03d row ++ "_c" ++ format_03d col)%string.
(* ------------------------------------------------------------------ *)
(** ** Properties of the extent planner                                *)
(* ------------------------------------------------------------------ *)

Lemma fold_min_least (xs : list Q) (x : Q) :
  least_of (fold_left (fun m y => if Qle_bool m y then m else y) xs x) (x :: xs).
Proof.
  revert x.
  induction xs as [|y ys IH]; intros x; simpl.
  - split; [now left|].
    intros z [<-|[]]. apply Qle_refl.
  - destruct (Qle_bool x y) eqn:E.
    + destruct (IH x) as [Hin Hle].
      split.
      * destruct Hin as [H|H]; [now left | right; now right].
      * intros z [Hz|[Hz|Hz]].
        -- apply Hle. now left.
        -- subst z. eapply Qle_trans; [apply Hle; now left|].
           now apply Qle_bool_iff.
        -- apply Hle. now right.
    + destruct (IH y) as [Hin Hle].
      assert (Hyx : (y <= x)%Q).
      { destruct (Qlt_le_dec y x) as [H|H]; [now apply Qlt_le_weak|].
        apply Qle_bool_iff in H. congruence. }
      split.
      * right. exact Hin.
      * intros z [Hz|[Hz|Hz]].
        -- subst z. eapply Qle_trans; [apply Hle; now left| exact Hyx].
        -- apply Hle. now left.
        -- apply Hle. now right.
Qed.

Lemma fold_max_greatest (xs : list Q) (x : Q) :
  greatest_of (fold_left (fun m y => if Qle_bool y m then m else y) xs x) (x :: xs).
Proof.
  revert x.
  induction xs as [|y ys IH]; intros x; simpl.
  - split; [now left|].
    intros z [<-|[]]. apply Qle_refl.
  - destruct (Qle_bool y x) eqn:E.
    + destruct (IH x) as [Hin Hle].
      split.
      * destruct Hin as [H|H]; [now left | right; now right].
      * intros z [Hz|[Hz|Hz]].
        -- apply Hle. now left.
        -- subst z. eapply Qle_trans; [|apply Hle; now left].
           now apply Qle_bool_iff.
        -- apply Hle. now right.
    + destruct (IH y) as [Hin Hle].
      assert (Hxy : (x <= y)%Q).
      { destruct (Qlt_le_dec x y) as [H|H]; [now apply Qlt_le_weak|].
        apply Qle_bool_iff in H. congruence. }
      split.
      * right. exact Hin.
      * intros z [Hz|[Hz|Hz]].
        -- subst z. eapply Qle_trans; [exact Hxy | apply Hle; now left].
        -- apply Hle. now left.
        -- apply Hle. now right.
Qed.

Lemma Py_min_least (l : list Q) :
  l <> [] -> exists m, Py.min l = Ok m /\ least_of m l.
Proof.
  destruct l as [|x xs]; [congruence|].
  intros _. eexists. split; [reflexivity|]. apply fold_min_least.
Qed.

Lemma Py_max_greatest (l : list Q) :
  l <> [] -> exists m, Py.max l = Ok m /\ greatest_of m l.
Proof.
  destruct l as [|x xs]; [congruence|].
  intros _. eexists. split; [reflexivity|]. apply fold_max_greatest.
Qed.

Lemma truediv_ok (a b : Q) :
  ~ (b == 0)%Q -> Py.truediv a b = Ok (a / b)%Q.
Proof.
  intros Hb. unfold Py.truediv.
  destruct (Qeq_bool b 0) eqn:E; [|reflexivity].
  apply Qeq_bool_iff in E. contradiction.
Qed.

Lemma Qdiv_pos (a b : Q) : (0 < a)%Q -> (0 < b)%Q -> (0 < a / b)%Q.
Proof.
  intros Ha Hb. unfold Qdiv.
  apply Qmult_lt_0_compat; [exact Ha|].
  now apply Qinv_lt_0_compat.
Qed.

Lemma Qceiling_pos (q : Q) : (0 < q)%Q -> 0 < Qceiling q.
Proof.
  intros Hq.
  destruct (Z_lt_le_dec 0 (Qceiling q)) as [H|H]; [exact H|].
  exfalso.
  assert (Hc : (q <= inject_Z (Qceiling q))%Q) by apply Qle_ceiling.
  assert (H0 : (inject_Z (Qceiling q) <= 0)%Q).
  { change 0%Q with (inject_Z 0). now rewrite <- Zle_Qle. }
  apply (Qlt_irrefl 0).
  eapply Qlt_le_trans; [exact Hq|].
  eapply Qle_trans; eassumption.
Qed.

Lemma inject_Z_nonzero (z : Z) : z <> 0 -> ~ (inject_Z z == 0)%Q.
Proof.
  intros Hz E. apply Hz.
  unfold Qeq in E. simpl in E. lia.
Qed.


(** C8. Extent planner, empty input.  On the empty list of datasets the
    planner fails, whatever the scale factor: the minimum over no
    bounds raises [ValueError], the package's invalid-input error. *)
Theorem compute_merge_metadata_empty_fails (scale_factor : Q) :
  compute_merge_metadata [] scale_factor =
  Raise (ValueError "min() arg is an empty sequence").
Proof.
  reflexivity.
Qed.


(* ------------------------------------------------------------------ *)
(** ** Arrays given by their elements                                  *)
(* ------------------------------------------------------------------ *)

Lemma repeat_map_seq {A : Type} (v : A) (n s : nat) :
  repeat v n = map (fun _ => v) (seq s n).
Proof.
  revert s. induction n as [|n IH]; intros s; simpl; [reflexivity|].
  f_equal. apply IH.
Qed.

Lemma repeat2_tabulate {A : Type} (v : A) (h w : nat) :
  repeat (repeat v w) h = tabulate h w (fun _ _ => v).
Proof.
  unfold tabulate.
  rewrite (repeat_map_seq (repeat v w) h 0).
  apply map_ext. intros _. apply repeat_map_seq.
Qed.

Lemma repeat3_tabulate3 {A : Type} (v : A) (n h w : nat) :
  repeat (repeat (repeat v w) h) n = tabulate3 n h w (fun _ _ _ => v).
Proof.
  unfold tabulate3.
  rewrite (repeat_map_seq (repeat (repeat v w) h) n 0).
  apply map_ext. intros _. apply repeat2_tabulate.
Qed.

Lemma mapi_from_map_seq {A B : Type} (f : nat -> A -> B) (g : nat -> A) (n s : nat) :
  mapi_from f s (map g (seq s n)) = map (fun i => f i (g i)) (seq s n).
Proof.
  revert s. induction n as [|n IH]; intros s; simpl; [reflexivity|].
  f_equal. apply IH.
Qed.

Lemma mapi_tabulate {A B : Type} (f : nat -> nat -> B) (g : nat -> nat -> A) (h w : nat) :
  mapi (fun i row => mapi (fun j _ => f i j) row) (tabulate h w g) = tabulate h w f.
Proof.
  unfold mapi, tabulate.
  rewrite mapi_from_map_seq.
  apply map_ext. intros i. apply mapi_from_map_seq.
Qed.

Lemma map3_map_seq {A B C D : Type} (f : A -> B -> C -> D)
  (a : nat -> A) (b : nat -> B) (c : nat -> C) (n s : nat) :
  map3 f (map a (seq s n)) (map b (seq s n)) (map c (seq s n)) =
  map (fun i => f (a i) (b i) (c i)) (seq s n).
Proof.
  revert s. induction n as [|n IH]; intros s; simpl; [reflexivity|].
  f_equal. apply IH.
Qed.

Lemma assign_mask_tabulate (d v : nat -> nat -> num) (m : nat -> nat -> bool) (h w : nat) :
  Np.assign_mask (tabulate h w d) (tabulate h w m) (tabulate h w v) =
  tabulate h w (fun i j => if m i j then v i j else d i j).
Proof.
  unfold Np.assign_mask, tabulate.
  rewrite map3_map_seq.
  apply map_ext. intros i. apply map3_map_seq.
Qed.

Lemma not_equal_tabulate (v : nat -> nat -> num) (s : option num) (h w : nat) :
  Np.not_equal (tabulate h w v) s = tabulate h w (fun i j => Np.ne_scalar (v i j) s).
Proof.
  unfold Np.not_equal, tabulate.
  rewrite map_map. apply map_ext. intros i. apply map_map.
Qed.

Lemma nth_error_map_seq {A : Type} (g : nat -> A) (n s k : nat) :
  (k < n)%nat -> nth_error (map g (seq s n)) k = Some (g (s + k)%nat).
Proof.
  revert s k. induction n as [|n IH]; intros s k Hk; [lia|].
  destruct k as [|k]; simpl.
  - now rewrite Nat.add_0_r.
  - rewrite IH by lia. f_equal. f_equal. lia.
Qed.

Lemma at2_tabulate {A : Type} (f : nat -> nat -> A) (h w i j : nat) :
  (i < h)%nat -> (j < w)%nat -> at2 (tabulate h w f) i j = Some (f i j).
Proof.
  intros Hi Hj. unfold at2, tabulate.
  rewrite nth_error_map_seq by exact Hi.
  now rewrite nth_error_map_seq by exact Hj.
Qed.

Lemma at3_tabulate3 {A : Type} (f : nat -> nat -> nat -> A) (n h w b i j : nat) :
  (b < n)%nat -> (i < h)%nat -> (j < w)%nat ->
  at3 (tabulate3 n h w f) b i j = Some (f b i j).
Proof.
  intros Hb Hi Hj. unfold at3, tabulate3.
  rewrite nth_error_map_seq by exact Hb.
  now apply at2_tabulate.
Qed.

Lemma set_band_map_seq (g : nat -> array2) (v : array2) (n s k : nat) :
  (k < n)%nat ->
  set_band (map g (seq s n)) k v =
  Ok (map (fun b => if Nat.eqb b (s + k) then v else g b) (seq s n)).
Proof.
  revert s k. induction n as [|n IH]; intros s k Hk; [lia|].
  destruct k as [|k]; simpl.
  - rewrite Nat.add_0_r, Nat.eqb_refl. f_equal. f_equal.
    apply map_ext_in. intros b Hb. apply in_seq in Hb.
    destruct (Nat.eqb_spec b s); [lia|reflexivity].
  - rewrite IH by lia. simpl.
    destruct (Nat.eqb_spec s (s + S k)); [lia|].
    f_equal. f_equal. apply map_ext. intros b.
    now replace (S (s + k)) with (s + S k)%nat by lia.
Qed.

(* ------------------------------------------------------------------ *)
(** ** The buffer of one block                                         *)
(* ------------------------------------------------------------------ *)

Lemma find_app {A : Type} (p : A -> bool) (l m : list A) :
  find p (l ++ m) = match find p l with Some x => Some x | None => find p m end.
Proof.
  induction l as [|x l IH]; simpl; [reflexivity|].
  destruct (p x); [reflexivity | exact IH].
Qed.

Lemma fold_overwrite_last_valid (nodata_value : num) (vals : list num) (d : num) :
  fold_left (fun v t => if Np.ne t nodata_value then t else v) vals d =
  match last_valid nodata_value vals with Some v => v | None => d end.
Proof.
  unfold last_valid.
  revert d. induction vals as [|t vals IH]; intros d; simpl; [reflexivity|].
  rewrite IH, find_app. simpl.
  destruct (find _ (rev vals)); [reflexivity|].
  destruct (Np.ne t nodata_value); reflexivity.
Qed.

Lemma range_bands (num_bands : Z) :
  0 <= num_bands ->
  Py.range 1 (num_bands + 1) 1 = Ok (band_range (Z.to_nat num_bands)).
Proof.
  intros Hn. unfold Py.range, band_range. simpl.
  replace (num_bands + 1 - 1 + 1 - 1) with num_bands by lia.
  now rewrite Z.div_1_r.
Qed.

Section Block.

Context {RT : Runtime}.
Variables (metadata : MergeMetadata) (resampling_ : Resampling).
Variables (nodata_value : num) (x_off y_off w h : Z) (num_bands : Z).
Hypothesis Hw : 0 <= w.
Hypothesis Hh : 0 <= h.
Hypothesis Hn : 0 <= num_bands.
Hypothesis Hwarp : forall args, warp_error args = None.

Local Abbreviation n := (Z.to_nat num_bands).
Local Abbreviation hh := (Z.to_nat h).
Local Abbreviation ww := (Z.to_nat w).
Local Abbreviation overwrite :=
  (overwrite_band metadata resampling_ nodata_value x_off y_off).
Local Abbreviation body src :=
  (fun (block_data : array3) (band : Z) =>
     temp <- Np.full2 h w nodata_value (md_dtype metadata) ;;
     temp <- reproject (block_reproject_args (ds src) band metadata x_off y_off
                          resampling_ nodata_value) temp ;;
     let mask := Np.not_equal temp (Some nodata_value) in
     old <- Py.getitem block_data (Z.to_nat (band - 1)) ;;
     set_band block_data (Z.to_nat (band - 1)) (Np.assign_mask old mask temp)).

Lemma band_step (src : Handle) (f : nat -> nat -> nat -> num) (band : Z) :
  1 <= band <= num_bands ->
  body src (tabulate3 n hh ww f) band = Ok (tabulate3 n hh ww (overwrite src f band)).
Proof.
  intros Hb. cbv beta. unfold Np.full2, reproject.
  replace ((h <? 0) || (w <? 0)) with false
    by (symmetry; apply orb_false_iff; split; apply Z.ltb_ge; assumption).
  cbn [bind]. rewrite Hwarp. cbn [bind].
  rewrite repeat2_tabulate, mapi_tabulate, not_equal_tabulate.
  assert (Hk : (Z.to_nat (band - 1) < n)%nat) by lia.
  unfold Py.getitem, tabulate3.
  rewrite nth_error_map_seq by exact Hk. cbn [bind].
  rewrite set_band_map_seq by exact Hk.
  f_equal. apply map_ext. intros b. cbn [Nat.add].
  unfold overwrite_band.
  destruct (Nat.eqb_spec b (Z.to_nat (band - 1))) as [->|Hne].
  - apply assign_mask_tabulate.
  - reflexivity.
Qed.

Lemma bands_loop (src : Handle) (bl : list Z) (f : nat -> nat -> nat -> num) :
  Forall (fun band => 1 <= band <= num_bands) bl ->
  fold_for bl (body src) (tabulate3 n hh ww f) =
  Ok (tabulate3 n hh ww (fold_left (overwrite src) bl f)).
Proof.
  intros Hbl. revert f.
  induction Hbl as [|band bl Hb _ IH]; intros f; simpl; [reflexivity|].
  rewrite band_step by exact Hb. cbn [bind]. apply IH.
Qed.

Lemma band_range_ok : Forall (fun band => 1 <= band <= num_bands) (band_range n).
Proof.
  unfold band_range. apply Forall_forall. intros band Hin.
  apply in_map_iff in Hin. destruct Hin as (k & <- & Hk).
  apply in_seq in Hk. lia.
Qed.

Lemma sources_loop (srcs : list Handle) (f : nat -> nat -> nat -> num) :
  fold_for srcs (fun block_data src => fold_for (band_range n) (body src) block_data)
           (tabulate3 n hh ww f) =
  Ok (tabulate3 n hh ww
        (fold_left (fun g src => fold_left (overwrite src) (band_range n) g) srcs f)).
Proof.
  revert f. induction srcs as [|src srcs IH]; intros f; simpl; [reflexivity|].
  rewrite bands_loop by apply band_range_ok. cbn [bind]. apply IH.
Qed.

(** A pass over the bands [s+1 .. s+m] touches band index [b] once if
    it is among them, and not otherwise. *)
Lemma overwrite_bands_at (src : Handle) (m s : nat)
  (f : nat -> nat -> nat -> num) (b i j : nat) :
  fold_left (overwrite src) (map (fun k => 1 + Z.of_nat k * 1) (seq s m)) f b i j =
  if (s <=? b)%nat && (b <? s + m)%nat
  then overwrite src f (Z.of_nat b + 1) b i j
  else f b i j.
Proof.
  revert s f. induction m as [|m IH]; intros s f; cbn [map seq fold_left].
  - destruct (Nat.leb_spec s b), (Nat.ltb_spec b (s + 0)); simpl; try reflexivity; lia.
  - rewrite IH.
    unfold overwrite_band.
    replace (Z.to_nat (1 + Z.of_nat s * 1 - 1)) with s by lia.
    replace (Z.to_nat (Z.of_nat b + 1 - 1)) with b by lia.
    rewrite Nat.eqb_refl.
    destruct (Nat.eqb_spec b s) as [->|Hbs].
    + replace (S s <=? s)%nat with false by (symmetry; apply Nat.leb_gt; lia).
      replace (s <=? s)%nat with true by (symmetry; apply Nat.leb_le; lia).
      replace (s <? s + S m)%nat with true by (symmetry; apply Nat.ltb_lt; lia).
      cbn [andb].
      now replace (1 + Z.of_nat s * 1) with (Z.of_nat s + 1) by lia.
    + destruct (Nat.leb_spec (S s) b), (Nat.ltb_spec b (S s + m)),
               (Nat.leb_spec s b), (Nat.ltb_spec b (s + S m));
        cbn [andb]; try lia; reflexivity.
Qed.

Lemma overwrite_sources_at (srcs : list Handle)
  (f : nat -> nat -> nat -> num) (b i j : nat) :
  (b < n)%nat ->
  fold_left (fun g src => fold_left (overwrite src) (band_range n) g) srcs f b i j =
  fold_left (fun v t => if Np.ne t nodata_value then t else v)
            (reprojected_values srcs metadata resampling_ nodata_value
               (Z.of_nat b + 1) x_off y_off i j)
            (f b i j).
Proof.
  intros Hb. revert f.
  induction srcs as [|src srcs IH]; intros f; simpl; [reflexivity|].
  rewrite IH. f_equal.
  unfold band_range. rewrite overwrite_bands_at.
  destruct (Nat.leb_spec 0 b), (Nat.ltb_spec b (0 + n)); simpl; try lia.
  unfold overwrite_band.
  replace (Z.to_nat (Z.of_nat b + 1 - 1)) with b by lia.
  now rewrite Nat.eqb_refl.
Qed.

(** Lines 103 to 120: the block buffer holds, at every pixel of
    every band, the composited value. *)
Lemma composite_block_ok (srcs : list Handle) :
  exists data,
    composite_block srcs metadata num_bands resampling_ nodata_value
                    x_off y_off w h = Ok data /\
    forall b i j, (b < n)%nat -> (i < hh)%nat -> (j < ww)%nat ->
      at3 data b i j =
      Some (composited srcs metadata resampling_ nodata_value
              (Z.of_nat b + 1) x_off y_off i j).
Proof.
  unfold composite_block, Np.full3.
  replace ((num_bands <? 0) || (h <? 0) || (w <? 0)) with false.
  2:{ symmetry. apply orb_false_iff. split; [apply orb_false_iff; split|];
      apply Z.ltb_ge; assumption. }
  cbn [bind]. rewrite range_bands by exact Hn. cbn [bind].
  rewrite repeat3_tabulate3.
  rewrite sources_loop. cbn [bind].
  eexists. split; [reflexivity|].
  intros b i j Hb Hi Hj.
  rewrite at3_tabulate3 by assumption.
  rewrite overwrite_sources_at by exact Hb.
  rewrite fold_overwrite_last_valid.
  reflexivity.
Qed.

End Block.

(* ------------------------------------------------------------------ *)
(** ** Worlds and loops                                                *)
(* ------------------------------------------------------------------ *)

Lemma add_events_nil (w : World) : add_events w [] = w.
Proof.
  destruct w. unfold add_events. simpl. now rewrite app_nil_r.
Qed.

Lemma add_events_app (w : World) (a b : list event) :
  add_events (add_events w a) b = add_events w (a ++ b).
Proof.
  unfold add_events. simpl. now rewrite app_assoc.
Qed.

Lemma log_run (e : event) (w : World) : log e w = (Ok tt, add_events w [e]).
Proof. reflexivity. Qed.

Lemma range_offsets (stop step : Z) :
  0 < step -> Py.range 0 stop step = Ok (offsets stop step).
Proof.
  intros Hs. unfold Py.range, offsets.
  destruct (Z.eqb_spec step 0); [lia|].
  destruct (Z.ltb_spec 0 step); [reflexivity|lia].
Qed.

Lemma offsets_in (stop step y : Z) :
  0 < step -> In y (offsets stop step) -> 0 <= y < stop.
Proof.
  intros Hs Hin. unfold offsets in Hin.
  apply in_map_iff in Hin. destruct Hin as (k & <- & Hk).
  apply in_seq in Hk.
  assert (Hq : Z.of_nat k < (stop - 0 + step - 1) / step) by lia.
  pose proof (Z.mul_div_le (stop - 0 + step - 1) step Hs) as Hm.
  nia.
Qed.

Lemma offsets_cover (stop step y : Z) :
  0 < step -> 0 <= y < stop ->
  In (step * (y / step)) (offsets stop step) /\
  step * (y / step) <= y < step * (y / step) + step.
Proof.
  intros Hs Hy. split.
  - unfold offsets. apply in_map_iff.
    exists (Z.to_nat (y / step)).
    assert (H0 : 0 <= y / step) by (apply Z.div_pos; lia).
    split; [lia|].
    apply in_seq.
    assert (Hle : y / step <= (stop - 1) / step) by (apply Z.div_le_mono; lia).
    replace (stop - 0 + step - 1) with (stop - 1 + 1 * step) by lia.
    rewrite Z.div_add by lia. lia.
  - pose proof (Z.mul_div_le y step Hs).
    pose proof (Z.mul_succ_div_gt y step Hs). lia.
Qed.

(* ------------------------------------------------------------------ *)
(** ** The blocks of a merge                                           *)
(* ------------------------------------------------------------------ *)

Section Blocks.

Context {RT : Runtime}.
Variables (srcs : list Handle) (metadata : MergeMetadata).
Variables (num_bands block_size : Z) (resampling_ : Resampling).
Variables (nodata_value : num) (dst : nat).
Hypothesis Hn : 0 <= num_bands.
Hypothesis Hbs : 0 < block_size.
Hypothesis Hwarp : forall args, warp_error args = None.

Lemma block_buffer_ok (x_off y_off : Z) :
  0 <= x_off < md_width metadata ->
  0 <= y_off < md_height metadata ->
  composite_block srcs metadata num_bands resampling_ nodata_value x_off y_off
    (Z.min block_size (md_width metadata - x_off))
    (Z.min block_size (md_height metadata - y_off)) =
  Ok (block_buffer srcs metadata num_bands resampling_ nodata_value
        block_size x_off y_off) /\
  forall b i j,
    (b < Z.to_nat num_bands)%nat ->
    (i < Z.to_nat (Z.min block_size (md_height metadata - y_off)))%nat ->
    (j < Z.to_nat (Z.min block_size (md_width metadata - x_off)))%nat ->
    at3 (block_buffer srcs metadata num_bands resampling_ nodata_value
           block_size x_off y_off) b i j =
    Some (composited srcs metadata resampling_ nodata_value
            (Z.of_nat b + 1) x_off y_off i j).
Proof.
  intros Hx Hy.
  destruct (composite_block_ok metadata resampling_ nodata_value x_off y_off
              (Z.min block_size (md_width metadata - x_off))
              (Z.min block_size (md_height metadata - y_off))
              num_bands ltac:(lia) ltac:(lia) Hn Hwarp srcs)
    as (data & Hdata & Hpx).
  unfold block_buffer. rewrite Hdata. split; [reflexivity|exact Hpx].
Qed.

Lemma x_loop (y_off : Z) (x_offs : list Z) (w0 : World) :
  0 <= y_off < md_height metadata ->
  (forall x_off, In x_off x_offs -> 0 <= x_off < md_width metadata) ->
  for_ x_offs (fun x_off =>
     block_data <~ lift (composite_block srcs metadata num_bands
                           resampling_ nodata_value x_off y_off
                           (Z.min block_size (md_width metadata - x_off))
                           (Z.min block_size (md_height metadata - y_off))) ;;
     log (WriteBlock dst
            (Window_of_ints x_off y_off
               (Z.min block_size (md_width metadata - x_off))
               (Z.min block_size (md_height metadata - y_off)))
            block_data)) w0 =
  (Ok tt, add_events w0
            (map (block_write dst srcs metadata num_bands resampling_
                    nodata_value block_size y_off) x_offs)).
Proof.
  intros Hy. revert w0.
  induction x_offs as [|x_off x_offs IH]; intros w0 Hin.
  - simpl. now rewrite add_events_nil.
  - cbn [for_ map]. unfold iobind at 1. unfold iobind at 1, lift at 1.
    destruct (block_buffer_ok x_off y_off) as [-> _];
      [apply Hin; now left | exact Hy |].
    rewrite log_run, IH by (intros x Hx; apply Hin; now right).
    now rewrite add_events_app.
Qed.

Lemma y_loop (y_offs : list Z) (w0 : World) :
  (forall y_off, In y_off y_offs -> 0 <= y_off < md_height metadata) ->
  for_ y_offs (fun y_off =>
     x_offs <~ lift (Py.range 0 (md_width metadata) block_size) ;;
     for_ x_offs (fun x_off =>
       block_data <~ lift (composite_block srcs metadata num_bands
                             resampling_ nodata_value x_off y_off
                             (Z.min block_size (md_width metadata - x_off))
                             (Z.min block_size (md_height metadata - y_off))) ;;
       log (WriteBlock dst
              (Window_of_ints x_off y_off
                 (Z.min block_size (md_width metadata - x_off))
                 (Z.min block_size (md_height metadata - y_off)))
              block_data))) w0 =
  (Ok tt, add_events w0
            (flat_map (fun y_off =>
                         map (block_write dst srcs metadata num_bands resampling_
                                nodata_value block_size y_off)
                             (offsets (md_width metadata) block_size))
                      y_offs)).
Proof.
  revert w0. induction y_offs as [|y_off y_offs IH]; intros w0 Hin.
  - simpl. now rewrite add_events_nil.
  - cbn [for_ flat_map]. unfold iobind at 1. unfold iobind at 1, lift at 1.
    rewrite range_offsets at 1 by exact Hbs.
    rewrite x_loop.
    + cbv beta iota. rewrite IH by (intros y Hy; apply Hin; now right).
      now rewrite add_events_app.
    + apply Hin. now left.
    + intros x Hx. now apply offsets_in in Hx.
Qed.

End Blocks.

Lemma write_raster_blocks_run {RT : Runtime}
  (first : Handle) (rest : list Handle) (output_path : string)
  (metadata : MergeMetadata) (num_bands block_size : Z)
  (resampling_ : Resampling) (w0 : World) :
  0 <= num_bands ->
  0 < block_size ->
  (forall args, warp_error args = None) ->
  exists profile,
    write_raster_blocks (first :: rest) output_path metadata num_bands
      block_size resampling_ w0 =
    (Ok output_path,
     add_events (take_handle w0)
       (Create (next_handle w0) output_path profile
        :: flat_map (fun y_off =>
                       map (block_write (next_handle w0) (first :: rest) metadata
                              num_bands resampling_
                              (composite_nodata (ds first) num_bands)
                              block_size y_off)
                           (offsets (md_width metadata) block_size))
                    (offsets (md_height metadata) block_size)
        ++ [Close (next_handle w0)])).
Proof.
  intros Hn Hbs Hwarp.
  eexists.
  unfold write_raster_blocks.
  unfold iobind at 1. cbn [lift Py.getitem nth_error].
  unfold Py.floordiv.
  destruct (Z.eqb_spec block_size 0) as [E|_]; [lia|].
  unfold iobind at 1. cbn [lift].
  unfold iobind at 1. cbn [lift].
  unfold rasterio_create.
  unfold iobind at 1. unfold iobind at 1. unfold iobind at 1.
  cbn [fresh_handle]. unfold iobind at 1. rewrite log_run. cbn [ret].
  unfold iobind at 1, with_.
  unfold iobind at 1. rewrite range_offsets at 1 by exact Hbs. cbn [lift].
  rewrite (y_loop (first :: rest) metadata num_bands block_size resampling_
             (composite_nodata (ds first) num_bands) (next_handle w0)
             Hn Hbs Hwarp).
  2:{ intros y Hy. now apply offsets_in in Hy. }
  unfold close. rewrite log_run. cbn [ret].
  rewrite !add_events_app.
  reflexivity.
Qed.



(* ------------------------------------------------------------------ *)
(** ** The run of the global rescaler                                  *)
(* ------------------------------------------------------------------ *)

Lemma map2_map_seq {A B C : Type} (f : A -> B -> C)
  (a : nat -> A) (b : nat -> B) (n s : nat) :
  map2 f (map a (seq s n)) (map b (seq s n)) = map (fun i => f (a i) (b i)) (seq s n).
Proof.
  revert s. induction n as [|n IH]; intros s; simpl; [reflexivity|].
  f_equal. apply IH.
Qed.

Lemma where_tabulate {A : Type} (m : nat -> nat -> bool) (a : nat -> nat -> A) (v : A)
  (h w : nat) :
  Np.where_ (tabulate h w m) (tabulate h w a) v =
  tabulate h w (fun i j => if m i j then a i j else v).
Proof.
  unfold Np.where_, tabulate.
  rewrite map2_map_seq. apply map_ext. intros i. apply map2_map_seq.
Qed.

Lemma map_map_tabulate {A B : Type} (g : A -> B) (f : nat -> nat -> A) (h w : nat) :
  map (map g) (tabulate h w f) = tabulate h w (fun i j => g (f i j)).
Proof.
  unfold tabulate. rewrite map_map. apply map_ext. intros i. apply map_map.
Qed.

Lemma concat_tabulate_nonempty {A : Type} (f : nat -> nat -> A) (h w : nat) :
  (0 < h)%nat -> (0 < w)%nat -> concat (tabulate h w f) <> [].
Proof.
  intros Hh Hw.
  destruct h as [|h]; [lia|]. destruct w as [|w]; [lia|].
  discriminate.
Qed.

Lemma in_concat_tabulate {A : Type} (f : nat -> nat -> A) (h w : nat) (x : A) :
  In x (concat (tabulate h w f)) <-> exists i j, (i < h)%nat /\ (j < w)%nat /\ x = f i j.
Proof.
  unfold tabulate. rewrite in_concat. split.
  - intros (row & Hrow & Hx).
    apply in_map_iff in Hrow. destruct Hrow as (i & <- & Hi).
    apply in_map_iff in Hx. destruct Hx as (j & <- & Hj).
    apply in_seq in Hi. apply in_seq in Hj.
    exists i, j. repeat split; lia.
  - intros (i & j & Hi & Hj & ->).
    exists (map (fun j => f i j) (seq 0 w)). split.
    + apply in_map_iff. exists i. split; [reflexivity|]. apply in_seq. lia.
    + apply in_map_iff. exists j. split; [reflexivity|]. apply in_seq. lia.
Qed.

Section Rescale.

Context {RT : Runtime}.

Lemma masked_data_nonempty (d : Dataset) :
  raster_ok d -> concat (masked_data d) <> [].
Proof.
  intros (_ & Hh & Hw). apply concat_tabulate_nonempty; lia.
Qed.

Lemma nanmin_ok (d : Dataset) :
  raster_ok d -> Np.nanmin (masked_data d) = Ok (global_min_of d).
Proof.
  intros Hd. apply masked_data_nonempty in Hd.
  unfold global_min_of, Np.nanmin.
  destruct (concat (masked_data d)); [congruence|reflexivity].
Qed.

Lemma nanmax_ok (d : Dataset) :
  raster_ok d -> Np.nanmax (masked_data d) = Ok (global_max_of d).
Proof.
  intros Hd. apply masked_data_nonempty in Hd.
  unfold global_max_of, Np.nanmax.
  destruct (concat (masked_data d)); [congruence|reflexivity].
Qed.

Lemma rasterio_open_run (path : string) (d : Dataset) (w : World) :
  fs w path = Some d ->
  rasterio_open path w =
  (Ok {| hid := next_handle w; ds := d |},
   add_events (take_handle w) [Open (next_handle w) path]).
Proof.
  intros Hfs. unfold rasterio_open. rewrite Hfs. reflexivity.
Qed.

(** [rescale_dsm_global] opens the raster, reads band 1, closes it and
    returns the rescaled buffer with the raster's nodata value. *)
Lemma rescale_dsm_global_run (dsm_path : string) (d : Dataset) (w : World) :
  fs w dsm_path = Some d ->
  raster_ok d ->
  rescale_dsm_global dsm_path w =
  (Ok (rescaled d, nodata d),
   add_events (take_handle w) (rescale_events (next_handle w) dsm_path)).
Proof.
  intros Hfs Hd.
  unfold rescale_dsm_global.
  unfold iobind at 1. rewrite (rasterio_open_run _ _ _ Hfs).
  unfold iobind at 1, with_, read_band. cbn [hid ds].
  destruct Hd as (Hc & Hh & Hw).
  replace ((1 <=? 1) && (1 <=? count d)) with true
    by (symmetry; apply andb_true_iff; split; apply Z.leb_le; lia).
  unfold iobind at 1. unfold iobind at 1. rewrite log_run. cbn [ret].
  unfold close. rewrite log_run. cbn [fst snd].
  rewrite map_map_tabulate. unfold Np.astype_float32.
  rewrite not_equal_tabulate, where_tabulate.
  change (tabulate (Z.to_nat (height d)) (Z.to_nat (width d))
            (fun i j => if Np.ne_scalar (band_px d 1 i j) (nodata d)
                        then band_px d 1 i j else NaN))
    with (masked_data d).
  unfold iobind at 1. unfold lift at 1.
  rewrite nanmin_ok by (repeat split; assumption).
  unfold iobind at 1. unfold lift at 1.
  rewrite nanmax_ok by (repeat split; assumption).
  cbn [ret]. unfold masked_data at 1. rewrite map_map_tabulate.
  rewrite !add_events_app. reflexivity.
Qed.

End Rescale.

(* ------------------------------------------------------------------ *)
(** ** Minimum and maximum that skip NaN                               *)
(* ------------------------------------------------------------------ *)

Lemma Qle_bool_total (a b : Q) : Qle_bool a b = true \/ Qle_bool b a = true.
Proof.
  destruct (Qlt_le_dec b a) as [H|H].
  - right. apply Qle_bool_iff. now apply Qlt_le_weak.
  - left. now apply Qle_bool_iff.
Qed.

Lemma le_total (x y : num) :
  Np.isnan x = false -> Np.isnan y = false ->
  Np.le x y = true \/ Np.le y x = true.
Proof.
  destruct x, y; simpl; intros Hx Hy; try discriminate; auto.
  apply Qle_bool_total.
Qed.

Lemma le_refl (x : num) : Np.isnan x = false -> Np.le x x = true.
Proof.
  destruct x; simpl; intros Hx; try discriminate; auto.
  apply Qle_bool_iff, Qle_refl.
Qed.

Lemma le_trans (x y z : num) :
  Np.le x y = true -> Np.le y z = true -> Np.le x z = true.
Proof.
  destruct x, y, z; simpl; intros Hxy Hyz; try discriminate; auto.
  apply Qle_bool_iff. apply Qle_bool_iff in Hxy, Hyz.
  eapply Qle_trans; eassumption.
Qed.

Lemma fold_fmin_least (xs : list num) (x : num) :
  nan_least (fold_left Np.fmin xs x) (x :: xs).
Proof.
  revert x. induction xs as [|y ys IH]; intros x.
  - simpl. destruct (Np.isnan x) eqn:Ex.
    + left. split; [exact Ex|]. intros z [<-|[]]. exact Ex.
    + right. split; [exact Ex|]. split; [now left|].
      intros z [<-|[]] _. now apply le_refl.
  - cbn [fold_left].
    destruct (IH (Np.fmin x y)) as [(Hr & Hall)|(Hr & Hin & Hle)].
    + left. split; [exact Hr|].
      assert (Hf : Np.isnan (Np.fmin x y) = true) by (apply Hall; now left).
      unfold Np.fmin in Hf.
      intros z [<- | [<- | Hz]].
      * destruct (Np.isnan x) eqn:Ex; [reflexivity|].
        destruct (Np.isnan y) eqn:Ey; [congruence|].
        destruct (Np.le x y); congruence.
      * destruct (Np.isnan x) eqn:Ex; [exact Hf|].
        destruct (Np.isnan y) eqn:Ey; [reflexivity|].
        destruct (Np.le x y); congruence.
      * apply Hall. now right.
    + right. split; [exact Hr|].
      assert (Hxy : Np.fmin x y = x \/ Np.fmin x y = y).
      { unfold Np.fmin. destruct (Np.isnan x); [now right|].
        destruct (Np.isnan y); [now left|].
        destruct (Np.le x y); [now left|now right]. }
      split.
      * destruct Hin as [Hin|Hin].
        -- rewrite <- Hin. destruct Hxy as [-> | ->]; [now left|right; now left].
        -- right. now right.
      * assert (Hm : Np.isnan (Np.fmin x y) = false ->
                     forall z, (z = x \/ z = y) -> Np.isnan z = false ->
                               Np.le (Np.fmin x y) z = true).
        { intros _ z Hz Hzn. unfold Np.fmin.
          destruct Hz as [-> | ->].
          - rewrite Hzn. destruct (Np.isnan y) eqn:Ey; [now apply le_refl|].
            destruct (Np.le x y) eqn:Exy; [now apply le_refl|].
            destruct (le_total x y Hzn Ey); congruence.
          - destruct (Np.isnan x) eqn:Ex; [now apply le_refl|].
            rewrite Hzn.
            destruct (Np.le x y) eqn:Exy; [exact Exy|now apply le_refl]. }
        intros z Hz Hzn.
        destruct (Np.isnan (Np.fmin x y)) eqn:Ef.
        -- (* the running minimum was NaN: x and y are NaN *)
           destruct Hz as [Hz | [Hz | Hz]].
           ++ exfalso. subst z. unfold Np.fmin in Ef. rewrite Hzn in Ef.
              destruct (Np.isnan y) eqn:Ey; [congruence|].
              destruct (Np.le x y); congruence.
           ++ exfalso. subst z. unfold Np.fmin in Ef.
              destruct (Np.isnan x) eqn:Ex; [congruence|].
              rewrite Hzn in Ef. destruct (Np.le x y); congruence.
           ++ apply Hle; [now right|exact Hzn].
        -- destruct Hz as [Hz | [Hz | Hz]].
           ++ eapply le_trans; [apply Hle; [now left|exact Ef]|].
              apply Hm; auto.
           ++ eapply le_trans; [apply Hle; [now left|exact Ef]|].
              apply Hm; auto.
           ++ apply Hle; [now right|exact Hzn].
Qed.

Lemma fold_fmax_greatest (xs : list num) (x : num) :
  nan_greatest (fold_left Np.fmax xs x) (x :: xs).
Proof.
  revert x. induction xs as [|y ys IH]; intros x.
  - simpl. destruct (Np.isnan x) eqn:Ex.
    + left. split; [exact Ex|]. intros z [<-|[]]. exact Ex.
    + right. split; [exact Ex|]. split; [now left|].
      intros z [<-|[]] _. now apply le_refl.
  - cbn [fold_left].
    destruct (IH (Np.fmax x y)) as [(Hr & Hall)|(Hr & Hin & Hle)].
    + left. split; [exact Hr|].
      assert (Hf : Np.isnan (Np.fmax x y) = true) by (apply Hall; now left).
      unfold Np.fmax in Hf.
      intros z [<- | [<- | Hz]].
      * destruct (Np.isnan x) eqn:Ex; [reflexivity|].
        destruct (Np.isnan y) eqn:Ey; [congruence|].
        destruct (Np.le y x); congruence.
      * destruct (Np.isnan x) eqn:Ex; [exact Hf|].
        destruct (Np.isnan y) eqn:Ey; [reflexivity|].
        destruct (Np.le y x); congruence.
      * apply Hall. now right.
    + right. split; [exact Hr|].
      assert (Hxy : Np.fmax x y = x \/ Np.fmax x y = y).
      { unfold Np.fmax. destruct (Np.isnan x); [now right|].
        destruct (Np.isnan y); [now left|].
        destruct (Np.le y x); [now left|now right]. }
      split.
      * destruct Hin as [Hin|Hin].
        -- rewrite <- Hin. destruct Hxy as [-> | ->]; [now left|right; now left].
        -- right. now right.
      * assert (Hm : Np.isnan (Np.fmax x y) = false ->
                     forall z, (z = x \/ z = y) -> Np.isnan z = false ->
                               Np.le z (Np.fmax x y) = true).
        { intros _ z Hz Hzn. unfold Np.fmax.
          destruct Hz as [-> | ->].
          - rewrite Hzn. destruct (Np.isnan y) eqn:Ey; [now apply le_refl|].
            destruct (Np.le y x) eqn:Exy; [now apply le_refl|].
            destruct (le_total x y Hzn Ey); congruence.
          - destruct (Np.isnan x) eqn:Ex; [now apply le_refl|].
            rewrite Hzn.
            destruct (Np.le y x) eqn:Exy; [exact Exy|now apply le_refl]. }
        intros z Hz Hzn.
        destruct (Np.isnan (Np.fmax x y)) eqn:Ef.
        -- destruct Hz as [Hz | [Hz | Hz]].
           ++ exfalso. subst z. unfold Np.fmax in Ef. rewrite Hzn in Ef.
              destruct (Np.isnan y) eqn:Ey; [congruence|].
              destruct (Np.le y x); congruence.
           ++ exfalso. subst z. unfold Np.fmax in Ef.
              destruct (Np.isnan x) eqn:Ex; [congruence|].
              rewrite Hzn in Ef. destruct (Np.le y x); congruence.
           ++ apply Hle; [now right|exact Hzn].
        -- destruct Hz as [Hz | [Hz | Hz]].
           ++ eapply le_trans; [apply Hm; auto|].
              apply Hle; [now left|exact Ef].
           ++ eapply le_trans; [apply Hm; auto|].
              apply Hle; [now left|exact Ef].
           ++ apply Hle; [now right|exact Hzn].
Qed.

(* ------------------------------------------------------------------ *)
(** ** The linear map of the rescaler                                  *)
(* ------------------------------------------------------------------ *)

Lemma py_int_floor (q : Q) : (0 <= q)%Q -> py_int q = Qfloor q.
Proof.
  destruct q as [n d]. unfold Qle, py_int, Qfloor. simpl.
  intros Hn. apply Z.quot_div_nonneg; lia.
Qed.

Lemma astype_uint16_floor {RT : Runtime} (q : Q) :
  (0 <= q)%Q -> (q <= 65535)%Q -> Np.astype_uint16 (Fin q) = Qfloor q.
Proof.
  intros H0 H1. unfold Np.astype_uint16.
  rewrite py_int_floor by exact H0.
  apply Z.mod_small.
  apply Qfloor_resp_le in H0, H1.
  change (Qfloor 0) with 0 in H0.
  change (Qfloor 65535) with 65535 in H1.
  lia.
Qed.

Lemma Qminus_pos (a b : Q) : (a < b)%Q -> (0 < b - a)%Q.
Proof.
  intros H. now apply (proj1 (Qlt_minus_iff a b)).
Qed.

Lemma Qminus_nonneg (a b : Q) : (a <= b)%Q -> (0 <= b - a)%Q.
Proof.
  intros H. now apply (proj1 (Qle_minus_iff a b)).
Qed.

Lemma unit_fraction_bounds (v lo hi : Q) :
  (lo < hi)%Q -> (lo <= v)%Q -> (v <= hi)%Q ->
  (0 <= (v - lo) / (hi - lo) * 65535)%Q /\ ((v - lo) / (hi - lo) * 65535 <= 65535)%Q.
Proof.
  intros Hlh Hlo Hhi.
  assert (Hd : (0 < hi - lo)%Q) by now apply Qminus_pos.
  assert (Hn : (0 <= v - lo)%Q) by now apply Qminus_nonneg.
  assert (Hf0 : (0 <= (v - lo) / (hi - lo))%Q).
  { apply Qle_shift_div_l; [exact Hd|]. now rewrite Qmult_0_l. }
  assert (Hf1 : ((v - lo) / (hi - lo) <= 1)%Q).
  { apply Qle_shift_div_r; [exact Hd|]. rewrite Qmult_1_l.
    unfold Qminus. apply Qplus_le_l. exact Hhi. }
  split.
  - apply Qmult_le_0_compat; [exact Hf0|discriminate].
  - setoid_replace 65535%Q with (1 * 65535)%Q at 2 by reflexivity.
    apply Qmult_le_compat_r; [exact Hf1|discriminate].
Qed.

Section Linear.

Context {RT : Runtime}.
Variables (d : Dataset) (lo hi : Q).
Hypothesis Hd : raster_ok d.
Hypothesis Hrange : valid_range d lo hi.
Hypothesis Hlt : (lo < hi)%Q.

Lemma in_masked_data (x : num) :
  In x (concat (masked_data d)) <-> exists i j, in_grid d i j /\ x = masked_px d i j.
Proof.
  unfold masked_data, in_grid. rewrite in_concat_tabulate.
  split; intros (i & j & H); exists i, j; tauto.
Qed.

Lemma global_min_finite : exists m, global_min_of d = Fin m /\ (m == lo)%Q.
Proof.
  pose proof (masked_data_nonempty d Hd) as Hne.
  unfold global_min_of, Np.nanmin.
  destruct (concat (masked_data d)) as [|x xs] eqn:E; [congruence|].
  pose proof (fold_fmin_least xs x) as Hl. rewrite <- E in Hl.
  destruct Hrange as ((i0 & j0 & v0 & (Hg0 & Hp0) & Hv0) & _ & Hall).
  assert (Hin0 : In (Fin v0) (concat (masked_data d))).
  { apply in_masked_data. exists i0, j0. split; [exact Hg0|now symmetry]. }
  destruct Hl as [(_ & Hnan)|(Hr & Hin & Hle)].
  - specialize (Hnan _ Hin0). discriminate.
  - apply in_masked_data in Hin. destruct Hin as (i & j & Hg & Hx).
    destruct (Hall i j Hg) as [Hn|(v & Hv & Hlo & Hhi)].
    + rewrite Hx, Hn in Hr. discriminate.
    + rewrite Hx, Hv. exists v. split; [reflexivity|].
      specialize (Hle _ Hin0 eq_refl). rewrite Hx, Hv in Hle. simpl in Hle.
      apply Qle_bool_iff in Hle. rewrite Hv0 in Hle.
      now apply Qle_antisym.
Qed.

Lemma global_max_finite : exists m, global_max_of d = Fin m /\ (m == hi)%Q.
Proof.
  pose proof (masked_data_nonempty d Hd) as Hne.
  unfold global_max_of, Np.nanmax.
  destruct (concat (masked_data d)) as [|x xs] eqn:E; [congruence|].
  pose proof (fold_fmax_greatest xs x) as Hl. rewrite <- E in Hl.
  destruct Hrange as (_ & (i0 & j0 & v0 & (Hg0 & Hp0) & Hv0) & Hall).
  assert (Hin0 : In (Fin v0) (concat (masked_data d))).
  { apply in_masked_data. exists i0, j0. split; [exact Hg0|now symmetry]. }
  destruct Hl as [(_ & Hnan)|(Hr & Hin & Hle)].
  - specialize (Hnan _ Hin0). discriminate.
  - apply in_masked_data in Hin. destruct Hin as (i & j & Hg & Hx).
    destruct (Hall i j Hg) as [Hn|(v & Hv & Hlo & Hhi)].
    + rewrite Hx, Hn in Hr. discriminate.
    + rewrite Hx, Hv. exists v. split; [reflexivity|].
      specialize (Hle _ Hin0 eq_refl). rewrite Hx, Hv in Hle. simpl in Hle.
      apply Qle_bool_iff in Hle. rewrite Hv0 in Hle.
      now apply Qle_antisym.
Qed.

(** A finite value between the bounds is mapped by truncation. *)
Lemma rescale_px_finite (v : Q) :
  (lo <= v)%Q -> (v <= hi)%Q ->
  rescale_px (global_min_of d) (global_max_of d) (Fin v) =
  Qfloor ((v - lo) / (hi - lo) * 65535).
Proof.
  intros Hlo Hhi.
  destruct global_min_finite as (m & -> & Em).
  destruct global_max_finite as (M & -> & EM).
  unfold rescale_px. cbn [Np.nan_to_num Np.sub Np.div].
  assert (Hnz : Qeq_bool (M - m) 0 = false).
  { destruct (Qeq_bool (M - m) 0) eqn:E; [|reflexivity].
    apply Qeq_bool_iff in E. rewrite Em, EM in E.
    apply Qminus_pos in Hlt. rewrite E in Hlt. now apply Qlt_irrefl in Hlt. }
  rewrite Hnz. cbn [Np.mul].
  assert (Eq : ((v - m) / (M - m) * 65535 == (v - lo) / (hi - lo) * 65535)%Q)
    by now rewrite Em, EM.
  destruct (unit_fraction_bounds v lo hi Hlt Hlo Hhi) as [H0 H1].
  rewrite astype_uint16_floor by now rewrite Eq.
  now apply Qfloor_comp.
Qed.

(** A masked pixel is mapped like the minimum, to 0. *)
Lemma rescale_px_masked :
  rescale_px (global_min_of d) (global_max_of d) NaN = 0.
Proof.
  destruct global_min_finite as (m & Hm & Em).
  pose proof (rescale_px_finite m) as H.
  rewrite Hm in *. cbn [rescale_px Np.nan_to_num] in *.
  unfold rescale_px in *. cbn [Np.nan_to_num] in *.
  rewrite H.
  - assert (E : ((m - lo) / (hi - lo) * 65535 == 0)%Q).
    { rewrite Em. unfold Qminus. rewrite Qplus_opp_r.
      unfold Qdiv. now rewrite !Qmult_0_l. }
    now rewrite (Qfloor_comp _ _ E).
  - rewrite Em. apply Qle_refl.
  - rewrite Em. now apply Qlt_le_weak.
Qed.

End Linear.


(* ------------------------------------------------------------------ *)
(** ** The rescaler on a flat or empty range                           *)
(* ------------------------------------------------------------------ *)

Lemma Qeq_bool_minus (a b : Q) : Qeq_bool a b = true -> Qeq_bool (a - b) 0 = true.
Proof.
  intros E. apply Qeq_bool_iff in E. apply Qeq_bool_iff.
  rewrite E. unfold Qminus. apply Qplus_opp_r.
Qed.

(** With no range between minimum and maximum the quotient is NaN for
    every pixel: 0 / 0, or an operation on NaN or on two infinities. *)
Lemma flat_quotient_nan (lo hi x : num) :
  Np.ne hi lo = false ->
  (Np.isnan x = true \/ Np.ne x lo = false) ->
  Np.mul (Np.div (Np.sub (Np.nan_to_num x lo) lo) (Np.sub hi lo)) (Fin 65535) = NaN.
Proof.
  intros Hhl Hx.
  destruct lo as [l| | |], hi as [h| | |]; simpl in Hhl; try discriminate.
  - apply negb_false_iff in Hhl. apply Qeq_bool_minus in Hhl.
    destruct Hx as [Hx|Hx].
    + destruct x; try discriminate. simpl.
      rewrite Hhl.
      now rewrite (Qeq_bool_minus l l) by (apply Qeq_bool_iff; reflexivity).
    + destruct x as [v| | |]; simpl in Hx; try discriminate.
      apply negb_false_iff in Hx. apply Qeq_bool_minus in Hx.
      simpl. now rewrite Hhl, Hx.
  - destruct x; reflexivity.
  - destruct x; reflexivity.
Qed.

Lemma all_nan_quotient_nan (hi x : num) :
  Np.mul (Np.div (Np.sub (Np.nan_to_num x NaN) NaN) (Np.sub hi NaN)) (Fin 65535) = NaN.
Proof.
  destruct x; reflexivity.
Qed.

(** C7, as the code has it.  For an elevation raster whose valid data is
    flat or absent (any two valid pixels are equal), the rescaler does
    not fail: it divides by the zero range, every quotient is NaN, and
    it returns the raster's nodata value unchanged with a buffer that
    holds, at every pixel, the cast of NaN to an unsigned 16-bit
    integer. *)
Theorem rescale_dsm_global_degenerate_range {RT : Runtime}
  (dsm_path : string) (d : Dataset) (w : World) :
  fs w dsm_path = Some d ->
  raster_ok d ->
  degenerate_range d ->
  exists scaled w',
    rescale_dsm_global dsm_path w = (Ok (scaled, nodata d), w') /\
    forall i j, in_grid d i j -> at2 scaled i j = Some (cast_nonfinite NaN).
Proof.
  intros Hfs Hd Hflat.
  exists (rescaled d). eexists.
  split; [now apply rescale_dsm_global_run|].
  intros i j (Hi & Hj).
  unfold rescaled. rewrite at2_tabulate by assumption. f_equal.
  assert (Hin : forall x, In x (concat (masked_data d)) <->
                          exists i j, in_grid d i j /\ x = masked_px d i j).
  { intros x. unfold masked_data, in_grid. rewrite in_concat_tabulate.
    split; intros (a & b & H); exists a, b; tauto. }
  pose proof (masked_data_nonempty d Hd) as Hne.
  unfold rescale_px, global_min_of, global_max_of, Np.nanmin, Np.nanmax.
  destruct (concat (masked_data d)) as [|x xs] eqn:E; [congruence|].
  pose proof (fold_fmin_least xs x) as Hmin.
  pose proof (fold_fmax_greatest xs x) as Hmax.
  rewrite <- E in Hmin, Hmax.
  assert (Hin' : forall y, In y (concat (masked_data d)) <->
                           exists i j, in_grid d i j /\ y = masked_px d i j)
    by (intros y; rewrite E; apply Hin).
  clear Hin. rename Hin' into Hin.
  set (lo := fold_left Np.fmin xs x) in *.
  set (hi := fold_left Np.fmax xs x) in *.
  assert (Hpx : In (masked_px d i j) (concat (masked_data d))).
  { apply Hin. exists i, j. split; [split; assumption|reflexivity]. }
  destruct Hmin as [(Hlo & Hall)|(Hlo & Hinlo & _)].
  - destruct lo; try discriminate.
    now rewrite all_nan_quotient_nan.
  - destruct Hmax as [(_ & Hall)|(Hhi & Hinhi & _)].
    + specialize (Hall _ Hinlo). congruence.
    + apply Hin in Hinlo, Hinhi.
      destruct Hinlo as (a & b & Hab & Elo).
      destruct Hinhi as (a' & b' & Hab' & Ehi).
      rewrite flat_quotient_nan; [reflexivity| |].
      * rewrite Elo, Ehi. apply Hflat; try assumption; congruence.
      * destruct (Np.isnan (masked_px d i j)) eqn:Ex; [now left|right].
        rewrite Elo. apply Hflat; try assumption; [now split|congruence].
Qed.

(* ------------------------------------------------------------------ *)
(** ** The rescaler on the example rasters                             *)
(* ------------------------------------------------------------------ *)

Lemma example_dsm_ok : raster_ok example_dsm.
Proof. unfold raster_ok. simpl. lia. Qed.

Lemma example_flat_ok : raster_ok example_flat.
Proof. unfold raster_ok. simpl. lia. Qed.

Lemma example_dsm_range : @valid_range example_runtime example_dsm 0 4.
Proof.
  unfold valid_range, valid_at, in_grid. simpl.
  split; [|split].
  - exists 0%nat, 0%nat, 0%Q. repeat split; lia.
  - exists 0%nat, 2%nat, 4%Q. repeat split; lia.
  - intros i j (Hi & Hj). right.
    assert (i = 0)%nat by lia. subst i.
    destruct j as [|[|[|j]]]; [| | |lia].
    + exists 0%Q. repeat split; discriminate.
    + exists 1%Q. repeat split; discriminate.
    + exists 4%Q. repeat split; discriminate.
Qed.

Lemma example_flat_degenerate : @degenerate_range example_runtime example_flat.
Proof.
  unfold degenerate_range, in_grid. simpl.
  intros i j i' j' (Hi & Hj) (Hi' & Hj') _ _.
  assert (i = 0)%nat by lia. assert (i' = 0)%nat by lia. subst i i'.
  destruct j as [|[|j]], j' as [|[|j']]; try lia; reflexivity.
Qed.



(** C7, witness: the flat raster. *)
Lemma rescale_dsm_global_degenerate_range_witness :
  exists scaled w',
    @rescale_dsm_global example_runtime "flat.tif" example_world =
      (Ok (scaled, nodata example_flat), w') /\
    at2 scaled 0 0 = Some 0 /\ at2 scaled 0 1 = Some 0.
Proof.
  destruct (@rescale_dsm_global_degenerate_range example_runtime "flat.tif"
              example_flat example_world eq_refl example_flat_ok
              example_flat_degenerate)
    as (scaled & w' & Hrun & Hpx).
  exists scaled, w'. split; [exact Hrun|].
  split; apply Hpx; split; simpl; lia.
Defined.

(** C7, counterexample to the failure.  The flat raster, whose valid
    maximum equals its valid minimum, is rescaled without an error:
    the result is a buffer, not an exception. *)
Lemma rescale_dsm_global_flat_counterexample :
  @degenerate_range example_runtime example_flat /\
  fst (@rescale_dsm_global example_runtime "flat.tif" example_world) =
    Ok ([[0; 0]], Some (Fin (-9999))) /\
  forall e, fst (@rescale_dsm_global example_runtime "flat.tif" example_world)
            <> Raise e.
Proof.
  split; [exact example_flat_degenerate|].
  split; [vm_compute; reflexivity|].
  intros e. vm_compute. discriminate.
Qed.

(* ------------------------------------------------------------------ *)
(** ** Source handles of a merge                                       *)
(* ------------------------------------------------------------------ *)

(** C9. Source cleanup, at three calls of [merge_rasters] on the example
    files.  (1) A merge of "a.tif" and "c.tif", which is in another
    coordinate system, succeeds and leaves handle 1, the dataset opened
    for "c.tif", open: only its reprojected copy is closed.  (2) With
    scale factor 0 the planner fails and handle 0, the dataset opened
    for "a.tif", stays open.  (3) When the reprojection service fails
    during blockwise writing, the output is closed and the source,
    handle 0, stays open. *)
Theorem merge_rasters_leaves_sources_open :
  (fst (@merge_rasters example_runtime ["a.tif"; "c.tif"]%string "out.tif"
          1 1 1024 bilinear example_world) = Ok "out.tif"%string /\
   open_handles (snd (@merge_rasters example_runtime ["a.tif"; "c.tif"]%string "out.tif"
                        1 1 1024 bilinear example_world)) = [1%nat]) /\
  (fst (@merge_rasters example_runtime ["a.tif"%string] "out.tif"
          1 0 1024 bilinear example_world) =
     Raise (ZeroDivisionError "float division by zero") /\
   open_handles (snd (@merge_rasters example_runtime ["a.tif"%string] "out.tif"
                        1 0 1024 bilinear example_world)) = [0%nat]) /\
  (fst (@merge_rasters failing_warp_runtime ["a.tif"%string] "out.tif"
          1 1 1024 bilinear example_world) =
     Raise (WarpError "reprojection failed") /\
   open_handles (snd (@merge_rasters failing_warp_runtime ["a.tif"%string] "out.tif"
                        1 1 1024 bilinear example_world)) = [0%nat]).
Proof.
  split; [|split]; (split; [vm_compute; reflexivity|vm_compute; reflexivity]).
Qed.

(* ------------------------------------------------------------------ *)
(** ** Tile file names                                                 *)
(* ------------------------------------------------------------------ *)

Lemma all_digits_app (s t : string) :
  all_digits (s ++ t) = all_digits s && all_digits t.
Proof.
  induction s as [|c s IH]; simpl; [reflexivity|].
  now rewrite IH, andb_assoc.
Qed.

Lemma all_digits_zeros (k : nat) : all_digits (zeros k) = true.
Proof.
  induction k as [|k IH]; simpl; [reflexivity|exact IH].
Qed.

Lemma all_digits_string_of_uint (d : Decimal.uint) :
  all_digits (DecimalString.NilEmpty.string_of_uint d) = true.
Proof.
  induction d; simpl; auto.
Qed.

Lemma all_digits_zfill (n width_ : nat) : all_digits (zfill (digits n) width_) = true.
Proof.
  unfold zfill, digits.
  now rewrite all_digits_app, all_digits_zeros, all_digits_string_of_uint.
Qed.

Lemma value_of_zeros (k : nat) (s : string) :
  value_of (zeros k ++ s) = value_of s.
Proof.
  induction k as [|k IH]; [reflexivity|].
  rewrite <- IH. unfold value_of.
  cbn [zeros String.append DecimalString.NilEmpty.uint_of_string].
  destruct (DecimalString.NilEmpty.uint_of_string (zeros k ++ s)) as [u|];
    reflexivity.
Qed.

Lemma value_of_zfill (n width_ : nat) : value_of (zfill (digits n) width_) = Some n.
Proof.
  unfold zfill. rewrite value_of_zeros.
  unfold value_of, digits.
  rewrite DecimalString.NilEmpty.usu. simpl.
  now rewrite DecimalNat.Unsigned.of_to.
Qed.

Lemma format_03d_nonneg (z : Z) :
  0 <= z -> format_03d z = zfill (digits (Z.to_nat z)) 3.
Proof.
  intros Hz. unfold format_03d.
  destruct (Z.ltb_spec z 0); [lia|reflexivity].
Qed.

Lemma format_03d_inj (z z' : Z) :
  0 <= z -> 0 <= z' -> format_03d z = format_03d z' -> z = z'.
Proof.
  intros Hz Hz' E.
  rewrite !format_03d_nonneg in E by assumption.
  apply (f_equal value_of) in E.
  rewrite !value_of_zfill in E.
  injection E as E. lia.
Qed.

Lemma all_digits_format_03d (z : Z) : 0 <= z -> all_digits (format_03d z) = true.
Proof.
  intros Hz. rewrite format_03d_nonneg by exact Hz. apply all_digits_zfill.
Qed.

(** Two strings of digits, each followed by something that is not a
    digit, are equal when the whole strings are. *)
Lemma digits_prefix_inj (s1 s2 : string) (c1 c2 : ascii) (t1 t2 : string) :
  all_digits s1 = true -> all_digits s2 = true ->
  is_digit c1 = false -> is_digit c2 = false ->
  (s1 ++ String c1 t1 = s2 ++ String c2 t2)%string ->
  s1 = s2 /\ t1 = t2.
Proof.
  revert s2. induction s1 as [|a s1 IH]; intros s2 H1 H2 Hc1 Hc2 E.
  - destruct s2 as [|b s2]; simpl in *.
    + injection E as _ E. now split.
    + injection E as Ec _. subst b.
      apply andb_true_iff in H2. destruct H2 as [H2 _]. congruence.
  - destruct s2 as [|b s2]; simpl in *.
    + injection E as Ec _. subst a.
      apply andb_true_iff in H1. destruct H1 as [H1 _]. congruence.
    + injection E as Eab E. subst b.
      apply andb_true_iff in H1. apply andb_true_iff in H2.
      destruct (IH s2 (proj2 H1) (proj2 H2) Hc1 Hc2 E) as [-> ->].
      now split.
Qed.

Lemma append_inj_l (p x y : string) : (p ++ x = p ++ y)%string -> x = y.
Proof.
  induction p as [|c p IH]; simpl; intros E; [exact E|].
  injection E as E. now apply IH.
Qed.

Lemma row_col_suffix_inj (row col row' col' : Z) :
  0 <= row -> 0 <= col -> 0 <= row' -> 0 <= col' ->
  (format_03d row ++ "_c" ++ format_03d col ++ ".png" =
   format_03d row' ++ "_c" ++ format_03d col' ++ ".png")%string ->
  row = row' /\ col = col'.
Proof.
  intros Hr Hc Hr' Hc' E.
  cbn [String.append] in E.
  change ("_c" ++ ?x)%string with (String "_" (String "c" x)) in E.
  apply digits_prefix_inj in E;
    [|now apply all_digits_format_03d|now apply all_digits_format_03d
     |reflexivity|reflexivity].
  destruct E as [Er E].
  injection E as E.
  apply digits_prefix_inj in E;
    [|now apply all_digits_format_03d|now apply all_digits_format_03d
     |reflexivity|reflexivity].
  destruct E as [Ec _].
  split; now apply format_03d_inj.
Qed.

Lemma dsm_chunk_name_inj (row col row' col' : Z) :
  0 <= row -> 0 <= col -> 0 <= row' -> 0 <= col' ->
  dsm_chunk_name row col = dsm_chunk_name row' col' ->
  row = row' /\ col = col'.
Proof.
  intros Hr Hc Hr' Hc' E. unfold dsm_chunk_name in E.
  apply append_inj_l in E. now apply row_col_suffix_inj.
Qed.

Lemma satellite_chunk_name_inj (row col row' col' : Z) :
  0 <= row -> 0 <= col -> 0 <= row' -> 0 <= col' ->
  satellite_chunk_name row col = satellite_chunk_name row' col' ->
  row = row' /\ col = col'.
Proof.
  intros Hr Hc Hr' Hc' E. unfold satellite_chunk_name in E.
  apply append_inj_l in E. now apply row_col_suffix_inj.
Qed.

Lemma string_append_assoc (a b c : string) :
  ((a ++ b) ++ c = a ++ (b ++ c))%string.
Proof.
  induction a as [|x a IH]; simpl; [reflexivity|now rewrite IH].
Qed.

Lemma os_path_join_dsm (a : string) (row col : Z) :
  os_path_join a (dsm_chunk_name row col) =
  (path_prefix a ++ dsm_chunk_name row col)%string.
Proof.
  unfold os_path_join, path_prefix, dsm_chunk_name. cbn [String.append].
  destruct a as [|c a]; [reflexivity|].
  destruct (ends_with_slash (String c a)); [reflexivity|].
  now rewrite string_append_assoc.
Qed.

Lemma os_path_join_satellite (a : string) (row col : Z) :
  os_path_join a (satellite_chunk_name row col) =
  (path_prefix a ++ satellite_chunk_name row col)%string.
Proof.
  unfold os_path_join, path_prefix, satellite_chunk_name. cbn [String.append].
  destruct a as [|c a]; [reflexivity|].
  destruct (ends_with_slash (String c a)); [reflexivity|].
  now rewrite string_append_assoc.
Qed.

(* ------------------------------------------------------------------ *)
(** ** The run of the chunk splitter                                   *)
(* ------------------------------------------------------------------ *)

Lemma map2_cons_tabulate {A : Type} (f : nat -> nat -> A) (g : nat -> nat -> list A)
  (h w : nat) :
  map2 (map2 cons) (tabulate h w f) (tabulate h w g) =
  tabulate h w (fun i j => f i j :: g i j).
Proof.
  unfold tabulate. rewrite map2_map_seq.
  apply map_ext. intros i. apply map2_map_seq.
Qed.

Lemma moveaxis3_tabulate {A : Type} (f1 f2 f3 : nat -> nat -> A) (h w : nat) :
  Np.moveaxis_0_last [tabulate h w f1; tabulate h w f2; tabulate h w f3] =
  tabulate h w (fun i j => [f1 i j; f2 i j; f3 i j]).
Proof.
  cbn [Np.moveaxis_0_last].
  rewrite map_map_tabulate.
  now rewrite !map2_cons_tabulate.
Qed.

Lemma take_handle_add_events (w : World) (evs : list event) :
  take_handle (add_events w evs) = add_events (take_handle w) evs.
Proof. reflexivity. Qed.

Section Splitter.

Context {RT : Runtime}.

Lemma read_window_rgb_run (satellite : Handle) (sw : Window) (w : World) :
  3 <= count (ds satellite) ->
  read_window satellite [1; 2; 3] sw (nodata (ds satellite)) w =
  (Ok (map (fun band => tabulate (fst (window_shape sw)) (snd (window_shape sw))
                          (read_px (ds satellite) band sw (nodata (ds satellite))))
           [1; 2; 3]),
   add_events w [Read (hid satellite) [1; 2; 3] (Some sw)]).
Proof.
  intros Hc. unfold read_window. cbn [forallb].
  replace ((1 <=? 1) && (1 <=? count (ds satellite))) with true
    by (symmetry; apply andb_true_iff; split; apply Z.leb_le; lia).
  replace ((1 <=? 2) && (2 <=? count (ds satellite))) with true
    by (symmetry; apply andb_true_iff; split; apply Z.leb_le; lia).
  replace ((1 <=? 3) && (3 <=? count (ds satellite))) with true
    by (symmetry; apply andb_true_iff; split; apply Z.leb_le; lia).
  cbn [andb]. unfold iobind. now rewrite log_run.
Qed.

Lemma read_window_rgb_fails (satellite : Handle) (sw : Window) (w : World) :
  count (ds satellite) < 3 ->
  read_window satellite [1; 2; 3] sw (nodata (ds satellite)) w =
  (Raise (IndexError "band index out of range"), w).
Proof.
  intros Hc. unfold read_window. cbn [forallb].
  replace ((1 <=? 3) && (3 <=? count (ds satellite))) with false
    by (symmetry; apply andb_false_iff; right; apply Z.leb_gt; lia).
  now rewrite !andb_false_r.
Qed.

(** One cell: a window read of the color raster and two saved tiles. *)
Lemma export_chunk_run (dsm satellite : Handle) (scaled_dsm : list (list Z))
  (dsm_nodata : option num) (output_folder : string)
  (left_ bottom_ chunk_width chunk_height : Q) (row col : Z)
  (dw sw : Window) (w : World) :
  3 <= count (ds satellite) ->
  window_of (ds dsm) (chunk_bounds left_ bottom_ chunk_width chunk_height row col)
    = Ok dw ->
  window_of (ds satellite) (chunk_bounds left_ bottom_ chunk_width chunk_height row col)
    = Ok sw ->
  export_chunk dsm satellite scaled_dsm dsm_nodata output_folder
    left_ bottom_ chunk_width chunk_height row col w =
  (Ok tt,
   add_events w
     [Read (hid satellite) [1; 2; 3] (Some sw);
      SavePng (os_path_join output_folder (dsm_chunk_name row col))
        (ImageI16 (elevation_tile scaled_dsm dsm_nodata dw));
      SavePng (os_path_join output_folder (satellite_chunk_name row col))
        (ImageRGB (color_tile (ds satellite) sw))]).
Proof.
  intros Hc Hdw Hsw.
  unfold export_chunk, window_of, chunk_bounds in *.
  unfold iobind at 1. unfold lift at 1. rewrite Hdw.
  unfold iobind at 1. unfold lift at 1. rewrite Hsw.
  unfold iobind at 1. rewrite read_window_rgb_run by exact Hc.
  unfold iobind at 1. unfold save_dsm_chunk_png. rewrite log_run.
  unfold save_rgb_chunk_png. rewrite log_run.
  rewrite !add_events_app. cbn [map app].
  rewrite moveaxis3_tabulate, map_map_tabulate.
  reflexivity.
Qed.

(** A cell of a color raster with fewer than three bands: the window
    read raises and nothing is saved. *)
Lemma export_chunk_fails (dsm satellite : Handle) (scaled_dsm : list (list Z))
  (dsm_nodata : option num) (output_folder : string)
  (left_ bottom_ chunk_width chunk_height : Q) (row col : Z)
  (dw sw : Window) (w : World) :
  count (ds satellite) < 3 ->
  window_of (ds dsm) (chunk_bounds left_ bottom_ chunk_width chunk_height row col)
    = Ok dw ->
  window_of (ds satellite) (chunk_bounds left_ bottom_ chunk_width chunk_height row col)
    = Ok sw ->
  export_chunk dsm satellite scaled_dsm dsm_nodata output_folder
    left_ bottom_ chunk_width chunk_height row col w =
  (Raise (IndexError "band index out of range"), w).
Proof.
  intros Hc Hdw Hsw.
  unfold export_chunk, window_of, chunk_bounds in *.
  unfold iobind at 1. unfold lift at 1. rewrite Hdw.
  unfold iobind at 1. unfold lift at 1. rewrite Hsw.
  unfold iobind at 1. now rewrite read_window_rgb_fails by exact Hc.
Qed.

End Splitter.

Section Grid.

Context {RT : Runtime}.
Variables (dsm satellite : Handle) (output_folder : string) (n_rows n_cols : Z).
Hypothesis Hbands : 3 <= count (ds satellite).
Hypothesis Hwin : forall d l b r t, exists win, window d l b r t = Ok win.

Local Abbreviation left_ :=
  (max2 (left (bounds (ds dsm))) (left (bounds (ds satellite)))).
Local Abbreviation right_ :=
  (min2 (right (bounds (ds dsm))) (right (bounds (ds satellite)))).
Local Abbreviation bottom_ :=
  (max2 (bottom (bounds (ds dsm))) (bottom (bounds (ds satellite)))).
Local Abbreviation top_ :=
  (min2 (top (bounds (ds dsm))) (top (bounds (ds satellite)))).
Local Abbreviation chunk_width := ((right_ - left_) / inject_Z n_cols)%Q.
Local Abbreviation chunk_height := ((top_ - bottom_) / inject_Z n_rows)%Q.

Lemma geo_cell_chunk_bounds (row col : Z) :
  geo_cell (ds dsm) (ds satellite) n_rows n_cols row col =
  chunk_bounds left_ bottom_ chunk_width chunk_height row col.
Proof. reflexivity. Qed.

Lemma window_of_ok (d : Dataset) (cell : Q * Q * Q * Q) :
  exists win, window_of d cell = Ok win.
Proof.
  destruct cell as [[[l b] r] t]. apply Hwin.
Qed.

Lemma cell_run (row col : Z) (w : World) :
  export_chunk dsm satellite (rescaled (ds dsm)) (nodata (ds dsm)) output_folder
    left_ bottom_ chunk_width chunk_height row col w =
  (Ok tt, add_events w (cell_events dsm satellite output_folder n_rows n_cols row col)).
Proof.
  destruct (window_of_ok (ds dsm)
              (chunk_bounds left_ bottom_ chunk_width chunk_height row col))
    as (dw & Hdw).
  destruct (window_of_ok (ds satellite)
              (chunk_bounds left_ bottom_ chunk_width chunk_height row col))
    as (sw & Hsw).
  rewrite (export_chunk_run _ _ _ _ _ _ _ _ _ _ _ dw sw w Hbands Hdw Hsw).
  unfold cell_events. rewrite geo_cell_chunk_bounds, Hdw, Hsw.
  reflexivity.
Qed.

Lemma cols_loop (row : Z) (cols : list Z) (w : World) :
  for_ cols (fun col =>
    export_chunk dsm satellite (rescaled (ds dsm)) (nodata (ds dsm)) output_folder
      left_ bottom_ chunk_width chunk_height row col) w =
  (Ok tt,
   add_events w
     (flat_map (fun col => cell_events dsm satellite output_folder n_rows n_cols row col)
               cols)).
Proof.
  revert w. induction cols as [|col cols IH]; intros w.
  - simpl. now rewrite add_events_nil.
  - cbn [for_ flat_map]. unfold iobind at 1.
    rewrite cell_run, IH. now rewrite add_events_app.
Qed.

Lemma rows_loop (rows : list Z) (w : World) :
  0 < n_cols ->
  for_ rows (fun row =>
    cols <~ lift (Py.range 0 n_cols 1) ;;
    for_ cols (fun col =>
      export_chunk dsm satellite (rescaled (ds dsm)) (nodata (ds dsm)) output_folder
        left_ bottom_ chunk_width chunk_height row col)) w =
  (Ok tt,
   add_events w
     (flat_map (fun row =>
                  flat_map (fun col =>
                              cell_events dsm satellite output_folder
                                n_rows n_cols row col)
                           (offsets n_cols 1))
               rows)).
Proof.
  intros Hc. revert w. induction rows as [|row rows IH]; intros w.
  - simpl. now rewrite add_events_nil.
  - cbn [for_ flat_map]. unfold iobind at 1. unfold iobind at 1, lift at 1.
    rewrite range_offsets at 1 by lia.
    rewrite cols_loop. cbv beta iota.
    rewrite IH. now rewrite add_events_app.
Qed.

End Grid.

Ltac run_rescale Hd Hok :=
  match goal with
  | |- context [rescale_dsm_global ?p ?w0] =>
      rewrite (rescale_dsm_global_run p _ w0 Hd Hok)
  end.

Ltac run_open H :=
  match goal with
  | |- context [rasterio_open ?p ?w0] => rewrite (rasterio_open_run p _ w0 H)
  end.

Lemma String_eqb_refl_true (s : string) : String.eqb s s = true.
Proof. apply String.eqb_eq. reflexivity. Qed.

(** The full run on two mosaics of one coordinate system, the color
    mosaic having at least three bands. *)
Lemma generate_chunks_run {RT : Runtime}
  (dsm_path satellite_path output_folder : string) (n_rows n_cols : Z)
  (d s : Dataset) (w : World) :
  splittable w dsm_path satellite_path d s ->
  crs d = crs s ->
  3 <= count s ->
  1 <= n_rows ->
  1 <= n_cols ->
  generate_chunks dsm_path satellite_path output_folder n_rows n_cols w =
  (Ok output_folder,
   add_events (take_handle (take_handle (take_handle w)))
     (Makedirs output_folder
      :: rescale_events (next_handle w) dsm_path
      ++ [Open (S (next_handle w)) dsm_path;
          Open (S (S (next_handle w))) satellite_path]
      ++ grid_events {| hid := S (next_handle w); ds := d |}
                     {| hid := S (S (next_handle w)); ds := s |}
                     output_folder n_rows n_cols
      ++ [Close (S (S (next_handle w))); Close (S (next_handle w))])).
Proof.
  intros (Hd & Hs & Hok & Hwin) Hcrs Hbands Hr Hc.
  unfold generate_chunks.
  unfold iobind at 1. rewrite log_run.
  unfold iobind at 1.
  run_rescale Hd Hok.
  cbn [fst snd].
  unfold iobind at 1.
  run_open Hd.
  unfold iobind at 1, with_ at 1. cbn [hid ds].
  unfold iobind at 1.
  run_open Hs.
  unfold with_ at 1. cbn [hid ds].
  rewrite Hcrs, String_eqb_refl_true. cbn [negb].
  unfold common_bbox.
  unfold iobind at 1. unfold lift at 1.
  rewrite truediv_ok by (apply inject_Z_nonzero; lia).
  unfold iobind at 1. unfold lift at 1.
  rewrite truediv_ok by (apply inject_Z_nonzero; lia).
  unfold iobind at 1. unfold lift at 1.
  rewrite range_offsets at 1 by lia.
  rewrite (rows_loop {| hid := S (next_handle w); ds := d |}
             {| hid := S (S (next_handle w)); ds := s |}
             output_folder n_rows n_cols Hbands Hwin) by lia.
  unfold close. rewrite !log_run. cbn [ret].
  rewrite !take_handle_add_events, !add_events_app.
  unfold grid_events. cbn [app next_handle take_handle add_events].
  rewrite <- ?app_assoc. reflexivity.
Qed.

(* ------------------------------------------------------------------ *)
(** ** The cells of the grid                                           *)
(* ------------------------------------------------------------------ *)

Lemma offsets_unit_iff (n y : Z) : In y (offsets n 1) <-> 0 <= y < n.
Proof.
  split.
  - apply offsets_in. lia.
  - intros Hy. destruct (offsets_cover n 1 y ltac:(lia) Hy) as [Hin _].
    now rewrite Z.div_1_r, Z.mul_1_l in Hin.
Qed.

Lemma offsets_NoDup (n : Z) : NoDup (offsets n 1).
Proof.
  unfold offsets.
  apply NoDup_map_NoDup_ForallPairs; [|apply seq_NoDup].
  intros a b _ _ E. lia.
Qed.

Lemma offsets_length (n : Z) : length (offsets n 1) = Z.to_nat n.
Proof.
  unfold offsets. rewrite length_map, length_seq.
  now rewrite Z.div_1_r, Z.sub_0_r, Z.add_simpl_r.
Qed.

Lemma NoDup_list_prod {A B : Type} (l : list A) (l' : list B) :
  NoDup l -> NoDup l' -> NoDup (list_prod l l').
Proof.
  intros Hl Hl'. induction Hl as [|x t Hx _ IH]; simpl; [constructor|].
  apply NoDup_app.
  - apply NoDup_map_NoDup_ForallPairs; [|exact Hl'].
    intros a b _ _ E. congruence.
  - exact IH.
  - intros [a b] Hin1 Hin2.
    apply in_map_iff in Hin1. destruct Hin1 as (y & E & _).
    injection E as <- _.
    apply in_prod_iff in Hin2. tauto.
Qed.

Lemma grid_cells_iff (n_rows n_cols row col : Z) :
  In (row, col) (grid_cells n_rows n_cols) <->
  0 <= row < n_rows /\ 0 <= col < n_cols.
Proof.
  unfold grid_cells. rewrite in_prod_iff, !offsets_unit_iff. reflexivity.
Qed.

Lemma grid_cells_NoDup (n_rows n_cols : Z) : NoDup (grid_cells n_rows n_cols).
Proof.
  apply NoDup_list_prod; apply offsets_NoDup.
Qed.

Lemma grid_cells_length (n_rows n_cols : Z) :
  0 <= n_rows -> 0 <= n_cols ->
  length (grid_cells n_rows n_cols) = Z.to_nat (n_rows * n_cols).
Proof.
  intros Hr Hc. unfold grid_cells.
  rewrite length_prod, !offsets_length. lia.
Qed.

Lemma saved_app (a b : list event) : saved (a ++ b) = saved a ++ saved b.
Proof.
  induction a as [|e a IH]; [reflexivity|].
  destruct e; simpl; rewrite ?IH; reflexivity.
Qed.

Lemma saved_elevation_app (a b : list event) :
  saved_elevation (a ++ b) = saved_elevation a ++ saved_elevation b.
Proof.
  induction a as [|e a IH]; [reflexivity|].
  destruct e as [| | | | | |path [px|px]]; simpl; rewrite ?IH; reflexivity.
Qed.

Lemma saved_color_app (a b : list event) :
  saved_color (a ++ b) = saved_color a ++ saved_color b.
Proof.
  induction a as [|e a IH]; [reflexivity|].
  destruct e as [| | | | | |path [px|px]]; simpl; rewrite ?IH; reflexivity.
Qed.

Section GridFiles.

Context {RT : Runtime}.
Variables (dsm satellite : Handle) (output_folder : string) (n_rows n_cols : Z).
Hypothesis Hwin : forall d l b r t, exists win, window d l b r t = Ok win.

Lemma cell_events_shape (row col : Z) :
  exists dw sw,
    window_of (ds dsm) (geo_cell (ds dsm) (ds satellite) n_rows n_cols row col) = Ok dw /\
    window_of (ds satellite) (geo_cell (ds dsm) (ds satellite) n_rows n_cols row col)
      = Ok sw /\
    cell_events dsm satellite output_folder n_rows n_cols row col =
    [Read (hid satellite) [1; 2; 3] (Some sw);
     SavePng (os_path_join output_folder (dsm_chunk_name row col))
       (ImageI16 (elevation_tile (rescaled (ds dsm)) (nodata (ds dsm)) dw));
     SavePng (os_path_join output_folder (satellite_chunk_name row col))
       (ImageRGB (color_tile (ds satellite) sw))].
Proof.
  destruct (window_of_ok Hwin (ds dsm)
              (geo_cell (ds dsm) (ds satellite) n_rows n_cols row col)) as (dw & Hdw).
  destruct (window_of_ok Hwin (ds satellite)
              (geo_cell (ds dsm) (ds satellite) n_rows n_cols row col)) as (sw & Hsw).
  exists dw, sw. split; [exact Hdw|]. split; [exact Hsw|].
  unfold cell_events. now rewrite Hdw, Hsw.
Qed.

Lemma grid_saved_elevation :
  saved_elevation (grid_events dsm satellite output_folder n_rows n_cols) =
  map (fun rc => os_path_join output_folder (dsm_chunk_name (fst rc) (snd rc)))
      (grid_cells n_rows n_cols).
Proof.
  unfold grid_events, grid_cells.
  induction (offsets n_rows 1) as [|row rows IH]; [reflexivity|].
  cbn [flat_map list_prod]. rewrite saved_elevation_app, map_app, IH. f_equal.
  rewrite map_map. cbn [fst snd]. clear IH.
  induction (offsets n_cols 1) as [|col cols IHc]; [reflexivity|].
  cbn [flat_map map]. rewrite saved_elevation_app, IHc. f_equal.
  destruct (cell_events_shape row col) as (dw & sw & _ & _ & ->). reflexivity.
Qed.

Lemma grid_saved_color :
  saved_color (grid_events dsm satellite output_folder n_rows n_cols) =
  map (fun rc => os_path_join output_folder (satellite_chunk_name (fst rc) (snd rc)))
      (grid_cells n_rows n_cols).
Proof.
  unfold grid_events, grid_cells.
  induction (offsets n_rows 1) as [|row rows IH]; [reflexivity|].
  cbn [flat_map list_prod]. rewrite saved_color_app, map_app, IH. f_equal.
  rewrite map_map. cbn [fst snd]. clear IH.
  induction (offsets n_cols 1) as [|col cols IHc]; [reflexivity|].
  cbn [flat_map map]. rewrite saved_color_app, IHc. f_equal.
  destruct (cell_events_shape row col) as (dw & sw & _ & _ & ->). reflexivity.
Qed.

Lemma elevation_paths_NoDup :
  NoDup (map (fun rc => os_path_join output_folder (dsm_chunk_name (fst rc) (snd rc)))
             (grid_cells n_rows n_cols)).
Proof.
  apply NoDup_map_NoDup_ForallPairs; [|apply grid_cells_NoDup].
  intros [r c] [r' c'] Hin Hin' E. cbn [fst snd] in E.
  apply grid_cells_iff in Hin, Hin'.
  rewrite !os_path_join_dsm in E. apply append_inj_l in E.
  apply dsm_chunk_name_inj in E; try lia.
  destruct E; congruence.
Qed.

Lemma color_paths_NoDup :
  NoDup (map (fun rc => os_path_join output_folder
                          (satellite_chunk_name (fst rc) (snd rc)))
             (grid_cells n_rows n_cols)).
Proof.
  apply NoDup_map_NoDup_ForallPairs; [|apply grid_cells_NoDup].
  intros [r c] [r' c'] Hin Hin' E. cbn [fst snd] in E.
  apply grid_cells_iff in Hin, Hin'.
  rewrite !os_path_join_satellite in E. apply append_inj_l in E.
  apply satellite_chunk_name_inj in E; try lia.
  destruct E; congruence.
Qed.

End GridFiles.

Lemma Qsum_const (A : Type) (f : A -> Q) (c : Q) (l : list A) :
  (forall x, In x l -> (f x == c)%Q) ->
  (Qsum (map f l) == inject_Z (Z.of_nat (length l)) * c)%Q.
Proof.
  induction l as [|x l IH]; intros Hf.
  - simpl. now rewrite Qmult_0_l.
  - cbn [map Qsum length].
    rewrite IH by (intros y Hy; apply Hf; now right).
    rewrite (Hf x) by now left.
    rewrite Nat2Z.inj_succ. unfold Z.succ. rewrite inject_Z_plus.
    ring.
Qed.

(** The widths of the cells of a row add up to the width of the common
    bounding box. *)
Lemma cell_widths_sum (d s : Dataset) (n_rows n_cols row : Z) :
  1 <= n_cols ->
  (Qsum (map (fun col => cell_width (geo_cell d s n_rows n_cols row col))
             (offsets n_cols 1)) ==
   let '(left_, _, right_, _) := common_bbox d s in right_ - left_)%Q.
Proof.
  intros Hc.
  set (l := max2 (left (bounds d)) (left (bounds s))).
  set (r := min2 (right (bounds d)) (right (bounds s))).
  rewrite (Qsum_const _ _ ((r - l) / inject_Z n_cols)%Q).
  - rewrite offsets_length. rewrite Z2Nat.id by lia.
    unfold common_bbox. fold l r. cbv zeta. field.
    apply inject_Z_nonzero. lia.
  - intros col _. unfold geo_cell, common_bbox, chunk_bounds, cell_width.
    fold l r. cbv zeta. ring.
Qed.

Lemma elevation_color_paths_differ (output_folder : string) (row col row' col' : Z) :
  os_path_join output_folder (dsm_chunk_name row col) <>
  os_path_join output_folder (satellite_chunk_name row' col').
Proof.
  rewrite os_path_join_dsm, os_path_join_satellite.
  intros E. apply append_inj_l in E. discriminate.
Qed.

Lemma example_splittable :
  @splittable example_runtime example_world "grid.tif" "color.tif"
    example_grid example_color.
Proof.
  repeat split; try reflexivity; try (simpl; lia).
  intros d l b r t. eexists. reflexivity.
Qed.

(** The successful run saves one color tile per cell. *)
Lemma grid_run_color_count {RT : Runtime}
  (dsm_path satellite_path output_folder : string) (n_rows n_cols : Z)
  (d s : Dataset) (w : World) :
  splittable w dsm_path satellite_path d s ->
  crs d = crs s ->
  3 <= count s ->
  1 <= n_rows ->
  1 <= n_cols ->
  generate_chunks dsm_path satellite_path output_folder n_rows n_cols w =
  (Ok output_folder,
   add_events (take_handle (take_handle (take_handle w)))
     (Makedirs output_folder
      :: rescale_events (next_handle w) dsm_path
      ++ [Open (S (next_handle w)) dsm_path;
          Open (S (S (next_handle w))) satellite_path]
      ++ grid_events {| hid := S (next_handle w); ds := d |}
                     {| hid := S (S (next_handle w)); ds := s |}
                     output_folder n_rows n_cols
      ++ [Close (S (S (next_handle w))); Close (S (next_handle w))])) /\
  length (saved_color
            (Makedirs output_folder
             :: rescale_events (next_handle w) dsm_path
             ++ [Open (S (next_handle w)) dsm_path;
                 Open (S (S (next_handle w))) satellite_path]
             ++ grid_events {| hid := S (next_handle w); ds := d |}
                            {| hid := S (S (next_handle w)); ds := s |}
                            output_folder n_rows n_cols
             ++ [Close (S (S (next_handle w))); Close (S (next_handle w))])) =
  Z.to_nat (n_rows * n_cols).
Proof.
  intros Hsp Hcrs Hbands Hr Hc.
  split; [now apply generate_chunks_run|].
  destruct Hsp as (_ & _ & _ & Hwin).
  cbn [saved_color rescale_events app].
  rewrite saved_color_app. cbn [saved_color].
  rewrite app_nil_r, grid_saved_color by exact Hwin.
  rewrite length_map. apply grid_cells_length; lia.
Qed.



(* ------------------------------------------------------------------ *)
(** ** Runs of the splitter that stop before the first tile            *)
(* ------------------------------------------------------------------ *)

Lemma offsets_unit_cons (n : Z) : 1 <= n -> exists tl, offsets n 1 = 0 :: tl.
Proof.
  intros Hn. unfold offsets.
  rewrite Z.div_1_r, Z.sub_0_r, Z.add_simpl_r.
  destruct (Z.to_nat n) as [|k] eqn:E; [lia|].
  eexists. reflexivity.
Qed.

Lemma generate_chunks_mismatch_run {RT : Runtime}
  (dsm_path satellite_path output_folder : string) (n_rows n_cols : Z)
  (d s : Dataset) (w : World) :
  fs w dsm_path = Some d ->
  fs w satellite_path = Some s ->
  raster_ok d ->
  crs d <> crs s ->
  generate_chunks dsm_path satellite_path output_folder n_rows n_cols w =
  (Raise (ValueError "CRS mismatch between DSM and Satellite rasters"),
   add_events (take_handle (take_handle (take_handle w)))
     (aborted_events (next_handle w) dsm_path satellite_path output_folder)).
Proof.
  intros Hd Hs Hok Hcrs.
  unfold generate_chunks.
  unfold iobind at 1. rewrite log_run.
  unfold iobind at 1.
  run_rescale Hd Hok.
  cbn [fst snd].
  unfold iobind at 1.
  run_open Hd.
  unfold iobind at 1, with_ at 1. cbn [hid ds].
  unfold iobind at 1.
  run_open Hs.
  unfold with_ at 1. cbn [hid ds].
  replace (String.eqb (crs d) (crs s)) with false
    by (symmetry; now apply String.eqb_neq).
  cbn [negb lift].
  unfold close. rewrite !log_run.
  rewrite !take_handle_add_events, !add_events_app.
  unfold aborted_events. cbn [app next_handle take_handle add_events].
  rewrite <- ?app_assoc. reflexivity.
Qed.

Lemma generate_chunks_two_bands_run {RT : Runtime}
  (dsm_path satellite_path output_folder : string) (n_rows n_cols : Z)
  (d s : Dataset) (w : World) :
  splittable w dsm_path satellite_path d s ->
  crs d = crs s ->
  count s < 3 ->
  1 <= n_rows ->
  1 <= n_cols ->
  generate_chunks dsm_path satellite_path output_folder n_rows n_cols w =
  (Raise (IndexError "band index out of range"),
   add_events (take_handle (take_handle (take_handle w)))
     (aborted_events (next_handle w) dsm_path satellite_path output_folder)).
Proof.
  intros (Hd & Hs & Hok & Hwin) Hcrs Hbands Hr Hc.
  unfold generate_chunks.
  unfold iobind at 1. rewrite log_run.
  unfold iobind at 1.
  run_rescale Hd Hok.
  cbn [fst snd].
  unfold iobind at 1.
  run_open Hd.
  unfold iobind at 1, with_ at 1. cbn [hid ds].
  unfold iobind at 1.
  run_open Hs.
  unfold with_ at 1. cbn [hid ds].
  rewrite Hcrs, String_eqb_refl_true. cbn [negb].
  unfold common_bbox.
  unfold iobind at 1. unfold lift at 1.
  rewrite truediv_ok by (apply inject_Z_nonzero; lia).
  unfold iobind at 1. unfold lift at 1.
  rewrite truediv_ok by (apply inject_Z_nonzero; lia).
  unfold iobind at 1. unfold lift at 1.
  rewrite range_offsets at 1 by lia.
  destruct (offsets_unit_cons n_rows Hr) as (rows & ->).
  cbn [for_]. unfold iobind at 1. unfold iobind at 1. unfold lift at 1.
  rewrite range_offsets at 1 by lia.
  destruct (offsets_unit_cons n_cols Hc) as (cols & ->).
  cbn [for_]. unfold iobind at 1.
  match goal with
  | |- context [export_chunk ?a ?b ?c ?e ?f ?l ?bt ?cw ?ch 0 0 ?wd] =>
      destruct (window_of_ok Hwin (ds a) (chunk_bounds l bt cw ch 0 0)) as (dw & Hdw);
      destruct (window_of_ok Hwin (ds b) (chunk_bounds l bt cw ch 0 0)) as (sw & Hsw);
      rewrite (export_chunk_fails a b c e f l bt cw ch 0 0 dw sw wd Hbands Hdw Hsw)
  end.
  unfold close. rewrite !log_run.
  rewrite !take_handle_add_events, !add_events_app.
  unfold aborted_events. cbn [app next_handle take_handle add_events].
  rewrite <- ?app_assoc. reflexivity.
Qed.

(* ------------------------------------------------------------------ *)
(** ** Orientation of the rows                                         *)
(* ------------------------------------------------------------------ *)

(** C2, as the code has it.  Over a common bounding box of positive
    height, the cell with row index 0 covers the bottom strip (it starts
    at the box's least geographic y), every next row sits on top of the
    one before, the last row ends at the box's top edge, and the row
    index increases as geographic y increases. *)
Theorem geo_cell_rows_bottom_up (d s : Dataset) (n_rows n_cols col : Z) :
  1 <= n_rows ->
  (bbox_bottom d s < bbox_top d s)%Q ->
  (cell_bottom (geo_cell d s n_rows n_cols 0 col) == bbox_bottom d s)%Q /\
  (cell_top (geo_cell d s n_rows n_cols (n_rows - 1) col) == bbox_top d s)%Q /\
  (forall row,
      (cell_bottom (geo_cell d s n_rows n_cols (row + 1) col) ==
       cell_top (geo_cell d s n_rows n_cols row col))%Q) /\
  (forall row,
      (cell_bottom (geo_cell d s n_rows n_cols row col) <
       cell_top (geo_cell d s n_rows n_cols row col))%Q) /\
  (forall row row', row < row' ->
      (cell_bottom (geo_cell d s n_rows n_cols row col) <
       cell_bottom (geo_cell d s n_rows n_cols row' col))%Q).
Proof.
  intros Hr Hbt.
  unfold bbox_bottom, bbox_top, geo_cell, common_bbox, chunk_bounds,
    cell_bottom, cell_top in *.
  set (b := max2 (bottom (bounds d)) (bottom (bounds s))) in *.
  set (t := min2 (top (bounds d)) (top (bounds s))) in *.
  cbv zeta.
  assert (Hn : ~ (inject_Z n_rows == 0)%Q) by (apply inject_Z_nonzero; lia).
  assert (Hh : (0 < (t - b) / inject_Z n_rows)%Q).
  { apply Qdiv_pos; [now apply Qminus_pos|].
    change 0%Q with (inject_Z 0). rewrite <- Zlt_Qlt. lia. }
  split; [ring|].
  split.
  { unfold Z.sub. rewrite inject_Z_plus, inject_Z_opp.
    change (inject_Z 1) with 1%Q. field. exact Hn. }
  split.
  { intros row. rewrite inject_Z_plus. change (inject_Z 1) with 1%Q. ring. }
  split.
  { intros row.
    rewrite <- (Qplus_0_r (b + inject_Z row * ((t - b) / inject_Z n_rows))) at 1.
    apply Qplus_lt_r. exact Hh. }
  intros row row' Hlt.
  apply Qplus_lt_r.
  apply Qmult_lt_compat_r; [exact Hh|].
  now rewrite <- Zlt_Qlt.
Qed.

(** C2, witness: the example mosaics, two rows. *)
Lemma geo_cell_rows_bottom_up_witness :
  (cell_bottom (geo_cell example_grid example_color 2 1 0 0) ==
   bbox_bottom example_grid example_color)%Q /\
  (cell_top (geo_cell example_grid example_color 2 1 1 0) ==
   bbox_top example_grid example_color)%Q.
Proof.
  destruct (geo_cell_rows_bottom_up example_grid example_color 2 1 0)
    as (H0 & H1 & _).
  - lia.
  - reflexivity.
  - split; [exact H0|exact H1].
Defined.

(** C2, counterexample to "row 0 is the top".  The example mosaics
    cover y from 0 to 4.  With two rows, the cell of row 0 spans y from
    0 to 2, the bottom half, and its top edge is not the box's top
    edge; the cell of row 1 lies above it.  The elevation tile saved as
    row 0 holds the raster's bottom pixel row (30 and 40, rescaled),
    the tile saved as row 1 its top pixel row (10 and 20). *)
Lemma generate_chunks_row_zero_counterexample :
  crs example_grid = crs example_color /\
  (bbox_bottom example_grid example_color == 0)%Q /\
  (bbox_top example_grid example_color == 4)%Q /\
  (cell_bottom (geo_cell example_grid example_color 2 1 0 0) == 0)%Q /\
  (cell_top (geo_cell example_grid example_color 2 1 0 0) == 2)%Q /\
  ~ (cell_top (geo_cell example_grid example_color 2 1 0 0) ==
     bbox_top example_grid example_color)%Q /\
  (cell_bottom (geo_cell example_grid example_color 2 1 0 0) <
   cell_bottom (geo_cell example_grid example_color 2 1 1 0))%Q /\
  @rescaled example_runtime example_grid = [[0; 21845]; [43690; 65535]] /\
  In ("out/dsm_r000_c000.png"%string, ImageI16 [[43690; 65535]])
     (saved (trace (snd (@generate_chunks example_runtime "grid.tif" "color.tif"
                           "out" 2 1 example_world)))) /\
  In ("out/dsm_r001_c000.png"%string, ImageI16 [[0; 21845]])
     (saved (trace (snd (@generate_chunks example_runtime "grid.tif" "color.tif"
                           "out" 2 1 example_world)))).
Proof.
  split; [reflexivity|].
  split; [reflexivity|].
  split; [reflexivity|].
  split; [reflexivity|].
  split; [reflexivity|].
  split; [discriminate|].
  split; [reflexivity|].
  split; [vm_compute; reflexivity|].
  split; vm_compute; tauto.
Qed.

(* ------------------------------------------------------------------ *)
(** ** The coordinate-system check                                     *)
(* ------------------------------------------------------------------ *)

(** C6, as the code has it.  When the coordinate systems of the two
    mosaics differ, [generate_chunks] fails with the mismatch error and
    saves no tile.  The check comes after the output folder was made,
    the elevation raster was opened, read in full, rescaled and closed,
    and both mosaics were opened; it comes before any window is read.
    Both mosaics are closed when the error leaves. *)
Theorem generate_chunks_crs_mismatch {RT : Runtime}
  (dsm_path satellite_path output_folder : string) (n_rows n_cols : Z)
  (d s : Dataset) (w : World) :
  fs w dsm_path = Some d ->
  fs w satellite_path = Some s ->
  raster_ok d ->
  crs d <> crs s ->
  exists w' new,
    generate_chunks dsm_path satellite_path output_folder n_rows n_cols w =
      (Raise (ValueError "CRS mismatch between DSM and Satellite rasters"), w') /\
    trace w' = trace w ++ new /\
    new = [Makedirs output_folder;
           Open (next_handle w) dsm_path;
           Read (next_handle w) [1] None;
           Close (next_handle w);
           Open (S (next_handle w)) dsm_path;
           Open (S (S (next_handle w))) satellite_path;
           Close (S (S (next_handle w)));
           Close (S (next_handle w))] /\
    saved new = [] /\
    (forall h idx win, ~ In (Read h idx (Some win)) new) /\
    existsb is_raster_io new = true.
Proof.
  intros Hd Hs Hok Hcrs.
  eexists. eexists.
  split; [exact (generate_chunks_mismatch_run dsm_path satellite_path output_folder
                   n_rows n_cols d s w Hd Hs Hok Hcrs)|].
  split; [reflexivity|].
  split; [reflexivity|].
  split; [reflexivity|].
  split; [|reflexivity].
  intros h idx win Hin.
  unfold aborted_events, rescale_events in Hin. cbn [app In] in Hin.
  repeat (destruct Hin as [Hin|Hin]; [discriminate|]).
  exact Hin.
Qed.

(** C6, witness: the example elevation mosaic and the color mosaic in
    another coordinate system. *)
Lemma generate_chunks_crs_mismatch_witness :
  exists w',
    @generate_chunks example_runtime "grid.tif" "color84.tif" "out" 2 2 example_world =
      (Raise (ValueError "CRS mismatch between DSM and Satellite rasters"), w') /\
    saved (trace w') = [].
Proof.
  destruct (@generate_chunks_crs_mismatch example_runtime "grid.tif" "color84.tif"
              "out" 2 2 example_grid example_color_wgs84 example_world)
    as (w' & new & Hrun & Htr & _ & Hsaved & _).
  - reflexivity.
  - reflexivity.
  - unfold raster_ok. simpl. lia.
  - discriminate.
  - exists w'. split; [exact Hrun|]. rewrite Htr. exact Hsaved.
Defined.

(** C6, counterexample to "before any raster I/O".  On the example
    mosaics with different coordinate systems the run fails with the
    mismatch error, and by then it has opened the elevation raster and
    read its band 1 in full, and has opened both mosaics. *)
Lemma generate_chunks_crs_mismatch_counterexample :
  crs example_grid <> crs example_color_wgs84 /\
  fst (@generate_chunks example_runtime "grid.tif" "color84.tif" "out" 2 2
         example_world) =
    Raise (ValueError "CRS mismatch between DSM and Satellite rasters") /\
  trace (snd (@generate_chunks example_runtime "grid.tif" "color84.tif" "out" 2 2
                example_world)) =
    [Makedirs "out"; Open 0 "grid.tif"; Read 0 [1] None; Close 0;
     Open 1 "grid.tif"; Open 2 "color84.tif"; Close 2; Close 1] /\
  ~ Forall (fun e => is_raster_io e = false)
      (trace (snd (@generate_chunks example_runtime "grid.tif" "color84.tif" "out" 2 2
                     example_world))).
Proof.
  split; [discriminate|].
  split; [vm_compute; reflexivity|].
  split; [vm_compute; reflexivity|].
  intros H.
  assert (E : trace (snd (@generate_chunks example_runtime "grid.tif" "color84.tif"
                            "out" 2 2 example_world)) =
              [Makedirs "out"; Open 0 "grid.tif"; Read 0 [1] None; Close 0;
               Open 1 "grid.tif"; Open 2 "color84.tif"; Close 2; Close 1])
    by (vm_compute; reflexivity).
  rewrite E in H.
  inversion H as [|e l _ H1]; subst.
  inversion H1 as [|e' l' H2 _]; subst.
  discriminate.
Qed.

(* ------------------------------------------------------------------ *)
(** ** The three bands of the color tiles                              *)
(* ------------------------------------------------------------------ *)

Lemma in_run_events (e : event) (h : nat) (dsm_path satellite_path output_folder : string)
  (grid : list event) :
  In e (Makedirs output_folder
        :: rescale_events h dsm_path
        ++ [Open (S h) dsm_path; Open (S (S h)) satellite_path]
        ++ grid
        ++ [Close (S (S h)); Close (S h)]) ->
  In e grid \/
  In e [Makedirs output_folder; Open h dsm_path; Read h [1] None; Close h;
        Open (S h) dsm_path; Open (S (S h)) satellite_path;
        Close (S (S h)); Close (S h)].
Proof.
  unfold rescale_events. cbn [app]. intros Hin.
  repeat (destruct Hin as [Hin|Hin]; [right; subst e; simpl; tauto|]).
  apply in_app_or in Hin. destruct Hin as [Hin|Hin]; [now left|].
  right. simpl in *. tauto.
Qed.

Lemma in_grid_events {RT : Runtime} (dsm satellite : Handle) (output_folder : string)
  (n_rows n_cols : Z) (e : event) :
  (forall d l b r t, exists win, window d l b r t = Ok win) ->
  In e (grid_events dsm satellite output_folder n_rows n_cols) ->
  exists row col dw sw,
    In (row, col) (grid_cells n_rows n_cols) /\
    window_of (ds satellite) (geo_cell (ds dsm) (ds satellite) n_rows n_cols row col)
      = Ok sw /\
    In e [Read (hid satellite) [1; 2; 3] (Some sw);
          SavePng (os_path_join output_folder (dsm_chunk_name row col))
            (ImageI16 (elevation_tile (rescaled (ds dsm)) (nodata (ds dsm)) dw));
          SavePng (os_path_join output_folder (satellite_chunk_name row col))
            (ImageRGB (color_tile (ds satellite) sw))].
Proof.
  intros Hwin Hin. unfold grid_events in Hin.
  apply in_flat_map in Hin. destruct Hin as (row & Hrow & Hin).
  apply in_flat_map in Hin. destruct Hin as (col & Hcol & Hin).
  destruct (cell_events_shape dsm satellite output_folder n_rows n_cols Hwin row col)
    as (dw & sw & _ & Hsw & E).
  rewrite E in Hin.
  exists row, col, dw, sw.
  split; [|split; [exact Hsw|exact Hin]].
  unfold grid_cells. apply in_prod_iff. now split.
Qed.

Lemma color_tile_px {RT : Runtime} (s : Dataset) (sw : Window) (i j : nat) :
  (i < fst (window_shape sw))%nat ->
  (j < snd (window_shape sw))%nat ->
  at2 (color_tile s sw) i j =
  Some [Np.astype_uint8 (read_px s 1 sw (nodata s) i j);
        Np.astype_uint8 (read_px s 2 sw (nodata s) i j);
        Np.astype_uint8 (read_px s 3 sw (nodata s) i j)].
Proof.
  intros Hi Hj. unfold color_tile. now rewrite at2_tabulate by assumption.
Qed.



(* ------------------------------------------------------------------ *)
(** ** Handles and traces                                              *)
(* ------------------------------------------------------------------ *)

Lemma after_zero (w : World) : after w 0 [] = w.
Proof.
  destruct w. unfold after. simpl. now rewrite app_nil_r, Nat.add_0_r.
Qed.

Lemma after_after (w : World) (a b : nat) (e1 e2 : list event) :
  after (after w a e1) b e2 = after w (a + b) (e1 ++ e2).
Proof.
  unfold after. simpl. now rewrite app_assoc, Nat.add_assoc.
Qed.

Lemma add_events_after (w : World) (evs : list event) :
  add_events w evs = after w 0 evs.
Proof.
  unfold add_events, after. now rewrite Nat.add_0_r.
Qed.

Lemma take_handle_after (w : World) : take_handle w = after w 1 [].
Proof.
  unfold take_handle, after. now rewrite app_nil_r, Nat.add_1_r.
Qed.

Lemma open_handles_from_app (a b : list event) (acc : list nat) :
  open_handles_from (a ++ b) acc = open_handles_from b (open_handles_from a acc).
Proof.
  revert acc. induction a as [|e a IH]; intros acc; [reflexivity|].
  destruct e; simpl; apply IH.
Qed.

Lemma filter_fresh (n : nat) (acc : list nat) :
  Forall (fun h => (h < n)%nat) acc ->
  filter (fun k => negb (Nat.eqb k n)) (acc ++ [n]) = acc.
Proof.
  intros H. rewrite filter_app. simpl. rewrite Nat.eqb_refl. simpl.
  rewrite app_nil_r.
  induction H as [|h acc Hh _ IH]; [reflexivity|].
  simpl. destruct (Nat.eqb_spec h n); [lia|]. simpl. now rewrite IH.
Qed.

(* ------------------------------------------------------------------ *)
(** ** Reprojection to a common CRS                                    *)
(* ------------------------------------------------------------------ *)

Section Reproject.

Context {RT : Runtime}.
Variable target_crs : CRS.

Lemma reproject_bands_run (bands : list Z) (mk : Z -> ReprojectArgs) (w : World) :
  (forall band, warp_error (mk band) = None) ->
  for_ bands (fun band => lift (reproject_to_band (mk band))) w = (Ok tt, w).
Proof.
  intros Hwarp.
  induction bands as [|b bands IH]; [reflexivity|].
  cbn [for_]. unfold iobind at 1, lift at 1, reproject_to_band at 1.
  rewrite Hwarp. exact IH.
Qed.

Lemma reproject_loop_run (srcs acc : list Handle) (w : World) :
  (forall s, In s srcs -> needs_reprojection target_crs s = true ->
             dtypes (ds s) <> [] /\
             forall band, warp_error (band_reproject_args target_crs (ds s) band) = None) ->
  (fix loop (srcs : list Handle) (reprojected : list Handle) : IO (list Handle) :=
     match srcs with
     | [] => ret reprojected
     | src :: srcs' =>
         if negb (String.eqb (crs (ds src)) target_crs) then
           dt <~ lift (Py.getitem (dtypes (ds src)) 0) ;;
           let memfile := ("/vsimem/" ++ name (ds src))%string in
           tmp <~ rasterio_create memfile (memfile_profile (ds src) target_crs dt) ;;
           _ <~ with_ tmp
                  (bands <~ lift (Py.range 1 (count (ds src) + 1) 1) ;;
                   for_ bands (fun band =>
                     lift (reproject_to_band
                             {| source := (ds src, band);
                                src_transform := transform (ds src);
                                src_crs := crs (ds src);
                                dst_transform := transform (ds src);
                                dst_crs := target_crs;
                                resampling := bilinear;
                                src_nodata := None;
                                dst_nodata := None |}))) ;;
           h <~ fresh_handle ;;
           _ <~ log (Open h memfile) ;;
           loop srcs' (reprojected ++ [{| hid := h;
                                          ds := memfile_dataset (ds src) target_crs dt |}])
         else
           loop srcs' (reprojected ++ [src])
     end) srcs acc w =
  (Ok (acc ++ reprojected_from target_crs (next_handle w) srcs),
   after w (reprojection_handles target_crs srcs)
     (reprojection_events target_crs (next_handle w) srcs)).
Proof.
  revert acc w.
  induction srcs as [|src srcs IH]; intros acc w Hdt.
  - cbn. now rewrite app_nil_r, after_zero.
  - cbn [reprojected_from reprojection_events reprojection_handles].
    unfold needs_reprojection at 1 2 3.
    destruct (negb (String.eqb (crs (ds src)) target_crs)) eqn:E.
    + destruct (Hdt src (or_introl eq_refl) E) as [Hd Hwarp].
      destruct (dtypes (ds src)) as [|dt dts] eqn:Edt; [congruence|].
      cbn [hd].
      unfold iobind at 1. cbn [lift Py.getitem nth_error].
      unfold rasterio_create.
      unfold iobind at 1. unfold iobind at 1. unfold iobind at 1.
      cbn [fresh_handle]. unfold iobind at 1. rewrite log_run. cbn [ret].
      unfold iobind at 1, with_.
      unfold iobind at 1. unfold Py.range at 1. cbn [Z.eqb Z.ltb Z.compare lift].
      rewrite (reproject_bands_run _
                 (fun band => {| source := (ds src, band);
                                 src_transform := transform (ds src);
                                 src_crs := crs (ds src);
                                 dst_transform := transform (ds src);
                                 dst_crs := target_crs;
                                 resampling := bilinear;
                                 src_nodata := None;
                                 dst_nodata := None |}))
        by exact Hwarp.
      unfold close. rewrite log_run.
      unfold iobind at 1. cbn [fresh_handle].
      unfold iobind at 1. rewrite log_run.
      rewrite IH by (intros s Hs; apply Hdt; now right).
      rewrite <- app_assoc. cbn [app].
      unfold memfile_handle. rewrite Edt. cbn [hd].
      f_equal.
      unfold after, add_events, take_handle. cbn [fs next_handle trace].
      f_equal; [lia|].
      rewrite <- !app_assoc. reflexivity.
    + rewrite IH by (intros s Hs; apply Hdt; now right).
      now rewrite <- app_assoc.
Qed.

Lemma reproject_rasters_to_crs_run (srcs : list Handle) (w : World) :
  (forall s, In s srcs -> needs_reprojection target_crs s = true ->
             dtypes (ds s) <> [] /\
             forall band, warp_error (band_reproject_args target_crs (ds s) band) = None) ->
  reproject_rasters_to_crs srcs target_crs w =
  (Ok (reprojected_from target_crs (next_handle w) srcs),
   after w (reprojection_handles target_crs srcs)
     (reprojection_events target_crs (next_handle w) srcs)).
Proof.
  intros Hdt. unfold reproject_rasters_to_crs.
  now rewrite reproject_loop_run.
Qed.

End Reproject.

Lemma needs_reprojection_iff (target_crs : CRS) (s : Handle) :
  needs_reprojection target_crs s = true <-> crs (ds s) <> target_crs.
Proof.
  unfold needs_reprojection.
  destruct (String.eqb_spec (crs (ds s)) target_crs); simpl; split; congruence.
Qed.

Lemma reprojected_from_grid (target_crs : CRS) (srcs : list Handle) (n : nat) :
  Forall2 (fun s r =>
             crs (ds r) = target_crs /\
             bounds (ds r) = bounds (ds s) /\
             res (ds r) = res (ds s) /\
             transform (ds r) = transform (ds s) /\
             width (ds r) = width (ds s) /\
             height (ds r) = height (ds s) /\
             count (ds r) = count (ds s) /\
             (crs (ds s) = target_crs -> r = s) /\
             (crs (ds s) <> target_crs -> nodata (ds r) = None))
          srcs (reprojected_from target_crs n srcs).
Proof.
  revert n. induction srcs as [|s srcs IH]; intros n; [constructor|].
  cbn [reprojected_from].
  destruct (needs_reprojection target_crs s) eqn:E.
  - apply needs_reprojection_iff in E.
    constructor; [|apply IH].
    cbn. repeat (split; [reflexivity|]). split; [contradiction|reflexivity].
  - assert (Ec : crs (ds s) = target_crs).
    { destruct (String.eqb_spec (crs (ds s)) target_crs) as [H|H]; [exact H|].
      apply needs_reprojection_iff in H. congruence. }
    constructor; [|apply IH].
    repeat (split; [assumption || reflexivity|]).
    intros H. contradiction.
Qed.

(** X1. Reprojection to a common CRS.  When the reprojection service
    does not fail and every source in another coordinate system has a
    band data type, [reproject_rasters_to_crs] returns one dataset per
    source, in input order, every one in the target CRS.  A source that
    is already in the target CRS is returned as it is (the same handle);
    for any other source the returned copy has the source's bounds,
    resolution, transform, size and band count unchanged, and declares no
    nodata value. *)
Theorem reproject_rasters_to_crs_keeps_grid {RT : Runtime}
  (srcs : list Handle) (target_crs : CRS) (w : World) :
  (forall args, warp_error args = None) ->
  (forall s, In s srcs -> crs (ds s) <> target_crs -> dtypes (ds s) <> []) ->
  exists out w',
    reproject_rasters_to_crs srcs target_crs w = (Ok out, w') /\
    length out = length srcs /\
    Forall2 (fun s r =>
               crs (ds r) = target_crs /\
               bounds (ds r) = bounds (ds s) /\
               res (ds r) = res (ds s) /\
               transform (ds r) = transform (ds s) /\
               width (ds r) = width (ds s) /\
               height (ds r) = height (ds s) /\
               count (ds r) = count (ds s) /\
               (crs (ds s) = target_crs -> r = s) /\
               (crs (ds s) <> target_crs -> nodata (ds r) = None))
            srcs out.
Proof.
  intros Hwarp Hdt.
  eexists. eexists. split.
  - apply reproject_rasters_to_crs_run.
    intros s Hs Hn. split; [|intros band; apply Hwarp].
    apply Hdt; [exact Hs|]. now apply needs_reprojection_iff.
  - split.
    + symmetry. eapply Forall2_length. apply reprojected_from_grid.
    + apply reprojected_from_grid.
Qed.

(** X1, witness: "a.tif" is in the target CRS, "c.tif" is not. *)
Lemma reproject_rasters_to_crs_keeps_grid_witness :
  exists out w',
    @reproject_rasters_to_crs example_runtime
      [example_handle_a; {| hid := 1; ds := example_c |}] example_crs
      {| fs := example_files; next_handle := 2; trace := [] |} = (Ok out, w') /\
    length out = 2%nat.
Proof.
  destruct (@reproject_rasters_to_crs_keeps_grid example_runtime
              [example_handle_a; {| hid := 1; ds := example_c |}] example_crs
              {| fs := example_files; next_handle := 2; trace := [] |})
    as (out & w' & Hrun & Hlen & _).
  - intros args. reflexivity.
  - intros s [<- | [<- | []]] _; discriminate.
  - exists out, w'. split; [exact Hrun | exact Hlen].
Defined.

(* ------------------------------------------------------------------ *)
(** ** Runs of the merge entry point                                   *)
(* ------------------------------------------------------------------ *)

Lemma open_all_run (paths : list string) (dsets : list Dataset) (w : World) :
  Forall2 (fun p d => fs w p = Some d) paths dsets ->
  comprehension rasterio_open paths w =
  (Ok (source_handles (next_handle w) dsets),
   after w (length paths) (open_events (next_handle w) paths)).
Proof.
  intros H. revert dsets w H.
  induction paths as [|p paths IH]; intros dsets w H;
    inversion H as [|? d ? dsets' Hp Hrest]; subst.
  - cbn. now rewrite after_zero.
  - cbn [comprehension]. unfold iobind at 1.
    rewrite (rasterio_open_run p d w Hp).
    unfold iobind at 1.
    rewrite (IH dsets' (add_events (take_handle w) [Open (next_handle w) p]))
      by exact Hrest.
    cbn [source_handles open_events length next_handle add_events take_handle].
    unfold ret. f_equal. unfold after, add_events, take_handle.
    cbn [fs next_handle trace].
    f_equal; [lia | now rewrite <- app_assoc].
Qed.

Lemma open_all_missing (pre post : list string) (dsets : list Dataset)
  (missing : string) (w : World) :
  Forall2 (fun p d => fs w p = Some d) pre dsets ->
  fs w missing = None ->
  comprehension rasterio_open (pre ++ missing :: post) w =
  (Raise (RasterioIOError missing),
   after w (length pre) (open_events (next_handle w) pre)).
Proof.
  intros H Hm. revert dsets w H Hm.
  induction pre as [|p pre IH]; intros dsets w H Hm;
    inversion H as [|? d ? dsets' Hp Hrest]; subst.
  - cbn [app comprehension]. unfold iobind at 1, rasterio_open at 1.
    rewrite Hm. cbn. now rewrite after_zero.
  - cbn [app comprehension]. unfold iobind at 1.
    rewrite (rasterio_open_run p d w Hp).
    unfold iobind at 1.
    rewrite (IH dsets' (add_events (take_handle w) [Open (next_handle w) p]))
      by assumption.
    cbn [open_events length next_handle add_events take_handle].
    f_equal. unfold after, add_events, take_handle.
    cbn [fs next_handle trace].
    f_equal; [lia | now rewrite <- app_assoc].
Qed.

Lemma close_all_run (out : list Handle) (w : World) :
  for_ out (fun s => close (hid s)) w =
  (Ok tt, add_events w (map (fun s => Close (hid s)) out)).
Proof.
  revert w. induction out as [|s out IH]; intros w.
  - cbn. now rewrite add_events_nil.
  - cbn [for_ map]. unfold iobind at 1, close at 1. rewrite log_run, IH.
    now rewrite add_events_app.
Qed.

Lemma compute_merge_metadata_shape (ref : Dataset) (rest : list Dataset) (scale_factor : Q) :
  (0 < scale_factor)%Q ->
  dataset_ok ref ->
  exists minx miny maxx maxy dt,
    (minx < maxx)%Q /\ (miny < maxy)%Q /\
    (0 < fst (res ref) / scale_factor)%Q /\
    0 < Qceiling ((maxx - minx) / (fst (res ref) / scale_factor)) /\
    0 < Qceiling ((maxy - miny) / (fst (res ref) / scale_factor)) /\
    compute_merge_metadata (ref :: rest) scale_factor =
    Ok {| md_transform :=
            Affine_mul (Affine_translation minx maxy)
              (Affine_scale
                 ((maxx - minx) /
                  inject_Z (Qceiling ((maxx - minx) / (fst (res ref) / scale_factor))))
                 ((miny - maxy) /
                  inject_Z (Qceiling ((maxy - miny) / (fst (res ref) / scale_factor)))));
          md_crs := crs ref;
          md_dtype := dt;
          md_res := (fst (res ref) / scale_factor)%Q;
          md_width := Qceiling ((maxx - minx) / (fst (res ref) / scale_factor));
          md_height := Qceiling ((maxy - miny) / (fst (res ref) / scale_factor));
          md_bounds := (minx, miny, maxx, maxy) |}.
Proof.
  intros Hs (Hx & Hy & Hr & Hd).
  unfold compute_merge_metadata.
  set (bs := map bounds (ref :: rest)).
  destruct (Py_min_least (map left bs)) as (minx & -> & Hminx); [discriminate|].
  destruct (Py_min_least (map bottom bs)) as (miny & -> & Hminy); [discriminate|].
  destruct (Py_max_greatest (map right bs)) as (maxx & -> & Hmaxx); [discriminate|].
  destruct (Py_max_greatest (map top bs)) as (maxy & -> & Hmaxy); [discriminate|].
  cbn [bind Py.getitem nth_error].
  assert (Hres : (0 < fst (res ref) / scale_factor)%Q) by now apply Qdiv_pos.
  rewrite truediv_ok by (intros E; rewrite E in Hs; now apply Qlt_irrefl in Hs).
  cbn [bind].
  destruct (dtypes ref) as [|dt dts] eqn:Edt; [congruence|].
  cbn [bind nth_error].
  assert (Hnz : ~ (fst (res ref) / scale_factor == 0)%Q).
  { intros E. rewrite E in Hres. now apply Qlt_irrefl in Hres. }
  assert (Hw : (minx < maxx)%Q).
  { apply Qle_lt_trans with (left (bounds ref)).
    - apply Hminx. now left.
    - apply Qlt_le_trans with (right (bounds ref)); [exact Hx|].
      apply Hmaxx. now left. }
  assert (Hh : (miny < maxy)%Q).
  { apply Qle_lt_trans with (bottom (bounds ref)).
    - apply Hminy. now left.
    - apply Qlt_le_trans with (top (bounds ref)); [exact Hy|].
      apply Hmaxy. now left. }
  rewrite !truediv_ok by exact Hnz.
  cbn [bind].
  assert (Hcw : 0 < Qceiling ((maxx - minx) / (fst (res ref) / scale_factor))).
  { apply Qceiling_pos. apply Qdiv_pos; [|exact Hres].
    now apply (proj1 (Qlt_minus_iff minx maxx)). }
  assert (Hch : 0 < Qceiling ((maxy - miny) / (fst (res ref) / scale_factor))).
  { apply Qceiling_pos. apply Qdiv_pos; [|exact Hres].
    now apply (proj1 (Qlt_minus_iff miny maxy)). }
  unfold from_bounds.
  rewrite !truediv_ok by (apply inject_Z_nonzero; lia).
  cbn [bind].
  exists minx, miny, maxx, maxy, dt.
  repeat (split; [assumption|]). reflexivity.
Qed.

Lemma compute_merge_metadata_ok (ref : Dataset) (rest : list Dataset) (scale_factor : Q) :
  (0 < scale_factor)%Q ->
  dataset_ok ref ->
  exists m, compute_merge_metadata (ref :: rest) scale_factor = Ok m.
Proof.
  intros Hs Hok.
  destruct (compute_merge_metadata_shape ref rest scale_factor Hs Hok)
    as (minx & miny & maxx & maxy & dt & _ & _ & _ & _ & _ & Hrun).
  eexists. exact Hrun.
Qed.

Lemma after_add_events (w : World) (k : nat) (e1 e2 : list event) :
  add_events (after w k e1) e2 = after w k (e1 ++ e2).
Proof.
  unfold add_events, after. cbn [fs next_handle trace]. now rewrite app_assoc.
Qed.

Lemma after_take_handle (w : World) (k : nat) (e1 : list event) :
  take_handle (after w k e1) = after w (k + 1) e1.
Proof.
  unfold take_handle, after. cbn [fs next_handle trace].
  f_equal. lia.
Qed.

Lemma source_handles_ds (n : nat) (l : list Dataset) (s : Handle) :
  In s (source_handles n l) -> In (ds s) l.
Proof.
  revert n. induction l as [|d l IH]; intros n; [contradiction|].
  intros [<- | H]; [now left | right; eapply IH; exact H].
Qed.

Section Merge.

Context {RT : Runtime}.
Variables (paths : list string) (d0 : Dataset) (drest : list Dataset).
Variables (output_path : string) (num_bands : Z) (scale_factor : Q).
Variables (block_size : Z) (resampling_ : Resampling) (w : World).
Hypothesis Hfiles : Forall2 (fun p d => fs w p = Some d) paths (d0 :: drest).
Hypothesis Hdtypes : forall d, In d drest -> crs d <> crs d0 -> dtypes d <> [].
Hypothesis Hwarp : forall args, warp_error args = None.

Local Abbreviation n0 := (next_handle w).
Local Abbreviation srcs := (source_handles (next_handle w) (d0 :: drest)).
Local Abbreviation k := (length paths).
Local Abbreviation out :=
  (reprojected_from (crs d0) (next_handle w + length paths)
     (source_handles (next_handle w) (d0 :: drest))).
Local Abbreviation r :=
  (reprojection_handles (crs d0) (source_handles (next_handle w) (d0 :: drest))).
Local Abbreviation o :=
  (next_handle w + (length paths +
     reprojection_handles (crs d0) (source_handles (next_handle w) (d0 :: drest))))%nat.

Lemma merge_sources_dtypes (s : Handle) :
  In s srcs -> needs_reprojection (crs d0) s = true -> dtypes (ds s) <> [].
Proof.
  intros Hs Hn. apply needs_reprojection_iff in Hn.
  apply source_handles_ds in Hs. destruct Hs as [E | Hs].
  - rewrite <- E in Hn. now elim Hn.
  - now apply Hdtypes.
Qed.

Lemma merge_sources_reprojectable (s : Handle) :
  In s srcs -> needs_reprojection (crs d0) s = true ->
  dtypes (ds s) <> [] /\
  forall band, warp_error (band_reproject_args (crs d0) (ds s) band) = None.
Proof.
  intros Hs Hn. split; [now apply merge_sources_dtypes | intros band; apply Hwarp].
Qed.

Lemma merge_out_first :
  out = {| hid := n0; ds := d0 |}
        :: reprojected_from (crs d0) (n0 + k) (source_handles (S n0) drest).
Proof.
  cbn [source_handles reprojected_from]. unfold needs_reprojection at 1.
  cbn [ds]. now rewrite String_eqb_refl_true.
Qed.

(** The run of [merge_rasters] up to the planner. *)
Lemma merge_rasters_prefix_run :
  merge_rasters paths output_path num_bands scale_factor block_size resampling_ w =
  (metadata <~ lift (compute_merge_metadata (map ds out) scale_factor) ;;
   result_ <~ write_raster_blocks out output_path metadata num_bands
                block_size resampling_ ;;
   _ <~ for_ out (fun s => close (hid s)) ;;
   ret result_)
    (after w (k + r) (open_events n0 paths ++ reprojection_events (crs d0) (n0 + k) srcs)).
Proof.
  unfold merge_rasters.
  unfold iobind at 1. rewrite (open_all_run paths (d0 :: drest) w Hfiles).
  unfold iobind at 1. cbn [lift Py.getitem nth_error source_handles ds].
  unfold iobind at 1.
  rewrite (reproject_rasters_to_crs_run (crs d0)) by exact merge_sources_reprojectable.
  rewrite after_after. reflexivity.
Qed.

Lemma merge_rasters_run :
  dataset_ok d0 ->
  (0 < scale_factor)%Q ->
  0 <= num_bands ->
  0 < block_size ->
  exists metadata profile,
    compute_merge_metadata (map ds out) scale_factor = Ok metadata /\
    merge_rasters paths output_path num_bands scale_factor block_size resampling_ w =
    (Ok output_path,
     after w (k + r + 1)
       (open_events n0 paths ++
        reprojection_events (crs d0) (n0 + k) srcs ++
        Create o output_path profile
        :: flat_map (fun y_off =>
                       map (block_write o out metadata num_bands resampling_
                              (composite_nodata d0 num_bands) block_size y_off)
                           (offsets (md_width metadata) block_size))
                    (offsets (md_height metadata) block_size)
        ++ Close o :: map (fun s => Close (hid s)) out)).
Proof.
  intros Hok Hsf Hnb Hbs.
  rewrite merge_rasters_prefix_run.
  rewrite merge_out_first. cbn [map ds].
  destruct (compute_merge_metadata_ok d0
              (map ds (reprojected_from (crs d0) (n0 + k) (source_handles (S n0) drest)))
              scale_factor Hsf Hok) as (metadata & Hmd).
  destruct (write_raster_blocks_run {| hid := n0; ds := d0 |}
              (reprojected_from (crs d0) (n0 + k) (source_handles (S n0) drest))
              output_path metadata num_bands block_size resampling_
              (after w (k + r)
                 (open_events n0 paths ++ reprojection_events (crs d0) (n0 + k) srcs))
              Hnb Hbs Hwarp) as (profile & Hwrite).
  exists metadata, profile. split; [exact Hmd|].
  unfold iobind at 1. rewrite Hmd. cbn [lift].
  unfold iobind at 1. rewrite Hwrite.
  unfold iobind at 1. rewrite close_all_run. cbn [ret].
  rewrite after_take_handle, !after_add_events.
  cbn [next_handle after ds].
  f_equal. f_equal.
  rewrite <- !app_assoc. cbn [app]. rewrite <- !app_assoc. reflexivity.
Qed.

End Merge.

(* ------------------------------------------------------------------ *)
(** ** The handles a merge leaves open                                 *)
(* ------------------------------------------------------------------ *)

Lemma open_handles_open_events (paths : list string) (n : nat) (acc : list nat) :
  open_handles_from (open_events n paths) acc = acc ++ seq n (length paths).
Proof.
  revert n acc. induction paths as [|p paths IH]; intros n acc; simpl.
  - now rewrite app_nil_r.
  - rewrite IH, <- app_assoc. reflexivity.
Qed.

Lemma source_handles_hid (n : nat) (l : list Dataset) :
  map hid (source_handles n l) = seq n (length l).
Proof.
  revert n. induction l as [|d l IH]; intros n; simpl; [reflexivity|].
  now rewrite IH.
Qed.

Lemma open_handles_quiet (evs : list event) (acc : list nat) :
  Forall (fun e => quiet e = true) evs -> open_handles_from evs acc = acc.
Proof.
  intros H. revert acc. induction H as [|e evs He _ IH]; intros acc; [reflexivity|].
  destruct e; simpl in *; try discriminate; apply IH.
Qed.

Lemma open_handles_close_all (out : list Handle) (acc : list nat) :
  open_handles_from (map (fun s => Close (hid s)) out) acc =
  filter (fun h => negb (existsb (Nat.eqb h) (map hid out))) acc.
Proof.
  revert acc. induction out as [|s out IH]; intros acc.
  - simpl. induction acc as [|a acc IHa]; [reflexivity|]. simpl. now rewrite <- IHa.
  - cbn [map open_handles_from]. rewrite IH.
    induction acc as [|a acc IHa]; [reflexivity|].
    cbn [filter existsb]. rewrite negb_orb.
    destruct (negb (Nat.eqb a (hid s))); cbn [filter andb]; [|exact IHa].
    destruct (negb (existsb (Nat.eqb a) (map hid out))); [now rewrite IHa|exact IHa].
Qed.

Lemma memfile_handles_range (target_crs : CRS) (srcs : list Handle) (n : nat) (m : Handle) :
  In m (memfile_handles target_crs n srcs) ->
  (n < hid m < n + reprojection_handles target_crs srcs)%nat.
Proof.
  revert n. induction srcs as [|s srcs IH]; intros n; [contradiction|].
  cbn [memfile_handles reprojection_handles].
  destruct (needs_reprojection target_crs s); [|apply IH].
  intros [<- | H].
  - cbn [memfile_handle hid]. lia.
  - apply IH in H. lia.
Qed.

Lemma open_handles_reprojection (target_crs : CRS) (srcs : list Handle)
  (n : nat) (acc : list nat) :
  Forall (fun h => (h < n)%nat) acc ->
  open_handles_from (reprojection_events target_crs n srcs) acc =
  acc ++ map hid (memfile_handles target_crs n srcs).
Proof.
  revert n acc. induction srcs as [|s srcs IH]; intros n acc Hacc.
  - simpl. now rewrite app_nil_r.
  - cbn [reprojection_events memfile_handles].
    destruct (needs_reprojection target_crs s); [|now apply IH].
    cbn [open_handles_from]. rewrite filter_fresh by exact Hacc.
    rewrite IH.
    + cbn [map memfile_handle hid]. now rewrite <- app_assoc.
    + apply Forall_app. split.
      * eapply Forall_impl; [|exact Hacc]. intros h Hh. cbn beta in *. lia.
      * constructor; [lia|constructor].
Qed.

Lemma reprojected_from_keeps (target_crs : CRS) (srcs : list Handle) (n : nat) (s : Handle) :
  In s srcs -> needs_reprojection target_crs s = false ->
  In s (reprojected_from target_crs n srcs).
Proof.
  revert n. induction srcs as [|a srcs IH]; intros n; [contradiction|].
  intros [-> | H] Hs; cbn [reprojected_from].
  - rewrite Hs. now left.
  - destruct (needs_reprojection target_crs a); right; now apply IH.
Qed.

Lemma reprojected_from_origin (target_crs : CRS) (srcs : list Handle) (n : nat) (x : Handle) :
  In x (reprojected_from target_crs n srcs) ->
  (In x srcs /\ needs_reprojection target_crs x = false) \/ (n < hid x)%nat.
Proof.
  revert n. induction srcs as [|a srcs IH]; intros n; [contradiction|].
  cbn [reprojected_from].
  destruct (needs_reprojection target_crs a) eqn:E.
  - intros [<- | H].
    + right. cbn [memfile_handle hid]. lia.
    + apply IH in H. destruct H as [[H1 H2] | H].
      * left. split; [now right | exact H2].
      * right. lia.
  - intros [<- | H].
    + left. split; [now left | exact E].
    + apply IH in H. destruct H as [[H1 H2] | H].
      * left. split; [now right | exact H2].
      * now right.
Qed.

Lemma memfile_handles_returned (target_crs : CRS) (srcs : list Handle) (n : nat) (m : Handle) :
  In m (memfile_handles target_crs n srcs) ->
  In m (reprojected_from target_crs n srcs).
Proof.
  revert n. induction srcs as [|a srcs IH]; intros n; [contradiction|].
  cbn [memfile_handles reprojected_from].
  destruct (needs_reprojection target_crs a).
  - intros [<- | H]; [now left | right; now apply IH].
  - intros H. right. now apply IH.
Qed.

Lemma source_handles_range (n : nat) (l : list Dataset) (s : Handle) :
  In s (source_handles n l) -> (n <= hid s < n + length l)%nat.
Proof.
  revert n. induction l as [|d l IH]; intros n; [contradiction|].
  intros [<- | H]; cbn [hid length]; [lia|].
  apply IH in H. lia.
Qed.

Lemma source_handles_inj (n : nat) (l : list Dataset) (s s' : Handle) :
  In s (source_handles n l) -> In s' (source_handles n l) ->
  hid s = hid s' -> s = s'.
Proof.
  revert n. induction l as [|d l IH]; intros n; [contradiction|].
  intros [<- | H] [<- | H'] E.
  - reflexivity.
  - apply source_handles_range in H'. cbn [hid] in E. lia.
  - apply source_handles_range in H. cbn [hid] in E. lia.
  - eapply IH; eassumption.
Qed.

Lemma filter_none {A : Type} (p : A -> bool) (l : list A) :
  (forall x, In x l -> p x = false) -> filter p l = [].
Proof.
  induction l as [|a l IH]; intros H; [reflexivity|].
  simpl. rewrite (H a) by now left. apply IH. intros x Hx. apply H. now right.
Qed.

Lemma filter_map_hid (p : nat -> bool) (l : list Handle) :
  filter p (map hid l) = map hid (filter (fun s => p (hid s)) l).
Proof.
  induction l as [|a l IH]; [reflexivity|].
  simpl. destruct (p (hid a)); simpl; now rewrite IH.
Qed.

(** Closing the returned datasets leaves open the handles of the
    reprojected sources. *)
Lemma close_reprojected_leaves (target_crs : CRS) (n0 : nat) (l : list Dataset) (n : nat) :
  (n0 + length l <= n)%nat ->
  filter (fun h => negb (existsb (Nat.eqb h)
                           (map hid (reprojected_from target_crs n (source_handles n0 l)))))
         (map hid (source_handles n0 l)
          ++ map hid (memfile_handles target_crs n (source_handles n0 l))) =
  map hid (filter (needs_reprojection target_crs) (source_handles n0 l)).
Proof.
  intros Hn.
  rewrite filter_app.
  rewrite (filter_none _ (map hid (memfile_handles target_crs n (source_handles n0 l)))).
  - rewrite app_nil_r, filter_map_hid. f_equal.
    apply filter_ext_in. intros s Hs.
    destruct (needs_reprojection target_crs s) eqn:E.
    + apply negb_true_iff.
      destruct (existsb (Nat.eqb (hid s))
                  (map hid (reprojected_from target_crs n (source_handles n0 l)))) eqn:Ex;
        [|reflexivity].
      exfalso.
      apply existsb_exists in Ex. destruct Ex as (h & Hh & Eh).
      apply Nat.eqb_eq in Eh. subst h.
      apply in_map_iff in Hh. destruct Hh as (x & Ex & Hx).
      apply reprojected_from_origin in Hx.
      destruct Hx as [[Hx1 Hx2] | Hx].
      * assert (x = s) by (eapply source_handles_inj; eassumption).
        subst x. congruence.
      * apply source_handles_range in Hs. lia.
    + apply negb_false_iff. apply existsb_exists.
      exists (hid s). split; [|apply Nat.eqb_refl].
      apply in_map. now apply reprojected_from_keeps.
  - intros h Hh. apply negb_false_iff. apply existsb_exists.
    exists h. split; [|apply Nat.eqb_refl].
    apply in_map_iff in Hh. destruct Hh as (m & <- & Hm).
    apply in_map. now apply memfile_handles_returned.
Qed.

Lemma block_writes_quiet {RT : Runtime} (dst : nat) (srcs : list Handle)
  (metadata : MergeMetadata) (num_bands : Z) (resampling_ : Resampling)
  (nodata_value : num) (block_size : Z) (ys : list Z) (xs : Z -> list Z) :
  Forall (fun e => quiet e = true)
    (flat_map (fun y_off =>
                 map (block_write dst srcs metadata num_bands resampling_
                        nodata_value block_size y_off) (xs y_off)) ys).
Proof.
  apply Forall_forall. intros e He.
  apply in_flat_map in He. destruct He as (y & _ & He).
  apply in_map_iff in He. destruct He as (x & <- & _). reflexivity.
Qed.

Lemma needs_reprojection_none (target_crs : CRS) (n : nat) (l : list Dataset) :
  Forall (fun d => crs d = target_crs) l ->
  filter (needs_reprojection target_crs) (source_handles n l) = [].
Proof.
  intros H. apply filter_none. intros s Hs.
  apply source_handles_ds in Hs.
  rewrite Forall_forall in H. specialize (H _ Hs).
  unfold needs_reprojection. rewrite H. now rewrite String_eqb_refl_true.
Qed.



Lemma created_open_events (n : nat) (paths : list string) :
  created (open_events n paths) = [].
Proof.
  revert n. induction paths as [|p paths IH]; intros n; [reflexivity|apply IH].
Qed.

Lemma written_open_events (n : nat) (paths : list string) :
  written (open_events n paths) = [].
Proof.
  revert n. induction paths as [|p paths IH]; intros n; [reflexivity|apply IH].
Qed.

(** X3. A file that cannot be opened.  When the files listed before
    [missing] exist and [missing] does not, [merge_rasters] raises
    rasterio's error for [missing].  Up to then it has only opened the
    files before it: no raster is created, no block is written, and the
    handles of those files are all left open. *)
Theorem merge_rasters_missing_file {RT : Runtime}
  (pre post : list string) (dsets : list Dataset) (missing output_path : string)
  (num_bands : Z) (scale_factor : Q) (block_size : Z) (resampling_ : Resampling)
  (w : World) :
  Forall2 (fun p d => fs w p = Some d) pre dsets ->
  fs w missing = None ->
  exists w' new,
    merge_rasters (pre ++ missing :: post) output_path num_bands scale_factor
      block_size resampling_ w = (Raise (RasterioIOError missing), w') /\
    trace w' = trace w ++ new /\
    new = open_events (next_handle w) pre /\
    created new = [] /\
    written new = [] /\
    open_handles_from new [] = seq (next_handle w) (length pre).
Proof.
  intros Hpre Hmiss.
  exists (after w (length pre) (open_events (next_handle w) pre)).
  exists (open_events (next_handle w) pre).
  split.
  - unfold merge_rasters. unfold iobind at 1.
    now rewrite (open_all_missing pre post dsets missing w Hpre Hmiss).
  - split; [reflexivity|]. split; [reflexivity|].
    split; [apply created_open_events|].
    split; [apply written_open_events|].
    now rewrite open_handles_open_events.
Qed.

(** X3, witness: "a.tif" exists, "missing.tif" does not. *)
Lemma merge_rasters_missing_file_witness :
  exists w',
    @merge_rasters example_runtime ["a.tif"; "missing.tif"; "b.tif"]%string "out.tif"
      1 1 2 bilinear example_world = (Raise (RasterioIOError "missing.tif"), w') /\
    trace w' = [Open 0 "a.tif"].
Proof.
  destruct (@merge_rasters_missing_file example_runtime ["a.tif"%string] ["b.tif"%string]
              [example_a] "missing.tif" "out.tif" 1 1 2 bilinear example_world)
    as (w' & new & Hrun & Htr & Hnew & _).
  - repeat constructor.
  - reflexivity.
  - exists w'. split; [exact Hrun|]. rewrite Htr, Hnew. reflexivity.
Defined.

(* ------------------------------------------------------------------ *)
(** ** The planned grid                                                *)
(* ------------------------------------------------------------------ *)

Lemma inject_Z_pos (z : Z) : 0 < z -> (0 < inject_Z z)%Q.
Proof.
  intros Hz. change 0%Q with (inject_Z 0). now rewrite <- Zlt_Qlt.
Qed.

(** A length divided by the ceiling of its pixel count is at most the
    pixel size. *)
Lemma pixel_size_bound (e p : Q) :
  (0 < e)%Q -> (0 < p)%Q ->
  (0 < e / inject_Z (Qceiling (e / p)))%Q /\ (e / inject_Z (Qceiling (e / p)) <= p)%Q.
Proof.
  intros He Hp.
  assert (Hc : 0 < Qceiling (e / p)) by (apply Qceiling_pos; now apply Qdiv_pos).
  assert (Hi : (0 < inject_Z (Qceiling (e / p)))%Q) by now apply inject_Z_pos.
  split; [now apply Qdiv_pos|].
  apply Qle_shift_div_r; [exact Hi|].
  assert (Hle : (e / p <= inject_Z (Qceiling (e / p)))%Q) by apply Qle_ceiling.
  assert (Hpn : ~ (p == 0)%Q) by (intros E; rewrite E in Hp; now apply Qlt_irrefl in Hp).
  setoid_replace e with (e / p * p)%Q at 1 by (field; exact Hpn).
  rewrite (Qmult_comm p).
  apply Qmult_le_compat_r; [exact Hle | now apply Qlt_le_weak].
Qed.



(** X5. Planner errors.  On a non-empty list the planner raises
    [ZeroDivisionError] when the scale factor is zero; otherwise it
    raises [IndexError] when the first dataset has no band data type,
    and [ZeroDivisionError] when the first dataset's pixel width is
    zero.  None of these depends on the other datasets. *)
Theorem compute_merge_metadata_errors
  (ref : Dataset) (rest : list Dataset) (scale_factor : Q) :
  ((scale_factor == 0)%Q ->
   compute_merge_metadata (ref :: rest) scale_factor =
   Raise (ZeroDivisionError "float division by zero")) /\
  (~ (scale_factor == 0)%Q -> dtypes ref = [] ->
   compute_merge_metadata (ref :: rest) scale_factor =
   Raise (IndexError "list index out of range")) /\
  (~ (scale_factor == 0)%Q -> dtypes ref <> [] -> (fst (res ref) == 0)%Q ->
   compute_merge_metadata (ref :: rest) scale_factor =
   Raise (ZeroDivisionError "float division by zero")).
Proof.
  unfold compute_merge_metadata.
  cbn [map Py.min Py.max bind Py.getitem nth_error].
  split; [|split].
  - intros E. unfold Py.truediv at 1.
    apply Qeq_bool_iff in E. now rewrite E.
  - intros Hs Hd. rewrite truediv_ok by exact Hs. cbn [bind].
    now rewrite Hd.
  - intros Hs Hd Hr. rewrite truediv_ok by exact Hs. cbn [bind].
    destruct (dtypes ref) as [|dt dts]; [congruence|]. cbn [bind].
    unfold Py.truediv at 1.
    assert (E : (fst (res ref) / scale_factor == 0)%Q).
    { rewrite Hr. unfold Qdiv. ring. }
    apply Qeq_bool_iff in E. now rewrite E.
Qed.

(** X5, witness: scale factor 0 on the example raster. *)
Lemma compute_merge_metadata_errors_witness :
  compute_merge_metadata [example_a] 0 =
  Raise (ZeroDivisionError "float division by zero").
Proof.
  apply (proj1 (compute_merge_metadata_errors example_a [] 0)). reflexivity.
Defined.

(* ------------------------------------------------------------------ *)
(** ** The block grid of the compositor                                *)
(* ------------------------------------------------------------------ *)

Lemma range_negative_step (stop step : Z) :
  step < 0 -> 0 <= stop -> Py.range 0 stop step = Ok [].
Proof.
  intros Hs Hstop. unfold Py.range.
  destruct (Z.eqb_spec step 0); [lia|].
  destruct (Z.ltb_spec 0 step); [lia|].
  assert (Hq : (0 - stop - step - 1) / - step <= 0).
  { assert (Hlt : (0 - stop - step - 1) / - step < 1)
      by (apply Z.div_lt_upper_bound; lia).
    lia. }
  replace (Z.to_nat ((0 - stop - step - 1) / - step)) with 0%nat by lia.
  reflexivity.
Qed.



Lemma written_app (a b : list event) : written (a ++ b) = written a ++ written b.
Proof.
  induction a as [|e a IH]; [reflexivity|].
  destruct e; simpl; now rewrite ?IH.
Qed.

Lemma written_block_row {RT : Runtime} (dst : nat) (srcs : list Handle)
  (metadata : MergeMetadata) (num_bands : Z) (resampling_ : Resampling)
  (nodata_value : num) (block_size y : Z) (xs : list Z) :
  map fst
    (written (map (block_write dst srcs metadata num_bands resampling_
                     nodata_value block_size y) xs)) =
  map (fun win : Z * Z * Z * Z =>
         let '(x_off, y_off, w, h) := win in Window_of_ints x_off y_off w h)
      (map (fun x_off =>
              (x_off, y, Z.min block_size (md_width metadata - x_off),
               Z.min block_size (md_height metadata - y))) xs).
Proof.
  induction xs as [|x xs IH]; [reflexivity|].
  cbn [map written fst block_write]. now rewrite IH.
Qed.

Lemma written_block_writes {RT : Runtime} (dst : nat) (srcs : list Handle)
  (metadata : MergeMetadata) (num_bands : Z) (resampling_ : Resampling)
  (nodata_value : num) (block_size : Z) :
  map fst
    (written
       (flat_map (fun y_off =>
                    map (block_write dst srcs metadata num_bands resampling_
                           nodata_value block_size y_off)
                        (offsets (md_width metadata) block_size))
                 (offsets (md_height metadata) block_size))) =
  map (fun win : Z * Z * Z * Z =>
         let '(x_off, y_off, w, h) := win in Window_of_ints x_off y_off w h)
      (block_windows (md_width metadata) (md_height metadata) block_size).
Proof.
  unfold block_windows.
  induction (offsets (md_height metadata) block_size) as [|y ys IH]; [reflexivity|].
  cbn [flat_map]. rewrite written_app, !map_app, IH. f_equal.
  apply written_block_row.
Qed.

Lemma offsets_multiple (stop step y : Z) :
  0 < step -> In y (offsets stop step) -> exists k, 0 <= k /\ y = k * step.
Proof.
  intros Hs Hin. unfold offsets in Hin.
  apply in_map_iff in Hin. destruct Hin as (k & <- & _).
  exists (Z.of_nat k). split; lia.
Qed.

Lemma offsets_step_length (stop step : Z) :
  length (offsets stop step) = Z.to_nat ((stop + step - 1) / step).
Proof.
  unfold offsets. rewrite length_map, length_seq.
  f_equal. f_equal. lia.
Qed.

Lemma block_windows_in (width_ height_ block_size : Z) (win : Z * Z * Z * Z) :
  In win (block_windows width_ height_ block_size) <->
  exists x_off y_off,
    In x_off (offsets width_ block_size) /\
    In y_off (offsets height_ block_size) /\
    win = (x_off, y_off,
           Z.min block_size (width_ - x_off), Z.min block_size (height_ - y_off)).
Proof.
  unfold block_windows. rewrite in_flat_map. split.
  - intros (y & Hy & Hin). apply in_map_iff in Hin. destruct Hin as (x & <- & Hx).
    exists x, y. repeat split; assumption.
  - intros (x & y & Hx & Hy & ->). exists y. split; [exact Hy|].
    apply in_map_iff. exists x. split; [reflexivity|exact Hx].
Qed.

Lemma block_windows_length (width_ height_ block_size : Z) :
  0 < block_size -> 0 <= width_ -> 0 <= height_ ->
  length (block_windows width_ height_ block_size) =
  Z.to_nat (((height_ + block_size - 1) / block_size) *
            ((width_ + block_size - 1) / block_size)).
Proof.
  intros Hbs Hw Hh. unfold block_windows.
  assert (Hlen : forall ys,
    length (flat_map (fun y_off =>
                        map (fun x_off =>
                               (x_off, y_off, Z.min block_size (width_ - x_off),
                                Z.min block_size (height_ - y_off)))
                            (offsets width_ block_size)) ys) =
    (length ys * length (offsets width_ block_size))%nat).
  { induction ys as [|y ys IH]; [reflexivity|].
    cbn [flat_map length]. rewrite length_app, length_map, IH. lia. }
  rewrite Hlen, !offsets_step_length.
  assert (0 <= (height_ + block_size - 1) / block_size) by (apply Z.div_pos; lia).
  assert (0 <= (width_ + block_size - 1) / block_size) by (apply Z.div_pos; lia).
  lia.
Qed.

(** A block offset at or below a coordinate that the block reaches is
    the coordinate rounded down to the block size. *)
Lemma block_offset_unique (stop step off x : Z) :
  0 < step -> In off (offsets stop step) ->
  off <= x < off + Z.min step (stop - off) ->
  off = step * (x / step).
Proof.
  intros Hs Hin Hx.
  destruct (offsets_multiple stop step off Hs Hin) as (k & Hk & ->).
  assert (E : x / step = k).
  { symmetry. apply Z.div_unique with (r := x - k * step); lia. }
  rewrite E. lia.
Qed.



(* ------------------------------------------------------------------ *)
(** ** Computations that open and close nothing                        *)
(* ------------------------------------------------------------------ *)

Lemma quiet_ret {A : Type} (a : A) : quiet_io (ret a).
Proof.
  intros w. exists []. split; [now rewrite add_events_nil | constructor].
Qed.

Lemma quiet_lift {A : Type} (r : result A) : quiet_io (lift r).
Proof.
  intros w. exists []. split; [now rewrite add_events_nil | constructor].
Qed.

Lemma quiet_log (e : event) : quiet e = true -> quiet_io (log e).
Proof.
  intros He w. exists [e]. split; [reflexivity | now constructor].
Qed.

Lemma quiet_bind {A B : Type} (m : IO A) (k : A -> IO B) :
  quiet_io m -> (forall a, quiet_io (k a)) -> quiet_io (iobind m k).
Proof.
  intros Hm Hk w. unfold iobind.
  destruct (Hm w) as (e1 & E1 & Q1).
  destruct (m w) as [[a|e] w1]; cbn [snd] in E1; subst w1.
  - destruct (Hk a (add_events w e1)) as (e2 & E2 & Q2).
    exists (e1 ++ e2). split.
    + now rewrite E2, add_events_app.
    + apply Forall_app. now split.
  - exists e1. now split.
Qed.

Lemma quiet_for {A : Type} (l : list A) (body : A -> IO unit) :
  (forall x, quiet_io (body x)) -> quiet_io (for_ l body).
Proof.
  intros Hb. induction l as [|x l IH]; [apply quiet_ret|].
  cbn [for_]. apply quiet_bind; [apply Hb | intros _; exact IH].
Qed.

Lemma quiet_if {A : Type} (b : bool) (m1 m2 : IO A) :
  quiet_io m1 -> quiet_io m2 -> quiet_io (if b then m1 else m2).
Proof.
  destruct b; auto.
Qed.

(** A dataset created and used in a [with] block whose body is quiet is
    closed again, whatever the outcome of the body. *)
Lemma with_quiet_run {A : Type} (h : nat) (body : IO A) (w : World) :
  quiet_io body ->
  exists r evs,
    with_ h body w = (r, add_events w (evs ++ [Close h])) /\
    r = fst (body w) /\
    Forall (fun e => quiet e = true) evs.
Proof.
  intros Hq. destruct (Hq w) as (evs & E & Q).
  exists (fst (body w)), evs. split; [|split; [reflexivity|exact Q]].
  unfold with_. destruct (body w) as [r w1]. cbn [snd fst] in *. subst w1.
  unfold close. rewrite log_run, add_events_app. reflexivity.
Qed.

Lemma open_handles_with (h : nat) (evs : list event) (acc : list nat) (path : string) :
  Forall (fun k => (k < h)%nat) acc ->
  Forall (fun e => quiet e = true) evs ->
  open_handles_from (Open h path :: evs ++ [Close h]) acc = acc.
Proof.
  intros Hacc Hq. cbn [open_handles_from].
  rewrite open_handles_from_app, (open_handles_quiet evs) by exact Hq.
  cbn [open_handles_from]. now apply filter_fresh.
Qed.

Lemma open_handles_created (h : nat) (evs : list event) (acc : list nat)
  (path : string) (profile : Profile) :
  Forall (fun k => (k < h)%nat) acc ->
  Forall (fun e => quiet e = true) evs ->
  open_handles_from (Create h path profile :: evs ++ [Close h]) acc = acc.
Proof.
  intros Hacc Hq. cbn [open_handles_from].
  rewrite open_handles_from_app, (open_handles_quiet evs) by exact Hq.
  cbn [open_handles_from]. now apply filter_fresh.
Qed.

(* ------------------------------------------------------------------ *)
(** ** Failures of the compositor and of the merge                     *)
(* ------------------------------------------------------------------ *)

Lemma offsets_cons (stop step : Z) :
  0 < step -> 1 <= stop -> exists tl, offsets stop step = 0 :: tl.
Proof.
  intros Hs Hstop. unfold offsets.
  assert (Hq : 1 <= (stop - 0 + step - 1) / step).
  { apply Z.div_le_lower_bound; lia. }
  destruct (Z.to_nat ((stop - 0 + step - 1) / step)) as [|n] eqn:E; [lia|].
  eexists. cbn [seq map]. reflexivity.
Qed.

Lemma composite_block_warp_failure {RT : Runtime}
  (first : Handle) (rest : list Handle) (metadata : MergeMetadata)
  (num_bands : Z) (resampling_ : Resampling) (nodata_value : num)
  (x_off y_off w h : Z) (e : exn) :
  1 <= num_bands -> 0 <= w -> 0 <= h ->
  warp_error (block_reproject_args (ds first) 1 metadata x_off y_off
                resampling_ nodata_value) = Some e ->
  composite_block (first :: rest) metadata num_bands resampling_ nodata_value
    x_off y_off w h = Raise e.
Proof.
  intros Hn Hw Hh Hwarp.
  unfold composite_block, Np.full3.
  replace ((num_bands <? 0) || (h <? 0) || (w <? 0)) with false
    by (symmetry; rewrite !orb_false_iff; repeat split; apply Z.ltb_ge; lia).
  cbn [bind]. rewrite range_bands by lia. cbn [bind].
  destruct (Z.to_nat num_bands) as [|n] eqn:E; [lia|].
  unfold band_range. cbn [seq map fold_for bind].
  unfold Np.full2 at 1.
  replace ((h <? 0) || (w <? 0)) with false
    by (symmetry; rewrite !orb_false_iff; split; apply Z.ltb_ge; lia).
  cbn [bind]. unfold reproject at 1.
  change (1 + Z.of_nat 0 * 1) with 1.
  rewrite Hwarp. reflexivity.
Qed.



(** X9. Georeferencing of a block.  The destination transform of the
    reprojection into the block at [(x_off, y_off)] maps block pixel
    [(col, row)] to the coordinates that the transform of the whole
    output raster gives pixel [(x_off + col, y_off + row)]: blocks are
    placed on the output grid without a shift. *)
Theorem block_reproject_args_on_grid (src : Dataset) (band : Z)
  (metadata : MergeMetadata) (x_off y_off : Z) (resampling_ : Resampling)
  (nodata_value : num) (col row : Q) :
  (fst (Affine_apply
          (dst_transform (block_reproject_args src band metadata x_off y_off
                            resampling_ nodata_value)) col row) ==
   fst (Affine_apply (md_transform metadata)
          (inject_Z x_off + col) (inject_Z y_off + row)))%Q /\
  (snd (Affine_apply
          (dst_transform (block_reproject_args src band metadata x_off y_off
                            resampling_ nodata_value)) col row) ==
   snd (Affine_apply (md_transform metadata)
          (inject_Z x_off + col) (inject_Z y_off + row)))%Q.
Proof.
  unfold block_reproject_args, Affine_apply, Affine_mul, Affine_translation.
  cbn [dst_transform fst snd aff_a aff_b aff_c aff_d aff_e aff_f].
  split; ring.
Qed.

(** [write_raster_blocks] with a source and a block size that is not
    zero: the output is created and a quiet body runs in its [with]
    block. *)
Lemma write_raster_blocks_with {RT : Runtime}
  (first : Handle) (rest : list Handle) (output_path : string)
  (metadata : MergeMetadata) (num_bands block_size : Z)
  (resampling_ : Resampling) (w : World) :
  block_size <> 0 ->
  exists profile (body : IO unit),
    write_raster_blocks (first :: rest) output_path metadata num_bands
      block_size resampling_ w =
    iobind (with_ (next_handle w) body) (fun _ => ret output_path)
      (add_events (take_handle w) [Create (next_handle w) output_path profile]) /\
    quiet_io body.
Proof.
  intros Hbs. eexists. eexists. split.
  - unfold write_raster_blocks.
    unfold iobind at 1. cbn [lift Py.getitem nth_error].
    unfold Py.floordiv.
    destruct (Z.eqb_spec block_size 0) as [E|_]; [contradiction|].
    unfold iobind at 1. cbn [lift].
    unfold iobind at 1. cbn [lift].
    unfold rasterio_create.
    unfold iobind at 1. unfold iobind at 1. unfold iobind at 1.
    cbn [fresh_handle]. unfold iobind at 1. rewrite log_run. cbn [ret].
    reflexivity.
  - apply quiet_bind; [apply quiet_lift|]. intros y_offs.
    apply quiet_for. intros y_off.
    apply quiet_bind; [apply quiet_lift|]. intros x_offs.
    apply quiet_for. intros x_off.
    apply quiet_bind; [apply quiet_lift|]. intros block_data.
    now apply quiet_log.
Qed.

(** The events of [write_raster_blocks], whatever its outcome: none, or
    the creation of the output, events that open and close nothing, and
    the closing of the output. *)
Lemma write_raster_blocks_trace {RT : Runtime}
  (srcs : list Handle) (output_path : string)
  (metadata : MergeMetadata) (num_bands block_size : Z)
  (resampling_ : Resampling) (w : World) :
  (exists e, write_raster_blocks srcs output_path metadata num_bands
               block_size resampling_ w = (Raise e, w)) \/
  (exists r profile evs,
     write_raster_blocks srcs output_path metadata num_bands
       block_size resampling_ w =
     (r, add_events (take_handle w)
           (Create (next_handle w) output_path profile
            :: evs ++ [Close (next_handle w)])) /\
     Forall (fun e => quiet e = true) evs).
Proof.
  destruct srcs as [|first rest].
  { left. eexists. reflexivity. }
  destruct (Z.eq_dec block_size 0) as [->|Hbs].
  { left. eexists. reflexivity. }
  right.
  destruct (write_raster_blocks_with first rest output_path metadata num_bands
              block_size resampling_ w Hbs) as (profile & body & -> & Hbody).
  destruct (with_quiet_run (next_handle w) body
              (add_events (take_handle w) [Create (next_handle w) output_path profile])
              Hbody) as (r & evs & Hrun & _ & Hq).
  unfold iobind. rewrite Hrun, add_events_app.
  destruct r as [u|e].
  - exists (Ok output_path), profile, evs. split; [reflexivity|exact Hq].
  - exists (Raise e), profile, evs. split; [reflexivity|exact Hq].
Qed.

Lemma reprojected_from_same_crs (target_crs : CRS) (n : nat) (srcs : list Handle) :
  Forall (fun s => crs (ds s) = target_crs) srcs ->
  reprojected_from target_crs n srcs = srcs /\
  reprojection_events target_crs n srcs = [] /\
  reprojection_handles target_crs srcs = 0%nat.
Proof.
  intros H. induction H as [|s srcs Hs _ IH]; [now repeat split|].
  cbn [reprojected_from reprojection_events reprojection_handles].
  unfold needs_reprojection at 1 2 3. rewrite Hs, String_eqb_refl_true. cbn [negb].
  destruct IH as (-> & -> & ->). now repeat split.
Qed.

Lemma source_handles_same_crs (target_crs : CRS) (n : nat) (l : list Dataset) :
  Forall (fun d => crs d = target_crs) l ->
  Forall (fun s => crs (ds s) = target_crs) (source_handles n l).
Proof.
  intros H. revert n. induction H as [|d l Hd _ IH]; intros n; constructor.
  - exact Hd.
  - apply IH.
Qed.

Lemma iobind_run {A B : Type} (m : IO A) (k : A -> IO B) (w : World) :
  iobind m k w =
  match m w with
  | (Ok a, w') => k a w'
  | (Raise e, w') => (Raise e, w')
  end.
Proof. reflexivity. Qed.

(** The run of [merge_rasters] on files of one CRS, up to the planner:
    nothing is reprojected. *)
Lemma merge_rasters_same_crs_prefix {RT : Runtime}
  (paths : list string) (d0 : Dataset) (drest : list Dataset)
  (output_path : string) (num_bands : Z) (scale_factor : Q)
  (block_size : Z) (resampling_ : Resampling) (w : World) :
  Forall2 (fun p d => fs w p = Some d) paths (d0 :: drest) ->
  Forall (fun d => crs d = crs d0) drest ->
  merge_rasters paths output_path num_bands scale_factor block_size resampling_ w =
  (metadata <~ lift (compute_merge_metadata
                       (map ds (source_handles (next_handle w) (d0 :: drest)))
                       scale_factor) ;;
   result_ <~ write_raster_blocks (source_handles (next_handle w) (d0 :: drest))
                output_path metadata num_bands block_size resampling_ ;;
   _ <~ for_ (source_handles (next_handle w) (d0 :: drest)) (fun s => close (hid s)) ;;
   ret result_)
    (after w (length paths) (open_events (next_handle w) paths)).
Proof.
  intros Hfiles Hsame.
  assert (Hall : Forall (fun s => crs (ds s) = crs d0)
                   (source_handles (next_handle w) (d0 :: drest))).
  { apply source_handles_same_crs. constructor; [reflexivity|exact Hsame]. }
  destruct (reprojected_from_same_crs (crs d0) (next_handle w + length paths) _ Hall)
    as (Hout & Hev & Hh).
  unfold merge_rasters.
  unfold iobind at 1. rewrite (open_all_run paths (d0 :: drest) w Hfiles).
  unfold iobind at 1. unfold lift at 1.
  change (Py.getitem (source_handles (next_handle w) (d0 :: drest)) 0)
    with (Ok {| hid := next_handle w; ds := d0 |}).
  cbv beta iota. cbn [ds].
  unfold iobind at 1.
  rewrite (reproject_rasters_to_crs_run (crs d0)).
  2:{ intros s Hs Hn. exfalso.
      rewrite Forall_forall in Hall. specialize (Hall s Hs).
      apply needs_reprojection_iff in Hn. contradiction. }
  rewrite after_after. cbn [next_handle after].
  rewrite Hout, Hev, Hh, app_nil_r, Nat.add_0_r.
  reflexivity.
Qed.

(** X10. A merge that fails.  When every listed file exists and all are
    in one CRS, a call of [merge_rasters] that raises an error (from the
    planner or from the blockwise writer) leaves every source open: the
    handles [rasterio.open] gave for the files are still open, and
    nothing else is. *)
Theorem merge_rasters_failure_leaves_sources_open {RT : Runtime}
  (paths : list string) (d0 : Dataset) (drest : list Dataset)
  (output_path : string) (num_bands : Z) (scale_factor : Q)
  (block_size : Z) (resampling_ : Resampling) (w : World) (e : exn) :
  Forall2 (fun p d => fs w p = Some d) paths (d0 :: drest) ->
  Forall (fun d => crs d = crs d0) drest ->
  fst (merge_rasters paths output_path num_bands scale_factor block_size
         resampling_ w) = Raise e ->
  exists new,
    trace (snd (merge_rasters paths output_path num_bands scale_factor block_size
                  resampling_ w)) = trace w ++ new /\
    open_handles_from new [] = seq (next_handle w) (length paths).
Proof.
  intros Hfiles Hsame.
  rewrite (merge_rasters_same_crs_prefix paths d0 drest output_path num_bands
             scale_factor block_size resampling_ w Hfiles Hsame).
  rewrite iobind_run. unfold lift.
  destruct (compute_merge_metadata
              (map ds (source_handles (next_handle w) (d0 :: drest))) scale_factor)
    as [metadata|e1]; cbn [fst snd trace after].
  2:{ intros _. eexists. split; [reflexivity|].
      now rewrite open_handles_open_events. }
  rewrite iobind_run.
  destruct (write_raster_blocks_trace
              (source_handles (next_handle w) (d0 :: drest)) output_path metadata
              num_bands block_size resampling_
              (after w (length paths) (open_events (next_handle w) paths)))
    as [(e2 & ->) | (r & profile & evs & -> & Hq)].
  - cbn [fst snd trace after]. intros _. eexists. split; [reflexivity|].
    now rewrite open_handles_open_events.
  - destruct r as [p|e2].
    + rewrite iobind_run, close_all_run. cbn [ret fst]. discriminate.
    + cbn [fst snd trace add_events take_handle next_handle after]. intros _.
      eexists. split; [now rewrite <- app_assoc|].
      rewrite open_handles_from_app, open_handles_open_events. cbn [app].
      apply open_handles_created; [|exact Hq].
      apply Forall_forall. intros h Hin. apply in_seq in Hin. lia.
Qed.

(** X10, witness: scale factor 0 on "a.tif" and "b.tif"; handles 0 and
    1 stay open. *)
Lemma merge_rasters_failure_leaves_sources_open_witness :
  exists new,
    trace (snd (@merge_rasters example_runtime ["a.tif"; "b.tif"]%string "out.tif"
                  1 0 2 bilinear example_world)) = trace example_world ++ new /\
    open_handles_from new [] = [0%nat; 1%nat].
Proof.
  apply (@merge_rasters_failure_leaves_sources_open example_runtime
           ["a.tif"; "b.tif"]%string example_a [example_b] "out.tif" 1 0 2 bilinear
           example_world (ZeroDivisionError "float division by zero")).
  - repeat constructor.
  - repeat constructor.
  - vm_compute. reflexivity.
Defined.

(* ------------------------------------------------------------------ *)
(** ** Computations that close what they open                          *)
(* ------------------------------------------------------------------ *)

Lemma balanced_of_quiet {A : Type} (m : IO A) : quiet_io m -> balanced_io m.
Proof.
  intros Hq w. destruct (Hq w) as (evs & E & Q).
  exists evs. rewrite E. cbn [trace next_handle add_events].
  split; [reflexivity|]. split; [lia|].
  intros acc _. now apply open_handles_quiet.
Qed.

Lemma balanced_bind {A B : Type} (m : IO A) (k : A -> IO B) :
  balanced_io m -> (forall a, balanced_io (k a)) -> balanced_io (iobind m k).
Proof.
  intros Hm Hk w. rewrite iobind_run.
  destruct (Hm w) as (n1 & T1 & N1 & P1).
  destruct (m w) as [[a|e] w1]; cbn [snd] in *.
  - destruct (Hk a w1) as (n2 & T2 & N2 & P2).
    exists (n1 ++ n2). split; [now rewrite T2, T1, app_assoc|].
    split; [lia|].
    intros acc Hacc. rewrite open_handles_from_app, P1 by exact Hacc.
    apply P2. eapply Forall_impl; [|exact Hacc]. intros h Hh. cbn beta in *. lia.
  - exists n1. repeat split; assumption.
Qed.

Lemma with_run {A : Type} (h : nat) (body : IO A) (w : World) :
  with_ h body w = (fst (body w), add_events (snd (body w)) [Close h]).
Proof.
  unfold with_. destruct (body w) as [r w1]. reflexivity.
Qed.

(** [with rasterio.open(path) as h: body] and what follows it. *)
Lemma balanced_open_with_then {A B : Type} (path : string)
  (body : Handle -> IO A) (rest : Handle -> A -> IO B) :
  (forall h, balanced_io (body h)) ->
  (forall h x, balanced_io (rest h x)) ->
  balanced_io (h <~ rasterio_open path ;; x <~ with_ (hid h) (body h) ;; rest h x).
Proof.
  intros Hbody Hrest w. rewrite iobind_run.
  destruct (fs w path) as [d|] eqn:Hfs.
  2:{ unfold rasterio_open. rewrite Hfs. exists []. cbn [snd].
      rewrite app_nil_r. split; [reflexivity|].
      split; [lia|]. intros acc _. reflexivity. }
  rewrite (rasterio_open_run path d w Hfs).
  rewrite iobind_run, with_run. cbn [hid].
  set (h := {| hid := next_handle w; ds := d |}).
  set (w1 := add_events _ [Open (next_handle w) path]).
  destruct (Hbody h w1) as (n2 & T2 & N2 & P2).
  assert (Hclose : forall acc, Forall (fun k => (k < next_handle w)%nat) acc ->
            open_handles_from ([Open (next_handle w) path] ++ n2 ++ [Close (next_handle w)])
              acc = acc).
  { intros acc Hacc. cbn [app open_handles_from].
    rewrite open_handles_from_app, P2.
    - cbn [open_handles_from]. now apply filter_fresh.
    - unfold w1. cbn [next_handle add_events take_handle].
      apply Forall_app. split.
      + eapply Forall_impl; [|exact Hacc]. intros x Hx. cbn beta in *. lia.
      + constructor; [lia|constructor]. }
  assert (Hw1 : next_handle w1 = S (next_handle w)) by reflexivity.
  rewrite Hw1 in N2.
  destruct (fst (body h w1)) as [x|e].
  - destruct (Hrest h x (add_events (snd (body h w1)) [Close (next_handle w)]))
      as (n3 & T3 & N3 & P3).
    exists ([Open (next_handle w) path] ++ n2 ++ [Close (next_handle w)] ++ n3).
    split; [|split].
    + rewrite T3. cbn [trace add_events]. rewrite T2. unfold w1.
      cbn [trace add_events take_handle]. now rewrite <- !app_assoc.
    + cbn [next_handle add_events] in N3. lia.
    + intros acc Hacc.
      rewrite !app_assoc, open_handles_from_app, <- !app_assoc, Hclose by exact Hacc.
      apply P3. cbn [next_handle add_events].
      eapply Forall_impl; [|exact Hacc]. intros k Hk. cbn beta in *. lia.
  - exists ([Open (next_handle w) path] ++ n2 ++ [Close (next_handle w)]).
    split; [|split].
    + cbn [snd trace add_events]. rewrite T2. unfold w1.
      cbn [trace add_events take_handle]. now rewrite <- !app_assoc.
    + cbn [snd next_handle add_events]. lia.
    + exact Hclose.
Qed.

(** [with rasterio.open(path) as h: body] as the last statement. *)
Lemma balanced_open_with {A : Type} (path : string) (body : Handle -> IO A) :
  (forall h, balanced_io (body h)) ->
  balanced_io (h <~ rasterio_open path ;; with_ (hid h) (body h)).
Proof.
  intros Hbody w.
  destruct (balanced_open_with_then path body (fun _ x => ret x) Hbody
              (fun _ x => balanced_of_quiet _ (quiet_ret x)) w) as (new & T & N & P).
  exists new.
  assert (E : (h <~ rasterio_open path ;; with_ (hid h) (body h)) w =
              (h <~ rasterio_open path ;; x <~ with_ (hid h) (body h) ;; ret x) w).
  { rewrite !iobind_run. destruct (rasterio_open path w) as [[h|e] w1]; [|reflexivity].
    rewrite iobind_run. destruct (with_ (hid h) (body h) w1) as [[x|e] w2]; reflexivity. }
  rewrite E. repeat split; assumption.
Qed.

(* ------------------------------------------------------------------ *)
(** ** More on the global rescaler                                     *)
(* ------------------------------------------------------------------ *)

Lemma tabulate_shape {A : Type} (h w : nat) (f : nat -> nat -> A) :
  length (tabulate h w f) = h /\
  Forall (fun row => length row = w) (tabulate h w f).
Proof.
  unfold tabulate. split.
  - now rewrite length_map, length_seq.
  - apply Forall_forall. intros row Hrow.
    apply in_map_iff in Hrow. destruct Hrow as (i & <- & _).
    now rewrite length_map, length_seq.
Qed.

Lemma scaled_fraction_mono (v v' lo hi : Q) :
  (lo < hi)%Q -> (v <= v')%Q ->
  ((v - lo) / (hi - lo) * 65535 <= (v' - lo) / (hi - lo) * 65535)%Q.
Proof.
  intros Hlt Hv.
  apply Qmult_le_compat_r; [|discriminate].
  unfold Qdiv. apply Qmult_le_compat_r.
  - unfold Qminus. apply Qplus_le_compat; [exact Hv | apply Qle_refl].
  - apply Qinv_le_0_compat. apply Qlt_le_weak. now apply Qminus_pos.
Qed.

Lemma valid_at_in_range {RT : Runtime} (d : Dataset) (lo hi : Q) (i j : nat) (v : Q) :
  valid_range d lo hi -> valid_at d i j v -> (lo <= v)%Q /\ (v <= hi)%Q.
Proof.
  intros (_ & _ & Hall) [Hin Hv].
  destruct (Hall i j Hin) as [E | (v0 & E & Hlo & Hhi)]; [congruence|].
  rewrite Hv in E. injection E as <-. now split.
Qed.



Lemma concat_tabulate_empty {A : Type} (h w : nat) (f : nat -> nat -> A) :
  h = 0%nat \/ w = 0%nat -> concat (tabulate h w f) = [].
Proof.
  intros [-> | ->]; [reflexivity|].
  unfold tabulate. cbn [seq map].
  induction (seq 0 h) as [|i l IH]; [reflexivity|exact IH].
Qed.

(** X12. Failures of the rescaler.  [rescale_dsm_global] raises
    rasterio's error, without any event, when the file does not exist.
    For a raster without bands it raises [IndexError] after opening and
    closing the file; for a raster that holds no pixel it raises NumPy's
    [ValueError] for the minimum of an empty array, after the band was
    read and the file closed.  In each case the raster is closed before
    the error reaches the caller. *)
Theorem rescale_dsm_global_failures {RT : Runtime} (dsm_path : string) (w : World) :
  (fs w dsm_path = None ->
   rescale_dsm_global dsm_path w = (Raise (RasterioIOError dsm_path), w)) /\
  (forall d, fs w dsm_path = Some d -> count d < 1 ->
   rescale_dsm_global dsm_path w =
   (Raise (IndexError "band index out of range"),
    add_events (take_handle w)
      [Open (next_handle w) dsm_path; Close (next_handle w)])) /\
  (forall d, fs w dsm_path = Some d -> 1 <= count d ->
   height d <= 0 \/ width d <= 0 ->
   rescale_dsm_global dsm_path w =
   (Raise (ValueError "zero-size array to reduction operation fmin which has no identity"),
    add_events (take_handle w)
      [Open (next_handle w) dsm_path; Read (next_handle w) [1] None;
       Close (next_handle w)])).
Proof.
  split; [|split].
  - intros Hfs. unfold rescale_dsm_global. rewrite iobind_run.
    unfold rasterio_open. now rewrite Hfs.
  - intros d Hfs Hc. unfold rescale_dsm_global.
    rewrite iobind_run, (rasterio_open_run _ _ _ Hfs).
    rewrite iobind_run, with_run. unfold read_band. cbn [hid ds].
    replace ((1 <=? 1) && (1 <=? count d)) with false
      by (symmetry; apply andb_false_iff; right; apply Z.leb_gt; lia).
    rewrite iobind_run. cbn [lift fst snd]. now rewrite add_events_app.
  - intros d Hfs Hc Hsize. unfold rescale_dsm_global.
    rewrite iobind_run, (rasterio_open_run _ _ _ Hfs).
    rewrite iobind_run, with_run. unfold read_band. cbn [hid ds].
    replace ((1 <=? 1) && (1 <=? count d)) with true
      by (symmetry; apply andb_true_iff; split; apply Z.leb_le; lia).
    rewrite !iobind_run, log_run. cbn [ret fst snd].
    rewrite map_map_tabulate. unfold Np.astype_float32.
    rewrite not_equal_tabulate, where_tabulate.
    rewrite iobind_run. unfold lift, Np.nanmin.
    rewrite concat_tabulate_empty by lia.
    now rewrite !add_events_app.
Qed.

(** X12, witness: a file that does not exist. *)
Lemma rescale_dsm_global_failures_witness :
  @rescale_dsm_global example_runtime "missing.tif" example_world =
  (Raise (RasterioIOError "missing.tif"), example_world).
Proof.
  apply (proj1 (@rescale_dsm_global_failures example_runtime "missing.tif"
                  example_world)).
  reflexivity.
Defined.

(* ------------------------------------------------------------------ *)
(** ** Rasters the exporter opens are closed                           *)
(* ------------------------------------------------------------------ *)

Lemma quiet_read_band {RT : Runtime} (src : Handle) (band : Z) :
  quiet_io (read_band src band).
Proof.
  unfold read_band. apply quiet_if; [|apply quiet_lift].
  apply quiet_bind; [now apply quiet_log | intros _; apply quiet_ret].
Qed.

Lemma quiet_read_window {RT : Runtime} (src : Handle) (indexes : list Z) (w : Window)
  (fill_value : option num) : quiet_io (read_window src indexes w fill_value).
Proof.
  unfold read_window. apply quiet_if; [|apply quiet_lift].
  apply quiet_bind; [now apply quiet_log | intros _; apply quiet_ret].
Qed.

Lemma quiet_export_chunk {RT : Runtime} (dsm satellite : Handle)
  (scaled_dsm : list (list Z)) (dsm_nodata : option num) (output_folder : string)
  (left_ bottom_ chunk_width chunk_height : Q) (row col : Z) :
  quiet_io (export_chunk dsm satellite scaled_dsm dsm_nodata output_folder
              left_ bottom_ chunk_width chunk_height row col).
Proof.
  unfold export_chunk.
  destruct (chunk_bounds left_ bottom_ chunk_width chunk_height row col)
    as [[[chunk_left chunk_bottom] chunk_right] chunk_top].
  apply quiet_bind; [apply quiet_lift | intros dsm_window].
  apply quiet_bind; [apply quiet_lift | intros satellite_window].
  cbv zeta.
  apply quiet_bind; [apply quiet_read_window | intros satellite_chunk].
  apply quiet_bind; [now apply quiet_log | intros _].
  now apply quiet_log.
Qed.

Lemma balanced_rescale_dsm_global {RT : Runtime} (dsm_path : string) :
  balanced_io (rescale_dsm_global dsm_path).
Proof.
  unfold rescale_dsm_global.
  apply (balanced_open_with_then dsm_path
           (fun src => data <~ read_band src 1 ;;
                       ret (map (map Np.astype_float32) data, nodata (ds src)))).
  - intros src. apply balanced_of_quiet.
    apply quiet_bind; [apply quiet_read_band | intros data; apply quiet_ret].
  - intros src r. cbv zeta. apply balanced_of_quiet.
    apply quiet_bind; [apply quiet_lift | intros global_min].
    apply quiet_bind; [apply quiet_lift | intros global_max].
    apply quiet_ret.
Qed.

Lemma balanced_generate_chunks {RT : Runtime}
  (dsm_path satellite_path output_folder : string) (n_rows n_cols : Z) :
  balanced_io (generate_chunks dsm_path satellite_path output_folder n_rows n_cols).
Proof.
  unfold generate_chunks.
  apply balanced_bind; [apply balanced_of_quiet; now apply quiet_log | intros _].
  apply balanced_bind; [apply balanced_rescale_dsm_global | intros r].
  cbv zeta.
  apply (balanced_open_with_then dsm_path
           (fun dsm =>
              satellite <~ rasterio_open satellite_path ;;
              with_ (hid satellite)
                (if negb (String.eqb (crs (ds dsm)) (crs (ds satellite)))
                 then lift (Raise (ValueError "CRS mismatch between DSM and Satellite rasters"))
                 else
                   let '(left_, bottom_, right_, top_) :=
                     common_bbox (ds dsm) (ds satellite) in
                   chunk_width <~ lift (Py.truediv (right_ - left_) (inject_Z n_cols)) ;;
                   chunk_height <~ lift (Py.truediv (top_ - bottom_) (inject_Z n_rows)) ;;
                   rows <~ lift (Py.range 0 n_rows 1) ;;
                   for_ rows (fun row =>
                     cols <~ lift (Py.range 0 n_cols 1) ;;
                     for_ cols (fun col =>
                       export_chunk dsm satellite (fst r) (snd r) output_folder
                         left_ bottom_ chunk_width chunk_height row col))))
           (fun _ _ => ret output_folder)).
  - intros dsm. apply balanced_open_with. intros satellite.
    apply balanced_of_quiet. apply quiet_if; [apply quiet_lift|].
    destruct (common_bbox (ds dsm) (ds satellite)) as [[[left_ bottom_] right_] top_].
    apply quiet_bind; [apply quiet_lift | intros chunk_width].
    apply quiet_bind; [apply quiet_lift | intros chunk_height].
    apply quiet_bind; [apply quiet_lift | intros rows].
    apply quiet_for. intros row.
    apply quiet_bind; [apply quiet_lift | intros cols].
    apply quiet_for. intros col. apply quiet_export_chunk.
  - intros _ _. apply balanced_of_quiet. apply quiet_ret.
Qed.

(** X13. No raster is left open.  Whatever the files on disk, the
    arguments and the outcome (a result or any exception),
    [rescale_dsm_global] and [generate_chunks] have closed every raster
    they opened when they return, and they close no raster that was
    open before the call. *)
Theorem generate_chunks_closes_rasters {RT : Runtime} :
  (forall dsm_path w,
      exists new,
        trace (snd (rescale_dsm_global dsm_path w)) = trace w ++ new /\
        open_handles_from new [] = [] /\
        (forall acc, Forall (fun k => (k < next_handle w)%nat) acc ->
                     open_handles_from new acc = acc)) /\
  (forall dsm_path satellite_path output_folder n_rows n_cols w,
      exists new,
        trace (snd (generate_chunks dsm_path satellite_path output_folder
                      n_rows n_cols w)) = trace w ++ new /\
        open_handles_from new [] = [] /\
        (forall acc, Forall (fun k => (k < next_handle w)%nat) acc ->
                     open_handles_from new acc = acc)).
Proof.
  split.
  - intros dsm_path w.
    destruct (balanced_rescale_dsm_global dsm_path w) as (new & T & _ & P).
    exists new. split; [exact T|]. split; [now apply P | exact P].
  - intros dsm_path satellite_path output_folder n_rows n_cols w.
    destruct (balanced_generate_chunks dsm_path satellite_path output_folder
                n_rows n_cols w) as (new & T & _ & P).
    exists new. split; [exact T|]. split; [now apply P | exact P].
Qed.

(* ------------------------------------------------------------------ *)
(** ** Grids without cells and missing inputs                          *)
(* ------------------------------------------------------------------ *)

Lemma range_unit_empty (n : Z) : n <= 0 -> Py.range 0 n 1 = Ok [].
Proof.
  intros Hn. unfold Py.range. cbn [Z.eqb Z.ltb Z.compare].
  replace ((n - 0 + 1 - 1) / 1) with n by (rewrite Z.div_1_r; lia).
  replace (Z.to_nat n) with 0%nat by lia. reflexivity.
Qed.

Lemma truediv_zero (a b : Q) :
  (b == 0)%Q -> Py.truediv a b = Raise (ZeroDivisionError "float division by zero").
Proof.
  intros Hb. unfold Py.truediv. apply Qeq_bool_iff in Hb. now rewrite Hb.
Qed.

Lemma empty_rows_run (rows : list Z) (body : Z -> Z -> IO unit) (w : World) :
  for_ rows (fun row => cols <~ lift (Ok (@nil Z)) ;; for_ cols (body row)) w = (Ok tt, w).
Proof.
  induction rows as [|row rows IH]; [reflexivity|].
  cbn [for_]. rewrite iobind_run, iobind_run. cbn [lift for_ ret]. exact IH.
Qed.

Ltac run_to_grid Hd Hs Hok Hcrs :=
  unfold generate_chunks;
  unfold iobind at 1; rewrite log_run;
  unfold iobind at 1;
  run_rescale Hd Hok;
  cbn [fst snd];
  unfold iobind at 1;
  run_open Hd;
  unfold iobind at 1, with_ at 1; cbn [hid ds];
  unfold iobind at 1;
  run_open Hs;
  unfold with_ at 1; cbn [hid ds];
  rewrite Hcrs, String_eqb_refl_true; cbn [negb];
  unfold common_bbox.

Ltac close_both :=
  unfold close; rewrite !log_run;
  rewrite !take_handle_add_events, !add_events_app;
  unfold aborted_events; cbn [app next_handle take_handle add_events];
  rewrite <- ?app_assoc; reflexivity.

(** X14. Grids without cells.  For two existing mosaics of one CRS,
    [generate_chunks] raises [ZeroDivisionError] when [n_cols] or
    [n_rows] is 0; when neither is 0 and one of them is negative it
    returns the output folder as after a complete run.  In both cases
    it has created the folder, read and rescaled the elevation raster
    and opened and closed both mosaics, and it has read no tile and
    saved no file. *)
Theorem generate_chunks_degenerate_grid {RT : Runtime}
  (dsm_path satellite_path output_folder : string) (n_rows n_cols : Z)
  (d s : Dataset) (w : World) :
  fs w dsm_path = Some d ->
  fs w satellite_path = Some s ->
  raster_ok d ->
  crs d = crs s ->
  (n_cols = 0 \/ n_rows = 0 ->
   generate_chunks dsm_path satellite_path output_folder n_rows n_cols w =
   (Raise (ZeroDivisionError "float division by zero"),
    add_events (take_handle (take_handle (take_handle w)))
      (aborted_events (next_handle w) dsm_path satellite_path output_folder))) /\
  (n_cols <> 0 -> n_rows <> 0 -> n_cols < 0 \/ n_rows < 0 ->
   generate_chunks dsm_path satellite_path output_folder n_rows n_cols w =
   (Ok output_folder,
    add_events (take_handle (take_handle (take_handle w)))
      (aborted_events (next_handle w) dsm_path satellite_path output_folder))) /\
  saved (aborted_events (next_handle w) dsm_path satellite_path output_folder) = [].
Proof.
  intros Hd Hs Hok Hcrs. split; [|split; [|reflexivity]].
  - intros Hz. run_to_grid Hd Hs Hok Hcrs.
    unfold iobind at 1. unfold lift at 1.
    destruct (Z.eq_dec n_cols 0) as [->|Hc].
    + rewrite truediv_zero by reflexivity. close_both.
    + destruct Hz as [Hz|Hz]; [contradiction|]. subst n_rows.
      rewrite truediv_ok by (now apply inject_Z_nonzero).
      unfold iobind at 1. unfold lift at 1.
      rewrite truediv_zero by reflexivity. close_both.
  - intros Hc Hr Hneg. run_to_grid Hd Hs Hok Hcrs.
    unfold iobind at 1. unfold lift at 1.
    rewrite truediv_ok by (now apply inject_Z_nonzero).
    unfold iobind at 1. unfold lift at 1.
    rewrite truediv_ok by (now apply inject_Z_nonzero).
    unfold iobind at 1. unfold lift at 1.
    destruct (Z_lt_le_dec n_rows 0) as [Hrn|Hrp].
    + rewrite range_unit_empty by lia. cbn [for_ ret]. close_both.
    + destruct Hneg as [Hcn|Hrn]; [|lia].
      rewrite range_offsets at 1 by lia.
      rewrite (range_unit_empty n_cols) by lia.
      rewrite empty_rows_run. close_both.
Qed.

(** X14, witness: the example mosaics with no column and with -1 rows. *)
Lemma generate_chunks_degenerate_grid_witness :
  fst (@generate_chunks example_runtime "grid.tif" "color.tif" "out" 2 0 example_world) =
    Raise (ZeroDivisionError "float division by zero") /\
  fst (@generate_chunks example_runtime "grid.tif" "color.tif" "out" (-1) 2 example_world) =
    Ok "out"%string.
Proof.
  destruct (@generate_chunks_degenerate_grid example_runtime "grid.tif" "color.tif" "out"
              2 0 example_grid example_color example_world eq_refl eq_refl
              ltac:(repeat split; reflexivity) eq_refl) as (H0 & _ & _).
  destruct (@generate_chunks_degenerate_grid example_runtime "grid.tif" "color.tif" "out"
              (-1) 2 example_grid example_color example_world eq_refl eq_refl
              ltac:(repeat split; reflexivity) eq_refl) as (_ & Hneg & _).
  split.
  - rewrite H0; [reflexivity | now left].
  - rewrite Hneg; [reflexivity | lia | lia | right; lia].
Defined.

(** X15. Missing inputs.  When the elevation raster does not exist,
    [generate_chunks] raises rasterio's error for it, after it created
    the output folder and before anything else.  When only the color
    mosaic does not exist, the error is raised after the elevation
    raster has been read and rescaled and opened a second time; that
    second handle is closed by the [with] statement, and no tile is
    saved. *)
Theorem generate_chunks_missing_input {RT : Runtime}
  (dsm_path satellite_path output_folder : string) (n_rows n_cols : Z) (w : World) :
  (fs w dsm_path = None ->
   generate_chunks dsm_path satellite_path output_folder n_rows n_cols w =
   (Raise (RasterioIOError dsm_path), add_events w [Makedirs output_folder])) /\
  (forall d, fs w dsm_path = Some d -> raster_ok d -> fs w satellite_path = None ->
   generate_chunks dsm_path satellite_path output_folder n_rows n_cols w =
   (Raise (RasterioIOError satellite_path),
    add_events (take_handle (take_handle w))
      (Makedirs output_folder
       :: rescale_events (next_handle w) dsm_path
       ++ [Open (S (next_handle w)) dsm_path; Close (S (next_handle w))]))).
Proof.
  split.
  - intros Hd. unfold generate_chunks.
    unfold iobind at 1. rewrite log_run.
    rewrite iobind_run.
    destruct (rescale_dsm_global_failures dsm_path
                (add_events w [Makedirs output_folder])) as (Hmiss & _).
    now rewrite Hmiss.
  - intros d Hd Hok Hs. unfold generate_chunks.
    unfold iobind at 1. rewrite log_run.
    unfold iobind at 1.
    run_rescale Hd Hok.
    cbn [fst snd].
    unfold iobind at 1.
    run_open Hd.
    unfold iobind at 1, with_ at 1. cbn [hid ds].
    unfold iobind at 1. unfold rasterio_open at 1.
    cbn [fs add_events take_handle]. rewrite Hs.
    unfold close. rewrite !log_run.
    rewrite !take_handle_add_events, !add_events_app.
    cbn [app next_handle take_handle add_events].
    rewrite <- ?app_assoc. reflexivity.
Qed.

(** X15, witness: no elevation raster at "missing.tif". *)
Lemma generate_chunks_missing_input_witness :
  @generate_chunks example_runtime "missing.tif" "color.tif" "out" 2 2 example_world =
  (Raise (RasterioIOError "missing.tif"), add_events example_world [Makedirs "out"]).
Proof.
  apply (proj1 (@generate_chunks_missing_input example_runtime "missing.tif" "color.tif"
                  "out" 2 2 example_world)).
  reflexivity.
Defined.

(* ------------------------------------------------------------------ *)
(** ** Elevation tiles                                                 *)
(* ------------------------------------------------------------------ *)

Lemma map2_map_self {A B C : Type} (g : B -> A -> C) (f : A -> B) (l : list A) :
  map2 g (map f l) l = map (fun x => g (f x) x) l.
Proof.
  induction l as [|x l IH]; [reflexivity|]. cbn [map map2]. now rewrite IH.
Qed.

Lemma where_self_mask {A : Type} (f : A -> bool) (a : list (list A)) (v : A) :
  Np.where_ (map (map f) a) a v = map (map (fun x => if f x then x else v)) a.
Proof.
  unfold Np.where_.
  induction a as [|r a IH]; [reflexivity|].
  cbn [map map2]. now rewrite IH, map2_map_self.
Qed.

Lemma at2_map {A B : Type} (g : A -> B) (a : list (list A)) (i j : nat) :
  at2 (map (map g) a) i j = option_map g (at2 a i j).
Proof.
  unfold at2. rewrite nth_error_map.
  destruct (nth_error a i) as [row|]; [|reflexivity].
  cbn [option_map]. apply nth_error_map.
Qed.

Lemma map_map_id_in {A : Type} (g : A -> A) (P : A -> Prop) (a : list (list A)) :
  Forall (Forall P) a -> (forall x, P x -> g x = x) -> map (map g) a = a.
Proof.
  intros Ha Hg. induction Ha as [|r a Hr _ IH]; [reflexivity|].
  cbn [map]. rewrite IH. f_equal.
  induction Hr as [|x r Hx _ IHr]; [reflexivity|].
  cbn [map]. now rewrite IHr, Hg.
Qed.

Lemma at2_Forall {A : Type} (P : A -> Prop) (a : list (list A)) (i j : nat) (x : A) :
  Forall (Forall P) a -> at2 a i j = Some x -> P x.
Proof.
  intros Ha E. unfold at2 in E.
  destruct (nth_error a i) as [row|] eqn:Er; [|discriminate].
  apply nth_error_In in Er. apply nth_error_In in E.
  rewrite Forall_forall in Ha. specialize (Ha row Er).
  rewrite Forall_forall in Ha. now apply Ha.
Qed.



Lemma slice_nth_error {A : Type} (a : list A) (start stop : Z) (i : nat) :
  0 <= start -> 0 <= stop ->
  nth_error (Np.slice a start stop) i =
  if Z.of_nat i <? stop - start then nth_error a (Z.to_nat start + i) else None.
Proof.
  intros Hs He. unfold Np.slice.
  destruct (Z.ltb_spec start 0) as [?|_]; [lia|].
  destruct (Z.ltb_spec stop 0) as [?|_]; [lia|].
  rewrite nth_error_firstn, nth_error_skipn.
  destruct (Z.ltb_spec (Z.of_nat i) (stop - start)) as [Hi|Hi];
    destruct (Nat.ltb_spec i (Z.to_nat (Z.min stop (Z.of_nat (length a)) -
                                        Z.min start (Z.of_nat (length a)))))
      as [Hk|Hk].
  - f_equal. lia.
  - symmetry. apply nth_error_None. lia.
  - lia.
  - reflexivity.
Qed.

Lemma Qfloor_nonneg (q : Q) : (0 <= q)%Q -> 0 <= Qfloor q.
Proof.
  intros Hq. change 0 with (Qfloor 0). now apply Qfloor_resp_le.
Qed.



(* ------------------------------------------------------------------ *)
(** ** The texture exporter                                            *)
(* ------------------------------------------------------------------ *)

Lemma tabulate_ext {A : Type} (h w : nat) (f g : nat -> nat -> A) :
  (forall i j, (i < h)%nat -> (j < w)%nat -> f i j = g i j) ->
  tabulate h w f = tabulate h w g.
Proof.
  intros H. unfold tabulate.
  apply map_ext_in. intros i Hi. apply in_seq in Hi.
  apply map_ext_in. intros j Hj. apply in_seq in Hj.
  apply H; lia.
Qed.

Lemma nth_error_tabulate {A : Type} (h w : nat) (f : nat -> nat -> A) (i : nat) :
  nth_error (tabulate h w f) i =
  if (i <? h)%nat then Some (map (fun j => f i j) (seq 0 w)) else None.
Proof.
  unfold tabulate. destruct (Nat.ltb_spec i h) as [Hi|Hi].
  - now rewrite nth_error_map_seq by exact Hi.
  - apply nth_error_None. now rewrite length_map, length_seq.
Qed.

Lemma paste_row_full (w : nat) (f g : nat -> list Z) :
  paste_row (map f (seq 0 w)) (map g (seq 0 w)) = map g (seq 0 w).
Proof.
  unfold paste_row, mapi. rewrite mapi_from_map_seq.
  apply map_ext_in. intros x Hx. apply in_seq in Hx.
  now rewrite nth_error_map_seq by lia.
Qed.

Lemma moveaxis4_tabulate {A : Type} (f1 f2 f3 f4 : nat -> nat -> A) (h w : nat) :
  Np.moveaxis_0_last
    [tabulate h w f1; tabulate h w f2; tabulate h w f3; tabulate h w f4] =
  tabulate h w (fun i j => [f1 i j; f2 i j; f3 i j; f4 i j]).
Proof.
  change (Np.moveaxis_0_last
            [tabulate h w f1; tabulate h w f2; tabulate h w f3; tabulate h w f4])
    with (map2 (map2 cons) (tabulate h w f1)
            (Np.moveaxis_0_last [tabulate h w f2; tabulate h w f3; tabulate h w f4])).
  now rewrite moveaxis3_tabulate, map2_cons_tabulate.
Qed.

Section Texture.

Context {RT : Runtime}.
Variables (d : Dataset) (h0 : nat).
Hypothesis Hcount : 1 <= count d.

Local Abbreviation src := {| hid := h0; ds := d |}.
Local Abbreviation W := (Z.to_nat (width d)).
Local Abbreviation H := (Z.to_nat (height d)).

Lemma all_bands_first : exists tl, all_bands d = 1 :: tl.
Proof.
  unfold all_bands.
  destruct (Z.to_nat (count d)) as [|n] eqn:E; [lia|].
  eexists. reflexivity.
Qed.

(** The pixels made from the strip that starts at row [y0]. *)
Lemma block_pixels_strip (y0 hn : nat) :
  block_pixels (count d)
    (map (fun band => tabulate hn W (fun i j => band_px d band (y0 + i) j))
         (all_bands d)) =
  Ok (tabulate hn W (fun i x => texture_px d (y0 + i) x)).
Proof.
  unfold block_pixels, texture_px.
  destruct (Z.eqb_spec (count d) 3) as [E3|N3].
  - cbn [orb].
    assert (Hb : all_bands d = [1; 2; 3]) by (unfold all_bands; now rewrite E3).
    rewrite Hb. cbn [map].
    now rewrite moveaxis3_tabulate, map_map_tabulate.
  - destruct (Z.eqb_spec (count d) 4) as [E4|N4].
    + cbn [orb].
      assert (Hb : all_bands d = [1; 2; 3; 4]) by (unfold all_bands; now rewrite E4).
      rewrite Hb. cbn [map].
      now rewrite moveaxis4_tabulate, map_map_tabulate.
    + cbn [orb]. destruct all_bands_first as (tl & ->).
      cbn [map Py.getitem nth_error bind].
      now rewrite map_map_tabulate.
Qed.

Lemma paste_texture (limit hn : nat) :
  paste (texture_upto d limit)
    (tabulate hn W (fun i x => texture_px d (limit + i) x)) (Z.of_nat limit) =
  texture_upto d (limit + hn).
Proof.
  unfold paste, texture_upto. cbn [pic_mode pic_size pic_rows]. f_equal.
  rewrite Nat2Z.id.
  set (block := tabulate hn W _).
  unfold tabulate, mapi. rewrite mapi_from_map_seq.
  apply map_ext_in. intros y Hy. apply in_seq in Hy.
  destruct (Nat.leb_spec limit y) as [Hle|Hlt].
  - unfold block. rewrite nth_error_tabulate.
    destruct (Nat.ltb_spec (y - limit) hn) as [Hin|Hout].
    + rewrite paste_row_full.
      apply map_ext_in. intros x Hx.
      replace (limit + (y - limit))%nat with y by lia.
      destruct (Nat.ltb_spec y (limit + hn)); [reflexivity|lia].
    + apply map_ext_in. intros x Hx.
      destruct (Nat.ltb_spec y limit); [lia|].
      destruct (Nat.ltb_spec y (limit + hn)); [lia|reflexivity].
  - apply map_ext_in. intros x Hx.
    destruct (Nat.ltb_spec y limit); [|lia].
    destruct (Nat.ltb_spec y (limit + hn)); [reflexivity|lia].
Qed.

Variable block_size : Z.
Hypothesis Hbs : 0 < block_size.
Hypothesis Hheight : 0 <= height d.

(** The loop over the strips, from strip [s] on. *)
Lemma strips_loop (n s : nat) (w : World) :
  (forall k, (s <= k < s + n)%nat -> Z.of_nat k * block_size < height d) ->
  fold_io (map (fun k => 0 + Z.of_nat k * block_size) (seq s n))
    (fun img y_off =>
       let h := Z.min block_size (height d - y_off) in
       block <~ read_strip src y_off h ;;
       block_px <~ lift (block_pixels (count d) block) ;;
       ret (paste img block_px y_off))
    (texture_upto d (Z.to_nat (Z.min (Z.of_nat s * block_size) (height d)))) w =
  (Ok (texture_upto d (Z.to_nat (Z.min (Z.of_nat (s + n) * block_size) (height d)))),
   add_events w
     (map (fun y_off =>
             Read h0 (all_bands d)
               (Some (Window_of_ints 0 y_off (width d)
                        (Z.min block_size (height d - y_off)))))
          (map (fun k => 0 + Z.of_nat k * block_size) (seq s n)))).
Proof.
  revert s w. induction n as [|n IH]; intros s w Hlt.
  - cbn [seq map fold_io ret]. now rewrite Nat.add_0_r, add_events_nil.
  - cbn [seq map fold_io]. cbv zeta.
    assert (Hs : Z.of_nat s * block_size < height d) by (apply Hlt; lia).
    rewrite iobind_run. cbv beta zeta.
    rewrite iobind_run. unfold read_strip at 1.
    rewrite iobind_run, log_run. cbn [ret hid ds].
    rewrite iobind_run. unfold lift at 1.
    replace (Z.to_nat (0 + Z.of_nat s * block_size))
      with (Z.to_nat (Z.min (Z.of_nat s * block_size) (height d))) by lia.
    rewrite block_pixels_strip. cbn [ret].
    replace (0 + Z.of_nat s * block_size)
      with (Z.of_nat (Z.to_nat (Z.min (Z.of_nat s * block_size) (height d)))) at 2
      by lia.
    rewrite paste_texture.
    replace (Z.to_nat (Z.min (Z.of_nat s * block_size) (height d)) +
             Z.to_nat (Z.min block_size (height d - (0 + Z.of_nat s * block_size))))%nat
      with (Z.to_nat (Z.min (Z.of_nat (S s) * block_size) (height d))) by lia.
    rewrite IH by (intros k Hk; apply Hlt; lia).
    rewrite add_events_app. cbn [app].
    replace (S s + n)%nat with (s + S n)%nat by lia. reflexivity.
Qed.

End Texture.

Lemma Image_new_black {RT : Runtime} (d : Dataset) :
  0 <= width d -> 0 <= height d ->
  Image_new (mode_of (count d)) (width d) (height d) = Ok (texture_upto d 0).
Proof.
  intros Hw Hh. unfold Image_new.
  replace ((width d <? 0) || (height d <? 0)) with false
    by (symmetry; apply orb_false_iff; split; apply Z.ltb_ge; lia).
  unfold texture_upto. rewrite repeat2_tabulate. reflexivity.
Qed.

Lemma texture_upto_px {RT : Runtime} (d : Dataset) (limit y x : nat) :
  (y < Z.to_nat (height d))%nat -> (x < Z.to_nat (width d))%nat ->
  at2 (pic_rows (texture_upto d limit)) y x =
  Some (if (y <? limit)%nat then texture_px d y x
        else repeat 0 (channels (mode_of (count d)))).
Proof.
  intros Hy Hx. unfold texture_upto. cbn [pic_rows].
  now rewrite at2_tabulate by assumption.
Qed.

Lemma strip_offsets_below (stop step : Z) (k : nat) :
  0 < step ->
  (0 <= k < 0 + Z.to_nat ((stop - 0 + step - 1) / step))%nat ->
  Z.of_nat k * step < stop.
Proof.
  intros Hs Hk.
  assert (Hin : In (0 + Z.of_nat k * step) (offsets stop step)).
  { unfold offsets. apply in_map_iff. exists k. split; [reflexivity|].
    apply in_seq. exact Hk. }
  apply offsets_in in Hin; [lia|exact Hs].
Qed.

Lemma strips_cover (stop step : Z) :
  0 < step -> 0 <= stop ->
  Z.to_nat (Z.min (Z.of_nat (0 + Z.to_nat ((stop - 0 + step - 1) / step)) * step) stop) =
  Z.to_nat stop.
Proof.
  intros Hs Hstop.
  assert (H0 : 0 <= (stop - 0 + step - 1) / step) by (apply Z.div_pos; lia).
  assert (Hge : stop <= (stop - 0 + step - 1) / step * step).
  { pose proof (Z.mul_succ_div_gt (stop - 0 + step - 1) step Hs). lia. }
  rewrite Nat.add_0_l, Z2Nat.id by exact H0. lia.
Qed.

(** X18. The texture.  For an existing raster with at least one band
    and at least one column, and a block size above zero,
    [export_texture_png] opens the raster, reads it strip by strip from
    top to bottom and hands one image to the PNG encoder, then closes
    the raster and returns the output path (or raises the encoder's
    error).
    The image has the raster's size, mode RGB for 3 bands, RGBA for 4
    and L otherwise, and its pixel [(y, x)] holds, converted to bytes,
    the pixel [(y, x)] of every band (3 or 4 bands) or of band 1 alone:
    the strips are put back where they were read. *)
Theorem export_texture_png_pixels {RT : Runtime} {PL : Pillow}
  (input_tif output_png : string) (block_size : Z) (d : Dataset) (w : World) :
  fs w input_tif = Some d ->
  1 <= count d ->
  0 < width d ->
  0 <= height d ->
  0 < block_size ->
  exists pic,
    export_texture_png input_tif output_png block_size w =
      (let (r, w') :=
         save_png output_png pic
           (add_events (take_handle w)
              (Open (next_handle w) input_tif
               :: strip_reads (next_handle w) d block_size)) in
       (match r with Ok _ => Ok output_png | Raise e => Raise e end,
        add_events w' [Close (next_handle w)])) /\
    pic_mode pic = mode_of (count d) /\
    pic_size pic = (width d, height d) /\
    length (pic_rows pic) = Z.to_nat (height d) /\
    (forall y x,
        (y < Z.to_nat (height d))%nat -> (x < Z.to_nat (width d))%nat ->
        at2 (pic_rows pic) y x = Some (texture_px d y x)).
Proof.
  intros Hfs Hcount Hw Hh Hbs.
  exists (texture_upto d (Z.to_nat (height d))).
  split; [|split; [reflexivity|split; [reflexivity|split]]].
  - unfold export_texture_png.
    rewrite iobind_run, (rasterio_open_run _ _ _ Hfs).
    rewrite iobind_run. unfold with_ at 1. cbn [hid ds]. cbv zeta.
    rewrite iobind_run. unfold lift at 1.
    rewrite Image_new_black by lia.
    rewrite iobind_run. unfold lift at 1. unfold Py.floordiv.
    destruct (Z.eqb_spec block_size 0) as [E|_]; [lia|]. cbn [bind].
    rewrite iobind_run. unfold lift at 1.
    rewrite range_offsets by exact Hbs. unfold offsets.
    rewrite iobind_run.
    replace (texture_upto d 0)
      with (texture_upto d (Z.to_nat (Z.min (Z.of_nat 0 * block_size) (height d))))
      by (f_equal; lia).
    rewrite (strips_loop d (next_handle w) Hcount block_size Hbs)
      by (intros k Hk; now apply strip_offsets_below).
    rewrite strips_cover by assumption.
    rewrite add_events_app. cbn [app].
    unfold strip_reads, offsets.
    destruct (save_png output_png (texture_upto d (Z.to_nat (height d))) _)
      as [[u|e] w2]; unfold close; rewrite log_run; reflexivity.
  - unfold texture_upto. cbn [pic_rows].
    apply (tabulate_shape (Z.to_nat (height d)) (Z.to_nat (width d))).
  - intros y x Hy Hx. rewrite texture_upto_px by assumption.
    destruct (Nat.ltb_spec y (Z.to_nat (height d))); [reflexivity|lia].
Qed.

(** X18, witness: the example grid of 2 by 2 pixels in strips of one
    row. *)
Lemma export_texture_png_pixels_witness :
  exists pic,
    @export_texture_png example_runtime example_pillow "grid.tif" "grid.png" 1
      example_world =
    (Ok "grid.png"%string,
     add_events (take_handle example_world)
       (Open (next_handle example_world) "grid.tif"
        :: strip_reads (next_handle example_world) example_grid 1 ++
           [SavePng "grid.png" (ImageRGB (pic_rows pic));
            Close (next_handle example_world)])) /\
    pic_size pic = (2, 2) /\
    at2 (pic_rows pic) 1 0 = Some [30].
Proof.
  destruct (@export_texture_png_pixels example_runtime example_pillow "grid.tif"
              "grid.png" 1 example_grid example_world eq_refl)
    as (pic & Hrun & _ & Hsize & _ & Hpx).
  - simpl. lia.
  - simpl. lia.
  - simpl. lia.
  - lia.
  - exists pic. split; [|split].
    + rewrite Hrun. cbn [save_png example_pillow]. rewrite log_run.
      rewrite !add_events_app. reflexivity.
    + exact Hsize.
    + rewrite (Hpx 1%nat 0%nat) by (simpl; lia). reflexivity.
Defined.

(** X19. Edge cases of the texture exporter.  A missing input makes
    [export_texture_png] raise [RasterioIOError] with nothing done.  With
    block size 0 it raises [ZeroDivisionError] (from the total of the
    progress bar) after opening the raster: no strip is read, nothing is
    saved and the raster is closed.  With a negative block size the loop
    has no turn: no strip is read and the image handed to the encoder
    has the raster's size with every channel of every pixel equal to
    0. *)
Theorem export_texture_png_edges {RT : Runtime} {PL : Pillow}
  (input_tif output_png : string) (block_size : Z) (w : World) :
  (fs w input_tif = None ->
   export_texture_png input_tif output_png block_size w =
   (Raise (RasterioIOError input_tif), w)) /\
  (forall d,
      fs w input_tif = Some d -> 0 <= width d -> 0 <= height d ->
      block_size = 0 ->
      export_texture_png input_tif output_png block_size w =
      (Raise (ZeroDivisionError "integer division or modulo by zero"),
       add_events (take_handle w)
         [Open (next_handle w) input_tif; Close (next_handle w)])) /\
  (forall d,
      fs w input_tif = Some d -> 0 <= width d -> 0 <= height d ->
      block_size < 0 ->
      exists pic,
        export_texture_png input_tif output_png block_size w =
          (let (r, w') :=
             save_png output_png pic
               (add_events (take_handle w) [Open (next_handle w) input_tif]) in
           (match r with Ok _ => Ok output_png | Raise e => Raise e end,
            add_events w' [Close (next_handle w)])) /\
        pic_size pic = (width d, height d) /\
        (forall y x,
            (y < Z.to_nat (height d))%nat -> (x < Z.to_nat (width d))%nat ->
            at2 (pic_rows pic) y x = Some (repeat 0 (channels (mode_of (count d)))))).
Proof.
  split; [|split].
  - intros Hfs. unfold export_texture_png.
    rewrite iobind_run. unfold rasterio_open. now rewrite Hfs.
  - intros d Hfs Hw Hh ->. unfold export_texture_png.
    rewrite iobind_run, (rasterio_open_run _ _ _ Hfs).
    rewrite iobind_run. unfold with_ at 1. cbn [hid ds]. cbv zeta.
    rewrite iobind_run. unfold lift at 1.
    rewrite Image_new_black by assumption.
    rewrite iobind_run. unfold lift at 1. unfold Py.floordiv.
    cbn [Z.eqb bind]. unfold close. rewrite log_run.
    rewrite add_events_app. reflexivity.
  - intros d Hfs Hw Hh Hbs.
    exists (texture_upto d 0). split; [|split; [reflexivity|]].
    + unfold export_texture_png.
      rewrite iobind_run, (rasterio_open_run _ _ _ Hfs).
      rewrite iobind_run. unfold with_ at 1. cbn [hid ds]. cbv zeta.
      rewrite iobind_run. unfold lift at 1.
      rewrite Image_new_black by assumption.
      rewrite iobind_run. unfold lift at 1. unfold Py.floordiv.
      destruct (Z.eqb_spec block_size 0) as [E|_]; [lia|]. cbn [bind].
      rewrite iobind_run. unfold lift at 1.
      rewrite range_negative_step by assumption.
      rewrite iobind_run. cbn [fold_io ret].
      destruct (save_png output_png (texture_upto d 0) _) as [[u|e] w2];
        unfold close; rewrite log_run; reflexivity.
    + intros y x Hy Hx. rewrite texture_upto_px by assumption.
      reflexivity.
Qed.

(** X19, witness: block size 0 on the example grid. *)
Lemma export_texture_png_edges_witness :
  @export_texture_png example_runtime example_pillow "grid.tif" "grid.png" 0
    example_world =
  (Raise (ZeroDivisionError "integer division or modulo by zero"),
   add_events (take_handle example_world)
     [Open (next_handle example_world) "grid.tif";
      Close (next_handle example_world)]).
Proof.
  destruct (@export_texture_png_edges example_runtime example_pillow "grid.tif"
              "grid.png" 0 example_world) as (_ & Hzero & _).
  apply (Hzero example_grid); [reflexivity | simpl; lia | simpl; lia | reflexivity].
Defined.

Lemma quiet_fold_io {A S : Type} (l : list A) (body : S -> A -> IO S) (s : S) :
  (forall s x, quiet_io (body s x)) -> quiet_io (fold_io l body s).
Proof.
  intros Hbody. revert s. induction l as [|x l IH]; intros s.
  - apply quiet_ret.
  - cbn [fold_io]. apply quiet_bind; [apply Hbody | exact IH].
Qed.

Lemma quiet_read_strip {RT : Runtime} (src : Handle) (y_off h : Z) :
  quiet_io (read_strip src y_off h).
Proof.
  unfold read_strip.
  apply quiet_bind; [now apply quiet_log | intros _; apply quiet_ret].
Qed.

(** X20. The exporter closes its raster.  When the PNG encoder itself
    opens and closes no raster, then whatever the arguments and the
    outcome (the path or any exception, of the encoder as well),
    [export_texture_png] has closed the raster it opened when it
    returns, and it closes no raster that was open before the call. *)
Theorem export_texture_png_closes_raster {RT : Runtime} {PL : Pillow}
  (input_tif output_png : string) (block_size : Z) (w : World) :
  (forall path pic, quiet_io (save_png path pic)) ->
  exists new,
    trace (snd (export_texture_png input_tif output_png block_size w)) =
      trace w ++ new /\
    open_handles_from new [] = [] /\
    (forall acc, Forall (fun k => (k < next_handle w)%nat) acc ->
                 open_handles_from new acc = acc).
Proof.
  intros Hsave.
  assert (Hb : balanced_io (export_texture_png input_tif output_png block_size)).
  { unfold export_texture_png.
    apply (balanced_open_with_then input_tif
             (fun src =>
                let width_ := width (ds src) in
                let height_ := height (ds src) in
                let bands := count (ds src) in
                let mode := mode_of bands in
                img <~ lift (Image_new mode width_ height_) ;;
                total <~ lift (q <- Py.floordiv height_ block_size ;; Ok (q + 1)) ;;
                y_offs <~ lift (Py.range 0 height_ block_size) ;;
                img <~ fold_io y_offs (fun img y_off =>
                         let h := Z.min block_size (height_ - y_off) in
                         block <~ read_strip src y_off h ;;
                         block_px <~ lift (block_pixels bands block) ;;
                         ret (paste img block_px y_off))
                       img ;;
                save_png output_png img)
             (fun _ _ => ret output_png)).
    - intros src. apply balanced_of_quiet. cbv zeta.
      apply quiet_bind; [apply quiet_lift | intros img].
      apply quiet_bind; [apply quiet_lift | intros total].
      apply quiet_bind; [apply quiet_lift | intros y_offs].
      apply quiet_bind; [|intros img'; apply Hsave].
      apply quiet_fold_io. intros s y_off. cbv zeta.
      apply quiet_bind; [apply quiet_read_strip | intros block].
      apply quiet_bind; [apply quiet_lift | intros block_px; apply quiet_ret].
    - intros _ _. apply balanced_of_quiet, quiet_ret. }
  destruct (Hb w) as (new & T & _ & P).
  exists new. split; [exact T|]. split; [now apply P | exact P].
Qed.

(** X20, witness: the example encoder, which only records what it is
    given, on the example grid. *)
Lemma export_texture_png_closes_raster_witness :
  exists new,
    trace (snd (@export_texture_png example_runtime example_pillow "grid.tif"
                  "grid.png" 1 example_world)) = trace example_world ++ new /\
    open_handles_from new [] = [].
Proof.
  destruct (@export_texture_png_closes_raster example_runtime example_pillow
              "grid.tif" "grid.png" 1 example_world) as (new & T & P & _).
  - intros path pic. cbn [save_png example_pillow]. now apply quiet_log.
  - exists new. split; [exact T | exact P].
Defined.

(* ------------------------------------------------------------------ *)
(** ** The importer: strings                                           *)
(* ------------------------------------------------------------------ *)

Ltac each_char c :=
  destruct c as [[] [] [] [] [] [] [] []]; try discriminate.

Lemma contains_char_app (s t : string) (c : ascii) :
  contains_char (s ++ t) c = contains_char s c || contains_char t c.
Proof.
  induction s as [|a s IH]; [reflexivity|].
  cbn [String.append contains_char]. now rewrite IH, orb_assoc.
Qed.

Lemma contains_char_digits (s : string) (c : ascii) :
  all_digits s = true -> is_digit c = false -> contains_char s c = false.
Proof.
  intros Hs Hc. induction s as [|a s IH]; [reflexivity|].
  cbn [all_digits] in Hs. apply andb_true_iff in Hs. destruct Hs as [Ha Hs].
  cbn [contains_char]. rewrite (IH Hs), orb_false_r.
  destruct (Ascii.eqb_spec a c) as [->|]; congruence.
Qed.

Lemma split_parts_app (s t : string) (sep : ascii) :
  contains_char s sep = false ->
  split_parts (s ++ String sep t) sep =
  (s, fst (split_parts t sep) :: snd (split_parts t sep)).
Proof.
  induction s as [|a s IH]; intros Hs.
  - cbn [String.append split_parts]. rewrite Ascii.eqb_refl.
    now destruct (split_parts t sep).
  - cbn [contains_char] in Hs. apply orb_false_iff in Hs. destruct Hs as [Ha Hs].
    cbn [String.append split_parts]. now rewrite (IH Hs), Ha.
Qed.

Lemma str_split_app (s t : string) (sep : ascii) :
  contains_char s sep = false ->
  str_split (s ++ String sep t) sep = s :: str_split t sep.
Proof.
  intros Hs. unfold str_split. rewrite (split_parts_app s t sep Hs).
  now destruct (split_parts t sep).
Qed.

Lemma str_split_none (s : string) (sep : ascii) :
  contains_char s sep = false -> str_split s sep = [s].
Proof.
  intros Hs. unfold str_split.
  induction s as [|a s IH]; [reflexivity|].
  cbn [contains_char] in Hs. apply orb_false_iff in Hs. destruct Hs as [Ha Hs].
  cbn [split_parts]. specialize (IH Hs).
  destruct (split_parts s sep) as [p ps]. rewrite Ha. now injection IH as -> ->.
Qed.

(** What [split] gives is never empty. *)
Lemma str_split_cons (s : string) (sep : ascii) :
  exists p ps, str_split s sep = p :: ps.
Proof.
  unfold str_split. destruct (split_parts s sep) as [p ps]. now exists p, ps.
Qed.

Lemma lower_app (s t : string) : lower (s ++ t) = (lower s ++ lower t)%string.
Proof.
  induction s as [|a s IH]; [reflexivity|].
  cbn [String.append lower]. now rewrite IH.
Qed.

Lemma lower_digits (s : string) : all_digits s = true -> lower s = s.
Proof.
  induction s as [|a s IH]; intros Hs; [reflexivity|].
  cbn [all_digits] in Hs. apply andb_true_iff in Hs. destruct Hs as [Ha Hs].
  cbn [lower]. rewrite (IH Hs). f_equal.
  revert Ha. each_char a; reflexivity.
Qed.

Lemma endswith_app (s p : string) : endswith (s ++ p) p = true.
Proof.
  induction s as [|a s IH].
  - cbn [String.append]. destruct p; cbn [endswith]; now rewrite String.eqb_refl.
  - cbn [String.append endswith]. rewrite IH. apply orb_true_r.
Qed.

(* ------------------------------------------------------------------ *)
(** ** The importer: [int] on the digits of a file name                *)
(* ------------------------------------------------------------------ *)

Lemma c_str_digits (s : string) : all_digits s = true -> c_str s = s.
Proof.
  induction s as [|a s IH]; intros Hs; [reflexivity|].
  cbn [all_digits] in Hs. apply andb_true_iff in Hs. destruct Hs as [Ha Hs].
  cbn [c_str]. rewrite (IH Hs).
  revert Ha. each_char a; reflexivity.
Qed.

Lemma length_string_of_uint (d : Decimal.uint) :
  String.length (DecimalString.NilEmpty.string_of_uint d) = Decimal.nb_digits d.
Proof.
  induction d; cbn; congruence.
Qed.

(** The scan of a string of digits reads all of it, and finds the
    number the digits denote. *)
Lemma scan_all_digits (s : string) :
  all_digits s = true ->
  exists d,
    DecimalString.NilEmpty.uint_of_string s = Some d /\
    forall acc n0,
      scan_digits s false (Z.of_nat acc) n0 =
      Some (Z.of_nat (Nat.of_uint_acc d acc), (n0 + String.length s)%nat, EmptyString).
Proof.
  induction s as [|a s IH]; intros Hs.
  - exists Decimal.Nil. split; [reflexivity|]. intros acc n0.
    cbn. now rewrite Nat.add_0_r.
  - cbn [all_digits] in Hs. apply andb_true_iff in Hs. destruct Hs as [Ha Hs].
    destruct (IH Hs) as (d & Hd & Hscan).
    revert Ha. each_char a; intros _;
      cbn [DecimalString.NilEmpty.uint_of_string DecimalString.uint_of_char];
      rewrite Hd; cbn [option_map];
      (eexists; split; [reflexivity|]); intros acc n0;
      cbn [scan_digits String.length Nat.of_uint_acc];
      match goal with
      | |- context [digit_value ?c] =>
          let v := eval vm_compute in (digit_value c) in
          change (digit_value c) with v
      end;
      rewrite <- Nat.add_succ_comm, <- Hscan; f_equal;
      rewrite ?Nat.tail_mul_spec; lia.
Qed.

Lemma int_str_all_digits (s : string) :
  all_digits s = true ->
  (1 <= String.length s <= max_str_digits)%nat ->
  exists n, value_of s = Some n /\ int_str s = Ok (Z.of_nat n).
Proof.
  intros Hs Hlen.
  destruct (scan_all_digits s Hs) as (d & Hd & Hscan).
  exists (Nat.of_uint d). split; [unfold value_of; now rewrite Hd|].
  specialize (Hscan 0%nat 0%nat). cbn [Z.of_nat Nat.add] in Hscan.
  unfold int_str. rewrite (c_str_digits s Hs), String.eqb_refl.
  destruct s as [|a s]; [cbn in Hlen; lia|].
  assert (Ha : is_digit a = true).
  { cbn [all_digits] in Hs. now apply andb_true_iff in Hs. }
  assert (Hhead :
    (let (negative, body) :=
       match lstrip (String a s) with
       | String "+" r => (false, r)
       | String "-" r => (true, r)
       | _ => (false, lstrip (String a s))
       end in
     match body with
     | String "_" _ => Raise (invalid_literal (String a s))
     | _ =>
         match scan_digits body false 0 0 with
         | None => Raise (invalid_literal (String a s))
         | Some (v, n, rest) =>
             if (n =? 0)%nat then Raise (invalid_literal (String a s))
             else if (max_str_digits <? n)%nat then Raise (exceeds_limit n)
             else if all_space rest && true
                  then Ok (if negative then - v else v)
             else Raise (invalid_literal (String a s))
         end
     end) =
    match scan_digits (String a s) false 0 0 with
    | None => Raise (invalid_literal (String a s))
    | Some (v, n, rest) =>
        if (n =? 0)%nat then Raise (invalid_literal (String a s))
        else if (max_str_digits <? n)%nat then Raise (exceeds_limit n)
        else if all_space rest && true then Ok v
        else Raise (invalid_literal (String a s))
    end).
  { clear Hscan Hlen Hs Hd. revert Ha. each_char a; intros _; reflexivity. }
  cbv zeta in Hhead |- *. rewrite Hhead, Hscan.
  destruct (Nat.eqb_spec (String.length (String a s)) 0) as [E|_]; [lia|].
  destruct (Nat.ltb_spec max_str_digits (String.length (String a s))) as [E|_]; [lia|].
  reflexivity.
Qed.

Lemma length_zeros (k : nat) : String.length (zeros k) = k.
Proof.
  induction k as [|k IH]; [reflexivity|]. cbn [zeros String.length]. now rewrite IH.
Qed.

Lemma length_append (s t : string) :
  String.length (s ++ t) = (String.length s + String.length t)%nat.
Proof.
  induction s as [|a s IH]; [reflexivity|].
  cbn [String.append String.length]. now rewrite IH.
Qed.

Lemma length_zfill (s : string) (width_ : nat) :
  String.length (zfill s width_) = Nat.max width_ (String.length s).
Proof.
  unfold zfill. rewrite length_append, length_zeros. lia.
Qed.

(** The value of digits read after [acc] is at least [acc] shifted. *)
Lemma of_uint_acc_lower (d : Decimal.uint) (acc : nat) :
  Z.of_nat acc * 10 ^ Z.of_nat (Decimal.nb_digits d) <=
  Z.of_nat (Nat.of_uint_acc d acc).
Proof.
  revert acc.
  induction d as [|d IH|d IH|d IH|d IH|d IH|d IH|d IH|d IH|d IH|d IH]; intros acc;
    [cbn; lia| | | | | | | | | |];
    cbn [Nat.of_uint_acc Decimal.nb_digits];
    (etransitivity; [|apply IH]);
    rewrite Nat2Z.inj_succ, Z.pow_succ_r by lia;
    rewrite ?Nat.tail_mul_spec;
    assert (0 < 10 ^ Z.of_nat (Decimal.nb_digits d)) by (apply Z.pow_pos_nonneg; lia);
    nia.
Qed.

Lemma nzhead_not_D0 (d d' : Decimal.uint) : Decimal.nzhead d <> Decimal.D0 d'.
Proof.
  induction d; cbn; try discriminate. exact IHd.
Qed.

(** A number without a leading zero is at least the power of ten of
    its digits. *)
Lemma unorm_lower (d : Decimal.uint) :
  Decimal.unorm d = d ->
  10 ^ (Z.of_nat (Decimal.nb_digits d) - 1) <= Z.max 1 (Z.of_nat (Nat.of_uint d)).
Proof.
  intros Hnorm.
  destruct d as [|d|d|d|d|d|d|d|d|d|d].
  1: discriminate Hnorm.
  1: { unfold Decimal.unorm in Hnorm. cbn [Decimal.nzhead] in Hnorm.
       destruct (Decimal.nzhead d) eqn:En; try discriminate Hnorm.
       - injection Hnorm as <-. cbn. lia.
       - exfalso. exact (nzhead_not_D0 d _ En). }
  all: unfold Nat.of_uint; cbn [Nat.of_uint_acc Nat.tail_mul Nat.tail_addmul];
    cbn [Decimal.nb_digits];
    match goal with
    | |- context [Nat.of_uint_acc ?u ?k] =>
        pose proof (of_uint_acc_lower u k) as Hlow;
        replace (Z.of_nat (S (Decimal.nb_digits u)) - 1)
          with (Z.of_nat (Decimal.nb_digits u)) by lia;
        assert (0 < 10 ^ Z.of_nat (Decimal.nb_digits u))
          by (apply Z.pow_pos_nonneg; lia)
    end;
    nia.
Qed.

(** [str(n)] has no more digits than [n] needs. *)
Lemma digits_lower (n : nat) :
  10 ^ (Z.of_nat (String.length (digits n)) - 1) <= Z.max 1 (Z.of_nat n).
Proof.
  unfold digits. rewrite length_string_of_uint.
  rewrite <- (DecimalNat.Unsigned.of_to n) at 2.
  apply unorm_lower.
  rewrite <- (DecimalNat.Unsigned.of_to n) at 2.
  now rewrite DecimalNat.Unsigned.to_of.
Qed.

Lemma length_format_03d (z : Z) :
  0 <= z < 10 ^ 4300 -> (3 <= String.length (format_03d z) <= max_str_digits)%nat.
Proof.
  intros Hz. rewrite format_03d_nonneg by lia. rewrite length_zfill.
  split; [lia|].
  pose proof (digits_lower (Z.to_nat z)) as Hlow.
  assert (Hlt : 10 ^ (Z.of_nat (String.length (digits (Z.to_nat z))) - 1) < 10 ^ 4300).
  { eapply Z.le_lt_trans; [exact Hlow|].
    rewrite Z2Nat.id by lia.
    assert (1 < 10 ^ 4300) by (apply Z.pow_gt_1; lia). lia. }
  apply Z.pow_lt_mono_r_iff in Hlt; [|lia|lia].
  unfold max_str_digits. lia.
Qed.

(** [int] reads back what [:03d] wrote. *)
Lemma int_str_format_03d (z : Z) :
  0 <= z < 10 ^ 4300 -> int_str (format_03d z) = Ok z.
Proof.
  intros Hz.
  destruct (int_str_all_digits (format_03d z)) as (n & Hn & Hint).
  - apply all_digits_format_03d. lia.
  - pose proof (length_format_03d z Hz). lia.
  - rewrite Hint. rewrite format_03d_nonneg in Hn by lia.
    rewrite value_of_zfill in Hn. injection Hn as <-.
    now rewrite Z2Nat.id by lia.
Qed.

(* ------------------------------------------------------------------ *)
(** ** The importer: keys of the tiles                                 *)
(* ------------------------------------------------------------------ *)

Lemma format_03d_without (z : Z) (c : ascii) :
  0 <= z -> is_digit c = false -> contains_char (format_03d z) c = false.
Proof.
  intros Hz Hc. apply contains_char_digits; [|exact Hc].
  now apply all_digits_format_03d.
Qed.

(** The parts of a tile name between the underscores. *)
Lemma str_split_tile_name (kind : string) (row col : Z) :
  contains_char kind "_" = false ->
  0 <= row -> 0 <= col ->
  str_split (kind ++ "_r" ++ format_03d row ++ "_c" ++ format_03d col ++ ".png") "_" =
  [kind; ("r" ++ format_03d row)%string; ("c" ++ format_03d col ++ ".png")%string].
Proof.
  intros Hk Hr Hc.
  change (kind ++ "_r" ++ format_03d row ++ "_c" ++ format_03d col ++ ".png")%string
    with (kind ++ String "_" (String "r" (format_03d row) ++
                               String "_" (String "c" (format_03d col ++ ".png"))))%string.
  rewrite (str_split_app kind _ "_" Hk).
  rewrite str_split_app
    by (cbn [contains_char Ascii.eqb Bool.eqb orb]; now apply format_03d_without).
  rewrite str_split_none; [reflexivity|].
  cbn [contains_char Ascii.eqb Bool.eqb orb].
  rewrite contains_char_app, format_03d_without by (assumption || reflexivity).
  reflexivity.
Qed.

Lemma chunk_key_tile_name (kind : string) (row col : Z) :
  contains_char kind "_" = false ->
  0 <= row -> 0 <= col ->
  chunk_key (kind ++ "_r" ++ format_03d row ++ "_c" ++ format_03d col ++ ".png") =
  Ok (key_of row col).
Proof.
  intros Hk Hr Hc. unfold chunk_key.
  rewrite (str_split_tile_name kind row col Hk Hr Hc).
  cbn [Py.getitem nth_error bind].
  change ("c" ++ format_03d col ++ ".png")%string
    with (String "c" (format_03d col) ++ String "." "png")%string.
  rewrite str_split_app
    by (cbn [contains_char Ascii.eqb Bool.eqb orb]; now apply format_03d_without).
  cbn [Py.getitem nth_error bind]. unfold key_of.
  cbn [String.append]. reflexivity.
Qed.

Lemma chunk_key_dsm (row col : Z) :
  0 <= row -> 0 <= col -> chunk_key (dsm_chunk_name row col) = Ok (key_of row col).
Proof.
  intros Hr Hc. now apply (chunk_key_tile_name "dsm").
Qed.

Lemma chunk_key_satellite (row col : Z) :
  0 <= row -> 0 <= col -> chunk_key (satellite_chunk_name row col) = Ok (key_of row col).
Proof.
  intros Hr Hc. now apply (chunk_key_tile_name "satellite").
Qed.

Lemma parse_key_key_of (row col : Z) :
  0 <= row < 10 ^ 4300 -> 0 <= col < 10 ^ 4300 ->
  parse_key (key_of row col) = Ok (row, col).
Proof.
  intros Hr Hc. unfold parse_key, key_of.
  change ("r" ++ format_03d row ++ "_c" ++ format_03d col)%string
    with (String "r" (format_03d row) ++ String "_" (String "c" (format_03d col)))%string.
  rewrite str_split_app
    by (cbn [contains_char Ascii.eqb Bool.eqb orb]; apply format_03d_without;
        [lia|reflexivity]).
  rewrite str_split_none
    by (cbn [contains_char Ascii.eqb Bool.eqb orb]; apply format_03d_without;
        [lia|reflexivity]).
  cbn [from_1]. rewrite !int_str_format_03d by assumption. reflexivity.
Qed.

Lemma key_of_inj (row col row' col' : Z) :
  0 <= row < 10 ^ 4300 -> 0 <= col < 10 ^ 4300 ->
  0 <= row' < 10 ^ 4300 -> 0 <= col' < 10 ^ 4300 ->
  key_of row col = key_of row' col' -> row = row' /\ col = col'.
Proof.
  intros Hr Hc Hr' Hc' E.
  pose proof (parse_key_key_of row col Hr Hc) as P.
  rewrite E, (parse_key_key_of row' col' Hr' Hc') in P.
  injection P as -> ->. now split.
Qed.

(** X21. File names and keys.  For a row and a column that are not
    negative (and below 10 ^ 4300, the most [int] reads), the importer
    gives the elevation tile and the satellite tile that
    [generate_chunks] writes for the cell the same key
    ["r<row>_c<col>"], and it reads the row and the column of the cell
    back from that key. *)
Theorem chunk_key_round_trip (row col : Z) :
  0 <= row < 10 ^ 4300 ->
  0 <= col < 10 ^ 4300 ->
  chunk_key (dsm_chunk_name row col) = Ok (key_of row col) /\
  chunk_key (satellite_chunk_name row col) = Ok (key_of row col) /\
  parse_key (key_of row col) = Ok (row, col).
Proof.
  intros Hr Hc. split; [|split].
  - apply chunk_key_dsm; lia.
  - apply chunk_key_satellite; lia.
  - now apply parse_key_key_of.
Qed.

(** X21, witness: the cell at row 2, column 1000. *)
Lemma chunk_key_round_trip_witness :
  chunk_key "dsm_r002_c1000.png" = Ok "r002_c1000"%string /\
  chunk_key "satellite_r002_c1000.png" = Ok "r002_c1000"%string /\
  parse_key "r002_c1000" = Ok (2, 1000).
Proof.
  apply (chunk_key_round_trip 2 1000); split; try lia; now vm_compute.
Defined.

(* ------------------------------------------------------------------ *)
(** ** The importer: the dictionaries                                  *)
(* ------------------------------------------------------------------ *)

Lemma dict_get_set (d : dict) (k v k' : string) :
  dict_get (dict_set d k v) k' = if String.eqb k k' then Some v else dict_get d k'.
Proof.
  induction d as [|[k0 v0] d IH].
  - cbn [dict_set dict_get]. reflexivity.
  - cbn [dict_set]. destruct (String.eqb_spec k0 k) as [->|Hk].
    + cbn [dict_get]. now destruct (String.eqb k k').
    + cbn [dict_get]. destruct (String.eqb_spec k0 k') as [->|Hk'].
      * destruct (String.eqb_spec k k'); [congruence|reflexivity].
      * exact IH.
Qed.

Lemma dict_keys_set (d : dict) (k v k' : string) :
  In k' (dict_keys (dict_set d k v)) <-> k' = k \/ In k' (dict_keys d).
Proof.
  unfold dict_keys. induction d as [|[k0 v0] d IH].
  - cbn. intuition congruence.
  - cbn [dict_set]. destruct (String.eqb_spec k0 k) as [->|Hk].
    + cbn [map fst In]. intuition congruence.
    + cbn [map fst In]. rewrite IH. intuition congruence.
Qed.

Lemma dict_keys_set_NoDup (d : dict) (k v : string) :
  NoDup (dict_keys d) -> NoDup (dict_keys (dict_set d k v)).
Proof.
  unfold dict_keys. induction d as [|[k0 v0] d IH]; intros Hd.
  - cbn. constructor; [intros []|constructor].
  - cbn [dict_set]. destruct (String.eqb_spec k0 k) as [->|Hk]; [exact Hd|].
    cbn [map fst] in *. inversion Hd as [|? ? Hn Hd']. subst.
    constructor; [|now apply IH].
    intros Hin. apply (dict_keys_set d k v k0) in Hin.
    destruct Hin as [->|Hin]; [now apply Hk|now apply Hn].
Qed.

Section Index.

Variables (chunk_folder : string) (keyf : string -> string).

Local Abbreviation step :=
  (fun (d : dict) (f : string) => dict_set d (keyf f) (os_path_join chunk_folder f)).

Lemma index_files_run (files : list string) (d : dict) :
  (forall f, In f files -> chunk_key f = Ok (keyf f)) ->
  index_files chunk_folder files d = Ok (fold_left step files d).
Proof.
  revert d. induction files as [|f files IH]; intros d Hk; [reflexivity|].
  cbn [index_files fold_left]. rewrite (Hk f) by now left.
  cbn [bind]. apply IH. intros f' Hf'. apply Hk. now right.
Qed.

Lemma index_get (files : list string) (d : dict) (k v : string) :
  dict_get d k = Some v \/ (exists f, In f files /\ keyf f = k) ->
  (forall f, In f files -> keyf f = k -> os_path_join chunk_folder f = v) ->
  dict_get (fold_left step files d) k = Some v.
Proof.
  revert d. induction files as [|f files IH]; intros d Hsome Hall.
  - destruct Hsome as [Hd | (f & [] & _)]. exact Hd.
  - cbn [fold_left]. apply IH.
    + rewrite dict_get_set.
      destruct (String.eqb_spec (keyf f) k) as [E|N].
      * left. f_equal. apply Hall; [now left|exact E].
      * destruct Hsome as [Hd | (f' & [<-|Hf'] & E')];
          [now left | contradiction | right; now exists f'].
    + intros f' Hf'. apply Hall. now right.
Qed.

Lemma index_keys (files : list string) (d : dict) (k : string) :
  In k (dict_keys (fold_left step files d)) ->
  In k (dict_keys d) \/ exists f, In f files /\ keyf f = k.
Proof.
  revert d. induction files as [|f files IH]; intros d Hk; [now left|].
  cbn [fold_left] in Hk. apply IH in Hk.
  destruct Hk as [Hk | (f' & Hf' & E)].
  - apply dict_keys_set in Hk. destruct Hk as [->|Hk]; [|now left].
    right. exists f. split; [now left|reflexivity].
  - right. exists f'. split; [now right|exact E].
Qed.

Lemma index_NoDup (files : list string) (d : dict) :
  NoDup (dict_keys d) -> NoDup (dict_keys (fold_left step files d)).
Proof.
  revert d. induction files as [|f files IH]; intros d Hd; [exact Hd|].
  cbn [fold_left]. apply IH. now apply dict_keys_set_NoDup.
Qed.

End Index.

(** [chunk_key] raises nothing but [IndexError], and raises it for a
    name with less than two underscores. *)
Lemma chunk_key_cases (f : string) :
  (exists key, chunk_key f = Ok key /\ (3 <= length (str_split f "_"))%nat) \/
  (chunk_key f = Raise (IndexError "list index out of range") /\
   (length (str_split f "_") < 3)%nat).
Proof.
  unfold chunk_key, Py.getitem.
  destruct (str_split f "_") as [|p0 [|p1 [|p2 ps]]];
    cbn [nth_error bind length]; try (right; split; [reflexivity|lia]).
  left. destruct (str_split_cons p2 ".") as (q & qs & ->).
  cbn [nth_error bind]. eexists. split; [reflexivity|lia].
Qed.

Lemma index_files_cases (chunk_folder : string) (files : list string) (d : dict) :
  (exists d', index_files chunk_folder files d = Ok d') \/
  index_files chunk_folder files d = Raise (IndexError "list index out of range").
Proof.
  revert d. induction files as [|f files IH]; intros d.
  - left. now exists d.
  - cbn [index_files].
    destruct (chunk_key_cases f) as [(key & -> & _) | [-> _]]; cbn [bind].
    + apply IH.
    + now right.
Qed.

Lemma index_files_stray (chunk_folder : string) (files : list string) (d : dict)
  (f : string) :
  In f files -> (length (str_split f "_") < 3)%nat ->
  index_files chunk_folder files d = Raise (IndexError "list index out of range").
Proof.
  revert d. induction files as [|f' files IH]; intros d Hin Hlen; [contradiction|].
  cbn [index_files].
  destruct (chunk_key_cases f') as [(key & E & Hlen') | [-> _]]; cbn [bind];
    [|reflexivity].
  rewrite E. cbn [bind]. apply IH; [|exact Hlen].
  destruct Hin as [->|Hin]; [lia|exact Hin].
Qed.

(** The tile names end in ".png", in lower case as well. *)
Lemma tile_name_png (kind : string) (row col : Z) :
  lower kind = kind ->
  0 <= row -> 0 <= col ->
  endswith (lower (kind ++ format_03d row ++ "_c" ++ format_03d col ++ ".png")) ".png" =
  true.
Proof.
  intros Hk Hr Hc.
  rewrite !lower_app, Hk.
  rewrite (lower_digits (format_03d row)), (lower_digits (format_03d col))
    by now apply all_digits_format_03d.
  change (lower "_c") with "_c"%string. change (lower ".png") with ".png"%string.
  rewrite <- !string_append_assoc. apply endswith_app.
Qed.

Lemma png_files_In (kind : string) (all_files : list string) (f : string) :
  In f (png_files kind all_files) <->
  In f all_files /\ startswith f kind = true /\ endswith (lower f) ".png" = true.
Proof.
  unfold png_files. rewrite filter_In, andb_true_iff. reflexivity.
Qed.

(* ------------------------------------------------------------------ *)
(** ** The importer: the index of a chunk folder                       *)
(* ------------------------------------------------------------------ *)

Lemma dict_get_In (d : dict) (k v : string) :
  dict_get d k = Some v -> In k (dict_keys d).
Proof.
  unfold dict_keys. induction d as [|[k0 v0] d IH]; [discriminate|].
  cbn [dict_get map fst In].
  destruct (String.eqb_spec k0 k) as [->|_]; [now left|].
  intros E. right. now apply IH.
Qed.

Section Folder.

Variables (all_files : list string) (cells : list (Z * Z)).

Hypothesis cells_range :
  forall row col, In (row, col) cells -> 0 <= row < 10 ^ 4300 /\ 0 <= col < 10 ^ 4300.

Hypothesis folder_holds_tiles :
  forall f, In f all_files <->
            exists row col, In (row, col) cells /\
              (f = dsm_chunk_name row col \/ f = satellite_chunk_name row col).

Lemma satellite_files_tiles (f : string) :
  In f (png_files "satellite" all_files) <->
  exists row col, In (row, col) cells /\ f = satellite_chunk_name row col.
Proof.
  rewrite png_files_In, folder_holds_tiles. split.
  - intros ((row & col & Hin & [-> | ->]) & Hstart & _).
    + discriminate Hstart.
    + now exists row, col.
  - intros (row & col & Hin & ->).
    destruct (cells_range row col Hin) as [Hr Hc].
    split; [exists row, col; split; [exact Hin|now right]|].
    split; [reflexivity|].
    apply (tile_name_png "satellite_r"); [reflexivity|lia|lia].
Qed.

Lemma dsm_files_tiles (f : string) :
  In f (png_files "dsm" all_files) <->
  exists row col, In (row, col) cells /\ f = dsm_chunk_name row col.
Proof.
  rewrite png_files_In, folder_holds_tiles. split.
  - intros ((row & col & Hin & [-> | ->]) & Hstart & _).
    + now exists row, col.
    + discriminate Hstart.
  - intros (row & col & Hin & ->).
    destruct (cells_range row col Hin) as [Hr Hc].
    split; [exists row, col; split; [exact Hin|now left]|].
    split; [reflexivity|].
    apply (tile_name_png "dsm_r"); [reflexivity|lia|lia].
Qed.

(** The dictionary made from the files [name row col] of the cells. *)

Variables (chunk_folder : string) (files : list string) (name : Z -> Z -> string).

Hypothesis files_tiles :
  forall f, In f files <-> exists row col, In (row, col) cells /\ f = name row col.

Hypothesis name_key :
  forall row col, 0 <= row -> 0 <= col -> chunk_key (name row col) = Ok (key_of row col).

Local Abbreviation keyf :=
  (fun f => match chunk_key f with Ok key => key | Raise _ => EmptyString end).

Local Abbreviation filled :=
  (fold_left (fun (d : dict) (f : string) =>
                dict_set d (keyf f) (os_path_join chunk_folder f)) files []).

Lemma tile_key (f : string) :
  In f files ->
  exists row col, In (row, col) cells /\ f = name row col /\
                  chunk_key f = Ok (key_of row col).
Proof.
  intros Hf. apply files_tiles in Hf. destruct Hf as (row & col & Hin & ->).
  exists row, col. destruct (cells_range row col Hin) as [Hr Hc].
  split; [exact Hin|]. split; [reflexivity|]. apply name_key; lia.
Qed.

Lemma tile_dict_run : index_files chunk_folder files [] = Ok filled.
Proof.
  apply (index_files_run chunk_folder keyf).
  intros f Hf. destruct (tile_key f Hf) as (row & col & _ & _ & E).
  now rewrite E.
Qed.

Lemma tile_dict_get (row col : Z) :
  In (row, col) cells ->
  dict_get filled (key_of row col) = Some (os_path_join chunk_folder (name row col)).
Proof.
  intros Hin. destruct (cells_range row col Hin) as [Hr Hc].
  apply (index_get chunk_folder keyf).
  - right. exists (name row col). split.
    + apply files_tiles. now exists row, col.
    + rewrite name_key by lia. reflexivity.
  - intros f Hf E. destruct (tile_key f Hf) as (r & c & Hin' & -> & Hk).
    rewrite Hk in E. destruct (cells_range r c Hin') as [Hr' Hc'].
    apply key_of_inj in E; [|assumption..]. now destruct E as [-> ->].
Qed.

Lemma tile_dict_keys (key : string) :
  In key (dict_keys filled) <->
  exists row col, In (row, col) cells /\ key = key_of row col.
Proof.
  split.
  - intros Hk. apply (index_keys chunk_folder keyf) in Hk.
    destruct Hk as [[] | (f & Hf & E)].
    destruct (tile_key f Hf) as (row & col & Hin & _ & Hk).
    rewrite Hk in E. now exists row, col.
  - intros (row & col & Hin & ->).
    eapply dict_get_In. now apply tile_dict_get.
Qed.

Lemma tile_dict_NoDup : NoDup (dict_keys filled).
Proof.
  apply (index_NoDup chunk_folder keyf). constructor.
Qed.

End Folder.

(** X22. The index of a chunk folder.  When the folder holds exactly
    the elevation and the satellite tile of every cell of a list (rows
    and columns not negative and below 10 ^ 4300), in any order, the
    importer builds its two dictionaries without an error; the keys of
    the satellite dictionary, which are the tiles the importer loads,
    are the keys of the cells, each one once; and for every cell the
    key gives back row and column and leads to the path of the
    satellite tile in one dictionary and to the path of the elevation
    tile in the other: no lookup fails. *)
Theorem tile_index_complete (chunk_folder : string) (all_files : list string)
  (cells : list (Z * Z)) :
  (forall row col, In (row, col) cells ->
                   0 <= row < 10 ^ 4300 /\ 0 <= col < 10 ^ 4300) ->
  (forall f, In f all_files <->
             exists row col, In (row, col) cells /\
               (f = dsm_chunk_name row col \/ f = satellite_chunk_name row col)) ->
  exists satellite_dict dsm_dict,
    tile_index chunk_folder all_files = Ok (satellite_dict, dsm_dict) /\
    NoDup (dict_keys satellite_dict) /\
    (forall key, In key (dict_keys satellite_dict) <->
                 exists row col, In (row, col) cells /\ key = key_of row col) /\
    (forall row col, In (row, col) cells ->
        parse_key (key_of row col) = Ok (row, col) /\
        dict_get satellite_dict (key_of row col) =
          Some (os_path_join chunk_folder (satellite_chunk_name row col)) /\
        dict_get dsm_dict (key_of row col) =
          Some (os_path_join chunk_folder (dsm_chunk_name row col))).
Proof.
  intros Hrange Hfolder.
  pose proof (satellite_files_tiles all_files cells Hrange Hfolder) as Hsat.
  pose proof (dsm_files_tiles all_files cells Hrange Hfolder) as Hdsm.
  eexists. eexists. split; [|split; [|split]].
  - unfold tile_index. cbv zeta.
    rewrite (tile_dict_run cells Hrange chunk_folder _ satellite_chunk_name Hsat
               chunk_key_satellite).
    cbn [bind].
    rewrite (tile_dict_run cells Hrange chunk_folder _ dsm_chunk_name Hdsm chunk_key_dsm).
    cbn [bind]. reflexivity.
  - apply tile_dict_NoDup.
  - intros key.
    apply (tile_dict_keys cells Hrange chunk_folder _ satellite_chunk_name Hsat
             chunk_key_satellite).
  - intros row col Hin. destruct (Hrange row col Hin) as [Hr Hc].
    split; [now apply parse_key_key_of|]. split.
    + now apply (tile_dict_get cells Hrange chunk_folder _ satellite_chunk_name Hsat
                   chunk_key_satellite).
    + now apply (tile_dict_get cells Hrange chunk_folder _ dsm_chunk_name Hdsm
                   chunk_key_dsm).
Qed.

(** X22, witness: a folder of two cells, listed in no order. *)
Lemma tile_index_complete_witness :
  exists satellite_dict dsm_dict,
    tile_index "chunks"
      ["satellite_r000_c001.png"; "dsm_r000_c000.png"; "dsm_r000_c001.png";
       "satellite_r000_c000.png"]%string = Ok (satellite_dict, dsm_dict) /\
    dict_keys satellite_dict = ["r000_c001"; "r000_c000"]%string /\
    dict_get dsm_dict "r000_c001" = Some "chunks/dsm_r000_c001.png"%string.
Proof.
  destruct (tile_index_complete "chunks"
              ["satellite_r000_c001.png"; "dsm_r000_c000.png"; "dsm_r000_c001.png";
               "satellite_r000_c000.png"]%string [(0, 0); (0, 1)])
    as (satellite_dict & dsm_dict & Hrun & _ & _ & Hcells).
  - intros row col [E | [E | []]]; injection E as <- <-;
      (split; (split; [lia | now vm_compute])).
  - intros f. split.
    + intros [<- | [<- | [<- | [<- | []]]]];
        [exists 0, 1 | exists 0, 0 | exists 0, 1 | exists 0, 0];
        (split; [cbn; tauto | (now left) || (now right)]).
    + intros (row & col & [E | [E | []]] & [-> | ->]); injection E as <- <-;
        cbn; tauto.
  - exists satellite_dict, dsm_dict. split; [exact Hrun|].
    vm_compute in Hrun. injection Hrun as <- <-. split; reflexivity.
Defined.

(** X23. A stray PNG file.  One file in the folder whose name starts
    with "dsm" or "satellite", ends with ".png" in any case and has
    less than two underscores makes the importer fail with
    [IndexError] while it builds its dictionaries, whatever else the
    folder holds. *)
Theorem tile_index_stray_file (chunk_folder : string) (all_files : list string)
  (f : string) :
  In f all_files ->
  startswith f "dsm" = true \/ startswith f "satellite" = true ->
  endswith (lower f) ".png" = true ->
  (length (str_split f "_") < 3)%nat ->
  tile_index chunk_folder all_files = Raise (IndexError "list index out of range").
Proof.
  intros Hin Hkind Hpng Hparts. unfold tile_index. cbv zeta.
  destruct Hkind as [Hdsm | Hsat].
  - destruct (index_files_cases chunk_folder (png_files "satellite" all_files) [])
      as [(d' & ->) | ->]; [|reflexivity].
    cbn [bind].
    rewrite (index_files_stray chunk_folder (png_files "dsm" all_files) [] f);
      [reflexivity | | exact Hparts].
    apply png_files_In. now repeat split.
  - rewrite (index_files_stray chunk_folder (png_files "satellite" all_files) [] f);
      [reflexivity | | exact Hparts].
    apply png_files_In. now repeat split.
Qed.

(** X23, witness: a preview image beside the tiles of one cell. *)
Lemma tile_index_stray_file_witness :
  tile_index "chunks"
    ["dsm_r000_c000.png"; "satellite_r000_c000.png"; "dsm_preview.PNG"]%string =
  Raise (IndexError "list index out of range").
Proof.
  apply (tile_index_stray_file "chunks" _ "dsm_preview.PNG");
    [cbn; tauto | now left | reflexivity | cbn; lia].
Defined.
